(** * Rolling update of a MachineDeployment: the planners of
      pkg/controller/machinedeployment (rolling.go, status.go) and the
      rolling-update validator, embedded and checked against their
      specification.

    Conventions of the embedding.
    - A Go [int32] is a [Z]; every arithmetic operation of the source is
      written with its wrap-around ([Int32.add], [Int32.sub]).
    - A Go pointer to a scalar ([*int32]) is an [option Z]; dereferencing
      [None] is a run-time panic.
    - Go errors are values: a function returning [(T, error)] returns a pair
      whose second component is an [option error].
    - The object store is a collaborator.  Every request sent to it is
      appended to a log, and a script of pending faults decides which
      requests it refuses. *)

From Stdlib Require Import ZArith List String Ascii Bool Lia Permutation Sorted.
From Stdlib Require DecimalString DecimalPos DecimalN.
Import ListNotations.
Local Open Scope Z_scope.

(* ================================================================= *)
(** ** 32-bit signed integers *)

Module Int32.
Definition min_int : Z := -2147483648.
Definition max_int : Z := 2147483647.
Definition modulus : Z := 4294967296.

(** The value an [int32] holds after a computation whose exact result is
    [z]: two's complement wrap-around. *)
Definition wrap (z : Z) : Z := (z + 2147483648) mod modulus - 2147483648.

Definition add (a b : Z) : Z := wrap (a + b).
Definition sub (a b : Z) : Z := wrap (a - b).

Definition in_range (z : Z) : Prop := min_int <= z <= max_int.
End Int32.

(** k8s.io/client-go/util/integer:
    [func Int32Min(a, b int32) int32 { if b < a { return b }; return a }] *)
Definition Int32Min (a b : Z) : Z := if b <? a then b else a.

(* ================================================================= *)
(** ** The API objects (v1alpha1), restricted to the fields the code reads *)

Module IntOrString.
(** intstr.IntOrString: a tagged union of an [int32] and a string. *)
Inductive t : Type :=
| FromInt (IntVal : Z)
| FromString (StrVal : string).

(** The [StrVal] field; it is empty when the value holds an integer. *)
Definition StrVal (s : t) : string :=
  match s with
  | FromInt _ => EmptyString
  | FromString v => v
  end.
End IntOrString.

Module MachineRollingUpdateDeployment.
Record t : Type := Build
  { MaxUnavailable : option IntOrString.t;
    MaxSurge : option IntOrString.t }.
End MachineRollingUpdateDeployment.

Module MachineSetSpec.
Record t : Type := Build { Replicas : option Z }.
End MachineSetSpec.

Module MachineSetStatus.
Record t : Type := Build
  { Replicas : Z;
    ReadyReplicas : Z;
    AvailableReplicas : Z }.
End MachineSetStatus.

Module MachineSet.
Record t : Type := Build
  { Name : string;
    Namespace : string;
    CreationTimestamp : Z;
    Spec : MachineSetSpec.t;
    Status : MachineSetStatus.t }.

(** [*(ms.Spec.Replicas)] before the dereference. *)
Definition replicas (ms : t) : option Z := MachineSetSpec.Replicas (Spec ms).

Definition available (ms : t) : Z := MachineSetStatus.AvailableReplicas (Status ms).

(** A deep copy of [ms] whose desired count is [n]. *)
Definition withReplicas (ms : t) (n : Z) : t :=
  Build (Name ms) (Namespace ms) (CreationTimestamp ms)
        (MachineSetSpec.Build (Some n)) (Status ms).
End MachineSet.

Module MachineDeploymentStatus.
Record t : Type := Build
  { ObservedGeneration : Z;
    Replicas : Z;
    UpdatedReplicas : Z;
    ReadyReplicas : Z;
    AvailableReplicas : Z;
    UnavailableReplicas : Z }.

(** equality.Semantic.DeepEqual on two status structs: all fields are
    integers, so it is field-wise equality. *)
Definition DeepEqual (a b : t) : bool :=
  (ObservedGeneration a =? ObservedGeneration b)
  && (Replicas a =? Replicas b)
  && (UpdatedReplicas a =? UpdatedReplicas b)
  && (ReadyReplicas a =? ReadyReplicas b)
  && (AvailableReplicas a =? AvailableReplicas b)
  && (UnavailableReplicas a =? UnavailableReplicas b).
End MachineDeploymentStatus.

Module MachineDeploymentSpec.
Record t : Type := Build
  { Replicas : option Z;
    RollingUpdate : option MachineRollingUpdateDeployment.t }.
End MachineDeploymentSpec.

Module MachineDeployment.
Record t : Type := Build
  { Name : string;
    Namespace : string;
    Generation : Z;
    Spec : MachineDeploymentSpec.t;
    Status : MachineDeploymentStatus.t }.

Definition replicas (d : t) : option Z := MachineDeploymentSpec.Replicas (Spec d).

(** [md.Status = newStatus] *)
Definition withStatus (d : t) (st : MachineDeploymentStatus.t) : t :=
  Build (Name d) (Namespace d) (Generation d) (Spec d) st.
End MachineDeployment.

(* ================================================================= *)
(** ** Errors, the store and the monad of a tick *)

(** The errors the planners build with [fmt.Errorf], one constructor per
    message, and the error of a refused store request. *)
Inductive error : Type :=
| ErrDeploymentReplicasNil (name : string)
| ErrMachineSetReplicasNil (name : string)
| ErrCleanupInvalidScaleDown (namespace name : string) (oldReplicas newReplicas : Z)
| ErrInvalidScaleDown (namespace name : string) (oldReplicas newReplicas : Z)
| ErrStore
| ErrCollaborator (what : string).

(** A request sent to a collaborator, with the collaborator's verdict. *)
Inductive Event : Type :=
| EvScale (target : MachineSet.t) (newScale : Z) (accepted : bool)
| EvCleanup (oldMSs : list MachineSet.t) (d : MachineDeployment.t) (accepted : bool)
| EvStatus (d : MachineDeployment.t) (accepted : bool).

Record World : Type := mkWorld
  { events : list Event;     (* oldest first *)
    faults : list bool }.    (* [true]: the next request is refused *)

(** A computation of a tick: it reads and extends the world, and either
    returns a value or panics ([None]). *)
Definition M (A : Type) : Type := World -> option (A * World).

Definition ret {A} (a : A) : M A := fun w => Some (a, w).

Definition bind {A B} (c : M A) (k : A -> M B) : M B :=
  fun w => match c w with
           | Some (a, w') => k a w'
           | None => None
           end.

Declare Scope tick_scope.
Delimit Scope tick_scope with tick.
Notation "x <- c ;; k" := (bind c (fun x => k))
  (at level 61, c at next level, right associativity) : tick_scope.
Notation "' pat <- c ;; k" := (bind c (fun x => match x with pat => k end))
  (at level 61, pat pattern, c at next level, right associativity) : tick_scope.
Local Open Scope tick_scope.

(** Dereference of a pointer: nil panics. *)
Definition deref {A} (p : option A) : M A :=
  fun w => match p with
           | Some a => Some (a, w)
           | None => None
           end.

(** One request to a collaborator: the verdict is taken from the script (an
    exhausted script accepts) and the request is logged with it. *)
Definition request (ev : bool -> Event) : M bool :=
  fun w => match faults w with
           | [] => Some (true, mkWorld (events w ++ [ev true]) [])
           | refused :: rest =>
               Some (negb refused, mkWorld (events w ++ [ev (negb refused)]) rest)
           end.

(* ================================================================= *)
(** ** Helpers of package dutil *)

(** Modelled from the spec: dutil.GetReplicaCountForMachineSets is not among
    the sources; "totalReplicas(sets) = Σ set.spec.replicas", accumulated in
    an [int32].  A set with a nil desired count cannot be summed: the
    dereference panics ([None]). *)
Fixpoint sumReplicasFrom (total : Z) (machineSets : list MachineSet.t) : option Z :=
  match machineSets with
  | [] => Some total
  | ms :: rest =>
      match MachineSet.replicas ms with
      | None => None
      | Some n => sumReplicasFrom (Int32.add total n) rest
      end
  end.

Definition GetReplicaCountForMachineSets (machineSets : list MachineSet.t) : option Z :=
  sumReplicasFrom 0 machineSets.

(** Modelled from the spec: dutil.GetAvailableReplicaCountForMachineSets is
    not among the sources; "totalAvailable(sets) = Σ
    set.status.availableReplicas", accumulated in an [int32]. *)
Definition GetAvailableReplicaCountForMachineSets (machineSets : list MachineSet.t) : Z :=
  fold_left (fun total ms => Int32.add total (MachineSet.available ms)) machineSets 0.

(** Modelled from the spec: dutil.MachineSetsByCreationTimestamp is not among
    the sources; "ascending creation order", ties broken by name
    ("creation timestamp ascending, then name lexicographic"). *)
Definition Less (a b : MachineSet.t) : bool :=
  if MachineSet.CreationTimestamp a =? MachineSet.CreationTimestamp b
  then String.ltb (MachineSet.Name a) (MachineSet.Name b)
  else MachineSet.CreationTimestamp a <? MachineSet.CreationTimestamp b.

Fixpoint insertByCreation (x : MachineSet.t) (l : list MachineSet.t) : list MachineSet.t :=
  match l with
  | [] => [x]
  | y :: rest => if Less x y then x :: y :: rest else y :: insertByCreation x rest
  end.

(** [sort.Sort(dutil.MachineSetsByCreationTimestamp(oldMSs))].  The source
    sorts the slice in place; the embedding passes the sorted list on.  Sets
    with distinct (timestamp, name) keys have one sorted order, whatever the
    sorting algorithm. *)
Definition sortByCreationTimestamp (l : list MachineSet.t) : list MachineSet.t :=
  fold_right insertByCreation [] l.

(** The order of two neighbours in a list sorted by creation. *)
Definition creationLe (a b : MachineSet.t) : Prop := Less b a = false.

(* ================================================================= *)
(** ** Library functions the validator calls *)

Module strconv.
Definition isDigit (c : ascii) : bool :=
  let n := Z.of_nat (nat_of_ascii c) in (48 <=? n) && (n <=? 57).

Fixpoint digitsValue (acc : Z) (s : string) : option Z :=
  match s with
  | EmptyString => Some acc
  | String c rest =>
      if isDigit c
      then digitsValue (10 * acc + (Z.of_nat (nat_of_ascii c) - 48)) rest
      else None
  end.

(** strconv.Atoi: an optional sign, then one or more decimal digits; the
    value has to fit the 64-bit [int].  [None] is the syntax or range
    error. *)
Definition Atoi (s : string) : option Z :=
  let '(neg, body) :=
    match s with
    | String "-"%char rest => (true, rest)
    | String "+"%char rest => (false, rest)
    | _ => (false, s)
    end in
  match body with
  | EmptyString => None
  | _ =>
      match digitsValue 0 body with
      | None => None
      | Some n =>
          let v := if neg then - n else n in
          if (-9223372036854775808 <=? v) && (v <=? 9223372036854775807)
          then Some v else None
      end
  end.
End strconv.

Module strings.
(** [strings.Replace(s, "%", "", -1)] *)
Fixpoint removePercent (s : string) : string :=
  match s with
  | EmptyString => EmptyString
  | String c rest =>
      if Ascii.eqb c "%"%char then removePercent rest
      else String c (removePercent rest)
  end.
End strings.

Module intstr.
(** intstr.getIntOrPercentValue, the helper of GetValueFromIntOrPercent:
    an integer is a plain value; a string is a percentage, read by
    deleting every percent sign and parsing the rest with Atoi.  (The
    library documents it: all strings, with or without a percent symbol,
    are treated as a percentage value.) *)
Definition getIntOrPercentValue (intOrStr : IntOrString.t) : option (Z * bool) :=
  match intOrStr with
  | IntOrString.FromInt v => Some (v, false)
  | IntOrString.FromString str =>
      match strconv.Atoi (strings.removePercent str) with
      | None => None
      | Some v => Some (v, true)
      end
  end.

(** intstr.GetValueFromIntOrPercent.  The library scales a percentage in
    [float64] ([math.Ceil] or [math.Floor] of [value * total / 100]); the
    embedding scales it exactly, which is what the library computes as
    long as [value * total] is below 2^53. *)
Definition GetValueFromIntOrPercent (intOrPercent : IntOrString.t) (total : Z)
           (roundUp : bool) : Z * option error :=
  match getIntOrPercentValue intOrPercent with
  | None => (0, Some (ErrCollaborator "invalid value for IntOrString"))
  | Some (value, isPercent) =>
      if isPercent
      then if roundUp
           then (- ((- (value * total)) / 100), None)
           else ((value * total) / 100, None)
      else (value, None)
  end.
End intstr.

Module utilvalidation.
(** The text after the first character matches [[0-9]*%$]. *)
Fixpoint digitsThenPercent (s : string) : bool :=
  match s with
  | EmptyString => false
  | String c rest =>
      if strconv.isDigit c then digitsThenPercent rest
      else Ascii.eqb c "%"%char && String.eqb rest EmptyString
  end.

(** utilvalidation.IsValidPercent: the list of complaints about a string
    that does not match [^[0-9]+%$]; empty for a valid percentage. *)
Definition IsValidPercent (percent : string) : list string :=
  match percent with
  | String c rest =>
      if strconv.isDigit c && digitsThenPercent rest then []
      else ["a valid percent string must be a numeric string followed by an ending '%'"%string]
  | EmptyString =>
      ["a valid percent string must be a numeric string followed by an ending '%'"%string]
  end.
End utilvalidation.

(* ================================================================= *)
(** ** The rolling-update validator *)

Module field.
(** A field path, outermost name first. *)
Definition Path : Type := list string.
Definition Child (p : Path) (name : string) : Path := p ++ [name].

(** [field.Invalid(path, value, detail)]; the offending value only feeds
    the message and is not kept. *)
Record Error : Type := Invalid { Field : Path; Detail : string }.
Definition ErrorList : Type := list Error.
End field.

Definition getIntOrPercent (s : IntOrString.t) (roundUp : bool) : Z * option error :=
  intstr.GetValueFromIntOrPercent s 100 roundUp.

Definition ValidatePositiveIntOrPercent (s : IntOrString.t) (fldPath : field.Path)
  : field.ErrorList :=
  let allErrs : field.ErrorList := [] in
  match getIntOrPercent s false with
  | (_, Some _) =>
      allErrs ++ [field.Invalid fldPath "value should be int(5) or percentage(5%)"]
  | (x, None) =>
      if x <? 0
      then allErrs ++ [field.Invalid fldPath "value should not be negative"]
      else allErrs
  end.

Definition ValidateMachineRollingUpdateDeployment
           (rollingUpdate : MachineRollingUpdateDeployment.t) (fldPath : field.Path)
  : field.ErrorList :=
  let allErrs : field.ErrorList := [] in
  let maxUnavailable := 0 in
  let maxSurge := 0 in
  let '(allErrs, maxUnavailable) :=
    match MachineRollingUpdateDeployment.MaxUnavailable rollingUpdate with
    | Some mu =>
        let allErrs :=
          allErrs ++ ValidatePositiveIntOrPercent mu (field.Child fldPath "maxUnavailable") in
        let maxUnavailable := fst (getIntOrPercent mu false) in
        (* Validate that MaxUnavailable is not more than 100%. *)
        if (Nat.eqb (List.length (utilvalidation.IsValidPercent (IntOrString.StrVal mu))) 0)
           && (maxUnavailable >? 100)
        then (allErrs ++ [field.Invalid (field.Child fldPath "maxUnavailable")
                                        "should not be more than 100%"],
              maxUnavailable)
        else (allErrs, maxUnavailable)
    | None => (allErrs, maxUnavailable)
    end in
  let '(allErrs, maxSurge) :=
    match MachineRollingUpdateDeployment.MaxSurge rollingUpdate with
    | Some ms =>
        (allErrs ++ ValidatePositiveIntOrPercent ms (field.Child fldPath "maxSurge"),
         fst (getIntOrPercent ms true))
    | None => (allErrs, maxSurge)
    end in
  match MachineRollingUpdateDeployment.MaxUnavailable rollingUpdate,
        MachineRollingUpdateDeployment.MaxSurge rollingUpdate with
  | Some _, Some _ =>
      if (maxUnavailable =? 0) && (maxSurge =? 0)
      then (* Both MaxSurge and MaxUnavailable cannot be zero. *)
        allErrs ++ [field.Invalid (field.Child fldPath "maxUnavailable")
                                  "may not be 0 when `maxSurge` is 0"]
      else allErrs
  | _, _ => allErrs
  end.

(* ================================================================= *)
(** ** The controller's collaborators *)

(** The helpers of package dutil and the revision selector that rolling.go
    calls and whose code is not among the sources.  The planners are defined,
    and their properties proved, for every implementation of them. *)
Class Collaborators : Type :=
  { (** [map[types.UID]*v1alpha1.MachineList] *)
    MachineMap : Type;
    (** dutil.MaxUnavailable: the resolved unavailability tolerance. *)
    MaxUnavailable : MachineDeployment.t -> Z;
    (** dutil.NewMSNewReplicas: the next count of the new set under the surge
        ceiling. *)
    NewMSNewReplicas :
      MachineDeployment.t -> list MachineSet.t -> MachineSet.t -> Z * option error;
    (** dutil.DeploymentComplete, called with the deployment and a status. *)
    DeploymentComplete : MachineDeployment.t -> MachineDeploymentStatus.t -> bool;
    (** The revision selector: the new set, the old sets, an error. *)
    getAllMachineSetsAndSyncRevision :
      MachineDeployment.t -> list MachineSet.t -> MachineMap -> bool ->
      M (MachineSet.t * list MachineSet.t * option error) }.

(** Modelled from the spec: scaleMachineSet (the set mutator) is not among
    the sources; "scale(set, n, d) writes set.spec.replicas = n if and only
    if n != set.spec.replicas; otherwise it is a no-op.  On conflict with the
    store it returns a retriable error".  It returns whether it scaled, the
    set as the store holds it, and the error; with a refused write the set is
    returned as it was. *)
Definition scaleMachineSet (ms : MachineSet.t) (newScale : Z) (deployment : MachineDeployment.t)
  : M (bool * MachineSet.t * option error) :=
  match MachineSet.replicas ms with
  | None => ret (false, ms, Some (ErrMachineSetReplicasNil (MachineSet.Name ms)))
  | Some current =>
      if current =? newScale then ret (false, ms, None)
      else
        accepted <- request (EvScale ms newScale) ;;
        if accepted
        then ret (true, MachineSet.withReplicas ms newScale, None)
        else ret (false, ms, Some ErrStore)
  end.

(** Modelled from the spec: cleanupDeployment (the cleanup hook) is not among
    the sources; "cleanup(oldSets, deployment) deletes drained old sets
    beyond revisionHistoryLimit".  The embedding records the call and its
    verdict. *)
Definition cleanupDeployment (oldMSs : list MachineSet.t) (deployment : MachineDeployment.t)
  : M (option error) :=
  accepted <- request (EvCleanup oldMSs deployment) ;;
  ret (if accepted then None else Some ErrStore).

(** [machineClient...MachineDeployments(ns).UpdateStatus(md)]: the store
    collaborator of ensureStatus. *)
Definition UpdateStatus (md : MachineDeployment.t) : M (MachineDeployment.t * option error) :=
  accepted <- request (EvStatus md) ;;
  ret (md, if accepted then None else Some ErrStore).

(* ================================================================= *)
(** ** rolling.go *)

Section Controller.
Context {collab : Collaborators}.

Definition reconcileNewMachineSet (allMSs : list MachineSet.t) (newMS : MachineSet.t)
           (deployment : MachineDeployment.t) : M (MachineSet.t * option error) :=
  match MachineDeployment.replicas deployment with
  | None => ret (newMS, Some (ErrDeploymentReplicasNil (MachineDeployment.Name deployment)))
  | Some dReplicas =>
  match MachineSet.replicas newMS with
  | None => ret (newMS, Some (ErrMachineSetReplicasNil (MachineSet.Name newMS)))
  | Some newReplicas =>
      if newReplicas =? dReplicas then
        (* Scaling not required. *)
        ret (newMS, None)
      else if newReplicas >? dReplicas then
        (* Scale down. *)
        '(_, newMS', err) <- scaleMachineSet newMS dReplicas deployment ;;
        ret (newMS', err)
      else
        match NewMSNewReplicas deployment allMSs newMS with
        | (_, Some e) => ret (newMS, Some e)
        | (newReplicasCount, None) =>
            '(_, newMS', err) <- scaleMachineSet newMS newReplicasCount deployment ;;
            ret (newMS', err)
        end
  end
  end.

(** The loop of cleanupUnhealthyReplicas.  [done] holds [oldMSs[0..i)] as
    the loop has left them, [todo] holds [oldMSs[i..)]. *)
Fixpoint cleanupLoop (deployment : MachineDeployment.t) (maxCleanupCount : Z)
         (done todo : list MachineSet.t) (totalScaledDown : Z)
  : M (list MachineSet.t * Z * option error) :=
  match todo with
  | [] => ret (done, totalScaledDown, None)
  | targetMS :: rest =>
      match MachineSet.replicas targetMS with
      | None => ret ([], 0, Some (ErrMachineSetReplicasNil (MachineSet.Name targetMS)))
      | Some oldMSReplicas =>
          if totalScaledDown >=? maxCleanupCount then
            (* break *)
            ret (done ++ todo, totalScaledDown, None)
          else if oldMSReplicas =? 0 then
            (* cannot scale down this machine set. *)
            cleanupLoop deployment maxCleanupCount (done ++ [targetMS]) rest totalScaledDown
          else
            let oldMSAvailableReplicas := MachineSet.available targetMS in
            if oldMSReplicas =? oldMSAvailableReplicas then
              (* no unhealthy replicas found, no scaling required. *)
              cleanupLoop deployment maxCleanupCount (done ++ [targetMS]) rest totalScaledDown
            else
              let remainingCleanupCount := Int32.sub maxCleanupCount totalScaledDown in
              let unhealthyCount := Int32.sub oldMSReplicas oldMSAvailableReplicas in
              let scaledDownCount := Int32Min remainingCleanupCount unhealthyCount in
              let newReplicasCount := Int32.sub oldMSReplicas scaledDownCount in
              if newReplicasCount >? oldMSReplicas then
                ret ([], 0, Some (ErrCleanupInvalidScaleDown
                                    (MachineSet.Namespace targetMS) (MachineSet.Name targetMS)
                                    oldMSReplicas newReplicasCount))
              else
                '(_, updatedOldMS, err) <- scaleMachineSet targetMS newReplicasCount deployment ;;
                match err with
                | Some e => ret ([], totalScaledDown, Some e)
                | None =>
                    cleanupLoop deployment maxCleanupCount (done ++ [updatedOldMS]) rest
                                (Int32.add totalScaledDown scaledDownCount)
                end
      end
  end.

(** cleanupUnhealthyReplicas will scale down old machine sets with
    unhealthy replicas, so that all unhealthy replicas will be deleted. *)
Definition cleanupUnhealthyReplicas (oldMSs : list MachineSet.t)
           (deployment : MachineDeployment.t) (maxCleanupCount : Z)
  : M (list MachineSet.t * Z * option error) :=
  let oldMSs := sortByCreationTimestamp oldMSs in
  cleanupLoop deployment maxCleanupCount [] oldMSs 0.

(** The loop of scaleDownOldMachineSetsForRollingUpdate, with the same
    reading of [done] and [todo]. *)
Fixpoint scaleDownLoop (deployment : MachineDeployment.t) (totalScaleDownCount : Z)
         (done todo : list MachineSet.t) (totalScaledDown : Z)
  : M (Z * list MachineSet.t * option error) :=
  match todo with
  | [] => ret (totalScaledDown, done, None)
  | ms :: rest =>
      match MachineSet.replicas ms with
      | None => ret (0, done ++ todo, Some (ErrMachineSetReplicasNil (MachineSet.Name ms)))
      | Some msReplicas =>
          if totalScaledDown >=? totalScaleDownCount then
            (* No further scaling required. *)
            ret (totalScaledDown, done ++ todo, None)
          else if msReplicas =? 0 then
            (* cannot scale down this MachineSet. *)
            scaleDownLoop deployment totalScaleDownCount (done ++ [ms]) rest totalScaledDown
          else
            (* Scale down. *)
            let scaleDownCount :=
              Int32Min msReplicas (Int32.sub totalScaleDownCount totalScaledDown) in
            let newReplicasCount := Int32.sub msReplicas scaleDownCount in
            if newReplicasCount >? msReplicas then
              ret (totalScaledDown, done ++ todo,
                   Some (ErrInvalidScaleDown (MachineSet.Namespace ms) (MachineSet.Name ms)
                                             msReplicas newReplicasCount))
            else
              '(_, ms', err) <- scaleMachineSet ms newReplicasCount deployment ;;
              match err with
              | Some e => ret (totalScaledDown, done ++ ms' :: rest, Some e)
              | None =>
                  scaleDownLoop deployment totalScaleDownCount (done ++ [ms']) rest
                                (Int32.add totalScaledDown scaleDownCount)
              end
      end
  end.

(** scaleDownOldMachineSetsForRollingUpdate scales down old machine sets
    when deployment strategy is "RollingUpdate".  Need check maxUnavailable
    to ensure availability. *)
Definition scaleDownOldMachineSetsForRollingUpdate (allMSs oldMSs : list MachineSet.t)
           (deployment : MachineDeployment.t) : M (Z * list MachineSet.t * option error) :=
  match MachineDeployment.replicas deployment with
  | None => ret (0, oldMSs, Some (ErrDeploymentReplicasNil (MachineDeployment.Name deployment)))
  | Some dReplicas =>
      let maxUnavailable := MaxUnavailable deployment in
      (* Check if we can scale down. *)
      let minAvailable := Int32.sub dReplicas maxUnavailable in
      (* Find the number of available machines. *)
      let availableMachineCount := GetAvailableReplicaCountForMachineSets allMSs in
      if availableMachineCount <=? minAvailable then
        (* Cannot scale down. *)
        ret (0, oldMSs, None)
      else
        let oldMSs := sortByCreationTimestamp oldMSs in
        let totalScaleDownCount := Int32.sub availableMachineCount minAvailable in
        scaleDownLoop deployment totalScaleDownCount [] oldMSs 0
  end.

Definition reconcileOldMachineSets (allMSs oldMSs : list MachineSet.t) (newMS : MachineSet.t)
           (deployment : MachineDeployment.t) : M (list MachineSet.t * option error) :=
  match MachineDeployment.replicas deployment with
  | None => ret (oldMSs, Some (ErrDeploymentReplicasNil (MachineDeployment.Name deployment)))
  | Some dReplicas =>
  match MachineSet.replicas newMS with
  | None => ret (oldMSs, Some (ErrMachineSetReplicasNil (MachineSet.Name newMS)))
  | Some newReplicas =>
      oldMachinesCount <- deref (GetReplicaCountForMachineSets oldMSs) ;;
      if oldMachinesCount =? 0 then
        (* Can't scale down further *)
        ret (oldMSs, None)
      else
        allMachinesCount <- deref (GetReplicaCountForMachineSets allMSs) ;;
        let maxUnavailable := MaxUnavailable deployment in
        let minAvailable := Int32.sub dReplicas maxUnavailable in
        let newMSUnavailableMachineCount :=
          Int32.sub newReplicas (MachineSet.available newMS) in
        let maxScaledDown :=
          Int32.sub (Int32.sub allMachinesCount minAvailable) newMSUnavailableMachineCount in
        if maxScaledDown <=? 0 then ret (oldMSs, None)
        else
          (* Clean up unhealthy replicas first. *)
          '(oldMSs, cleanupCount, err) <-
            cleanupUnhealthyReplicas oldMSs deployment maxScaledDown ;;
          match err with
          | Some _ => ret (oldMSs, None)
          | None =>
              (* Scale down old machine sets, need check maxUnavailable. *)
              let allMSs := oldMSs ++ [newMS] in
              '(scaledDownCount, oldMSs, err) <-
                scaleDownOldMachineSetsForRollingUpdate allMSs oldMSs deployment ;;
              match err with
              | Some e => ret (oldMSs, Some e)
              | None => ret (oldMSs, None)
              end
          end
  end
  end.

(** status.go *)
Definition ensureStatus (md : MachineDeployment.t) (newMS : MachineSet.t)
           (oldMSs : list MachineSet.t) : M (MachineDeployment.t * option error) :=
  let newStatus :=
    MachineDeploymentStatus.Build (MachineDeployment.Generation md) 0
      (MachineSetStatus.Replicas (MachineSet.Status newMS)) 0 0 0 in
  let allOwnedMS := oldMSs ++ [newMS] in
  let newStatus :=
    fold_left
      (fun (st : MachineDeploymentStatus.t) (ms : MachineSet.t) =>
         MachineDeploymentStatus.Build
           (MachineDeploymentStatus.ObservedGeneration st)
           (Int32.add (MachineDeploymentStatus.Replicas st)
                      (MachineSetStatus.Replicas (MachineSet.Status ms)))
           (MachineDeploymentStatus.UpdatedReplicas st)
           (Int32.add (MachineDeploymentStatus.ReadyReplicas st)
                      (MachineSetStatus.ReadyReplicas (MachineSet.Status ms)))
           (Int32.add (MachineDeploymentStatus.AvailableReplicas st)
                      (MachineSetStatus.AvailableReplicas (MachineSet.Status ms)))
           (MachineDeploymentStatus.UnavailableReplicas st))
      allOwnedMS newStatus in
  dReplicas <- deref (MachineDeployment.replicas md) ;;
  let unavailable :=
    Int32.sub dReplicas (MachineDeploymentStatus.AvailableReplicas newStatus) in
  let unavailable := if unavailable <? 0 then 0 else unavailable in
  let newStatus :=
    MachineDeploymentStatus.Build
      (MachineDeploymentStatus.ObservedGeneration newStatus)
      (MachineDeploymentStatus.Replicas newStatus)
      (MachineDeploymentStatus.UpdatedReplicas newStatus)
      (MachineDeploymentStatus.ReadyReplicas newStatus)
      (MachineDeploymentStatus.AvailableReplicas newStatus)
      unavailable in
  if negb (MachineDeploymentStatus.DeepEqual (MachineDeployment.Status md) newStatus) then
    UpdateStatus (MachineDeployment.withStatus md newStatus)
  else ret (md, None).

(** rolloutRolling implements the logic for rolling a new machine set. *)
Definition rolloutRolling (d : MachineDeployment.t) (msList : list MachineSet.t)
           (machineMap : MachineMap) : M (option error) :=
  '(newMS, oldMSs, err) <- getAllMachineSetsAndSyncRevision d msList machineMap true ;;
  match err with
  | Some e => ret (Some e)
  | None =>
      let allMSs := oldMSs ++ [newMS] in
      (* Scale up, if we can. *)
      '(newMS, err) <- reconcileNewMachineSet allMSs newMS d ;;
      match err with
      | Some e => ret (Some e)
      | None =>
          (* Scale down, if we can. *)
          '(oldMSs, err) <- reconcileOldMachineSets allMSs oldMSs newMS d ;;
          match err with
          | Some e => ret (Some e)
          | None =>
              err <- (if DeploymentComplete d (MachineDeployment.Status d)
                      then cleanupDeployment oldMSs d
                      else ret None) ;;
              match err with
              | Some e => ret (Some e)
              | None =>
                  '(_, err) <- ensureStatus d newMS oldMSs ;;
                  ret err
              end
          end
      end
  end.
End Controller.

(* ================================================================= *)
(** ** The specification's vocabulary *)

(** The desired count of a set, for sums over sets whose count is present. *)
Definition desired (ms : MachineSet.t) : Z :=
  match MachineSet.replicas ms with
  | Some r => r
  | None => 0
  end.

Definition sumZ (l : list Z) : Z := fold_right Z.add 0 l.

(** "totalReplicas(sets) = Σ set.spec.replicas", as a number. *)
Definition totalReplicas (sets : list MachineSet.t) : Z := sumZ (map desired sets).

(** The store refuses nothing. *)
Definition accepting (w : World) : Prop := faults w = [].

(** The world after the store has accepted the requests [evs]. *)
Definition afterRequests (w : World) (evs : list Event) : World :=
  mkWorld (events w ++ evs) [].

(** The accepted writes that turn the sets [before] into the sets [after],
    position by position: one per set whose desired count changed. *)
Fixpoint writesBetween (before after : list MachineSet.t) : list Event :=
  match before, after with
  | b :: before', a :: after' =>
      (if desired b =? desired a then [] else [EvScale b (desired a) true])
        ++ writesBetween before' after'
  | _, _ => []
  end.

(** Phase A in the specification's words: "iterate old sets in ascending
    creation order.  For each old set with spec.replicas >
    status.availableReplicas, reduce its desired count by
    min(budget_remaining, spec.replicas − status.availableReplicas)"; sets
    with no desired replica, or with all of them available, are skipped. *)
Fixpoint cleanupPlan (budgetRemaining : Z) (oldSets : list MachineSet.t)
  : list MachineSet.t :=
  match oldSets with
  | [] => []
  | ms :: rest =>
      match MachineSet.replicas ms with
      | Some r =>
          if (MachineSet.available ms <? r) && (0 <? r) then
            let delta := Z.min budgetRemaining (r - MachineSet.available ms) in
            MachineSet.withReplicas ms (r - delta) :: cleanupPlan (budgetRemaining - delta) rest
          else ms :: cleanupPlan budgetRemaining rest
      | None => ms :: cleanupPlan budgetRemaining rest
      end
  end.

(** Phase B in the specification's words: "iterate old sets in ascending
    creation order.  For each with spec.replicas > 0, let delta =
    min(spec.replicas, quota_remaining); set its desired count to
    spec.replicas − delta; decrement quota_remaining.  Stop when
    exhausted." *)
Fixpoint scaleDownPlan (quotaRemaining : Z) (oldSets : list MachineSet.t)
  : list MachineSet.t :=
  match oldSets with
  | [] => []
  | ms :: rest =>
      if quotaRemaining <=? 0 then oldSets
      else
        match MachineSet.replicas ms with
        | Some r =>
            if 0 <? r then
              let delta := Z.min r quotaRemaining in
              MachineSet.withReplicas ms (r - delta) :: scaleDownPlan (quotaRemaining - delta) rest
            else ms :: scaleDownPlan quotaRemaining rest
        | None => ms :: scaleDownPlan quotaRemaining rest
        end
  end.

(** A desired count as the data model has it: present, an [int32], not
    negative. *)
Definition countWellFormed (ms : MachineSet.t) : Prop :=
  exists r, MachineSet.replicas ms = Some r /\ 0 <= r <= Int32.max_int.

(** A set in one of the cases phase A is specified for: no desired replica,
    all desired replicas available, or more desired than available
    replicas; the counts are [int32]s and so is their difference. *)
Definition cleanupCase (ms : MachineSet.t) : Prop :=
  exists r,
    MachineSet.replicas ms = Some r /\ Int32.in_range r
    /\ (r = 0 \/ r = MachineSet.available ms
        \/ (0 < r /\ MachineSet.available ms < r
            /\ r - MachineSet.available ms <= Int32.max_int)).

(** A write that lowers the desired count of its target. *)
Definition lowers (ev : Event) : Prop :=
  match ev with
  | EvScale target newScale _ =>
      exists r, MachineSet.replicas target = Some r /\ newScale < r
  | _ => False
  end.

(** [x] is the set [ms], possibly with another desired count. *)
Definition rescaled (ms x : MachineSet.t) : Prop :=
  x = ms \/ exists k, x = MachineSet.withReplicas ms k.

(** A write to one of the sets [sets] (as it is, or as an earlier write of
    the tick left it). *)
Definition writesTo (sets : list MachineSet.t) (ev : Event) : Prop :=
  match ev with
  | EvScale target _ _ => exists ms, In ms sets /\ rescaled ms target
  | _ => False
  end.

(** [x] stems from a set of [src] and desires no more replicas than it. *)
Definition shrunk (src : list MachineSet.t) (x : MachineSet.t) : Prop :=
  exists ms, In ms src /\ rescaled ms x /\ desired x <= desired ms.

(** The events [evs] follow [w] in [w'], and all satisfy [P]. *)
Definition extends (P : Event -> Prop) (w w' : World) : Prop :=
  exists evs, events w' = events w ++ evs /\ Forall P evs.

Definition lowering (src : list MachineSet.t) (ev : Event) : Prop :=
  lowers ev /\ writesTo src ev.

(** The requests [evs], sent one after another to a store that holds the
    sets [stored].  Each is a write to a set exactly as the store holds it
    when the write arrives, with a count below the count that set desires
    then; an accepted write leaves the set with the new count, a refused
    one leaves the store as it was.  The store ends up holding [final]. *)
Fixpoint loweringTrace (stored : list MachineSet.t) (evs : list Event)
         (final : list MachineSet.t) : Prop :=
  match evs with
  | [] => final = stored
  | EvScale target newScale accepted :: rest =>
      exists pre post r,
        stored = pre ++ target :: post
        /\ MachineSet.replicas target = Some r
        /\ newScale < r
        /\ loweringTrace
             (if accepted
              then pre ++ MachineSet.withReplicas target newScale :: post
              else stored)
             rest final
  | _ :: _ => False
  end.

(** The desired count of [ms] is present. *)
Definition hasCount (ms : MachineSet.t) : Prop := MachineSet.replicas ms <> None.

(** "totalReplicas(sets)" as the [int32] the code holds. *)
Definition totalReplicas32 (sets : list MachineSet.t) : Z := Int32.wrap (totalReplicas sets).

(** A desired count that, when present, is a non-negative [int32]. *)
Definition countNotNegative (ms : MachineSet.t) : Prop :=
  forall r, MachineSet.replicas ms = Some r -> 0 <= r <= Int32.max_int.

(** The available replicas of [ms] do not exceed its desired count, when
    present; the counts are [int32]s and so is their difference. *)
Definition availableWithinDesired (ms : MachineSet.t) : Prop :=
  forall r, MachineSet.replicas ms = Some r ->
            Int32.in_range r /\ Int32.in_range (MachineSet.available ms)
            /\ MachineSet.available ms <= r
            /\ r - MachineSet.available ms <= Int32.max_int.

(** Step 5 in the specification's words: "updated = newSet.status.replicas;
    replicas, ready, available are sums over all owned sets; unavailable =
    max(0, d.replicas − available); observedGeneration = d.generation", the
    sums and the difference being [int32]s. *)
Definition aggregatedStatus (d : MachineDeployment.t) (dReplicas : Z)
           (newSet : MachineSet.t) (oldSets : list MachineSet.t)
  : MachineDeploymentStatus.t :=
  let owned := oldSets ++ [newSet] in
  let sumOver (f : MachineSetStatus.t -> Z) :=
    Int32.wrap (sumZ (map (fun ms => f (MachineSet.Status ms)) owned)) in
  let available := sumOver MachineSetStatus.AvailableReplicas in
  MachineDeploymentStatus.Build
    (MachineDeployment.Generation d)
    (sumOver MachineSetStatus.Replicas)
    (MachineSetStatus.Replicas (MachineSet.Status newSet))
    (sumOver MachineSetStatus.ReadyReplicas)
    available
    (Z.max 0 (Int32.sub dReplicas available)).


(** The desired count of [ms], when present, is an [int32]. *)
Definition countTyped (ms : MachineSet.t) : Prop :=
  forall r, MachineSet.replicas ms = Some r -> Int32.in_range r.

(** The counts of [ms] are counts: non-negative [int32]s. *)
Definition countsNotNegative (ms : MachineSet.t) : Prop :=
  (forall r, MachineSet.replicas ms = Some r -> 0 <= r <= Int32.max_int)
  /\ 0 <= MachineSet.available ms <= Int32.max_int.

(** What the validator looks at in a rolling-update strategy: a present
    value that cannot be read or is negative, a maxUnavailable that is a
    valid percent string above 100, or both values present and zero. *)
Definition unreadable (s : IntOrString.t) : Prop := snd (getIntOrPercent s false) <> None.

Definition rejectedMaxUnavailable (ru : MachineRollingUpdateDeployment.t) : Prop :=
  exists mu,
    MachineRollingUpdateDeployment.MaxUnavailable ru = Some mu
    /\ (unreadable mu \/ fst (getIntOrPercent mu false) < 0
        \/ (utilvalidation.IsValidPercent (IntOrString.StrVal mu) = []
            /\ 100 < fst (getIntOrPercent mu false))).

Definition rejectedMaxSurge (ru : MachineRollingUpdateDeployment.t) : Prop :=
  exists ms,
    MachineRollingUpdateDeployment.MaxSurge ru = Some ms
    /\ (unreadable ms \/ fst (getIntOrPercent ms false) < 0).

Definition rejectedBothZero (ru : MachineRollingUpdateDeployment.t) : Prop :=
  exists mu ms,
    MachineRollingUpdateDeployment.MaxUnavailable ru = Some mu
    /\ MachineRollingUpdateDeployment.MaxSurge ru = Some ms
    /\ fst (getIntOrPercent mu false) = 0
    /\ fst (getIntOrPercent ms true) = 0.

Definition isInvalidScaleDown (e : option error) : bool :=
  match e with
  | Some (ErrInvalidScaleDown _ _ _ _) => true
  | Some (ErrCleanupInvalidScaleDown _ _ _ _) => true
  | _ => false
  end.

(* ================================================================= *)
(** ** Collaborators for the worked examples *)

(** Modelled from the spec: dutil.MaxUnavailable is not among the sources;
    "resolveUnavailable(d) = roundDown(maxUnavailable, d.replicas)": absolute
    integers pass through, percentages are computed against d.replicas,
    rounding down.  An absent tolerance counts as 0. *)
Definition resolveUnavailable (d : MachineDeployment.t) : Z :=
  match MachineDeploymentSpec.RollingUpdate (MachineDeployment.Spec d),
        MachineDeployment.replicas d with
  | Some ru, Some r =>
      match MachineRollingUpdateDeployment.MaxUnavailable ru with
      | Some mu => fst (intstr.GetValueFromIntOrPercent mu r false)
      | None => 0
      end
  | _, _ => 0
  end.

(** Modelled from the spec: "resolveSurge(d) = roundUp(maxSurge,
    d.replicas)". *)
Definition resolveSurge (d : MachineDeployment.t) : Z :=
  match MachineDeploymentSpec.RollingUpdate (MachineDeployment.Spec d),
        MachineDeployment.replicas d with
  | Some ru, Some r =>
      match MachineRollingUpdateDeployment.MaxSurge ru with
      | Some ms => fst (intstr.GetValueFromIntOrPercent ms r true)
      | None => 0
      end
  | _, _ => 0
  end.

(** Modelled from the spec: dutil.NewMSNewReplicas is not among the sources;
    "headroom = (d.replicas + surge) − totalReplicas(allSets).  The next
    count is min(d.replicas, newSet.spec.replicas + max(0, headroom))". *)
Definition nextNewReplicas (d : MachineDeployment.t) (allMSs : list MachineSet.t)
           (newMS : MachineSet.t) : Z * option error :=
  match MachineDeployment.replicas d with
  | Some r =>
      let headroom := (r + resolveSurge d) - totalReplicas allMSs in
      (Z.min r (desired newMS + Z.max 0 headroom), None)
  | None => (0, Some (ErrDeploymentReplicasNil (MachineDeployment.Name d)))
  end.

(** Modelled from the spec: dutil.DeploymentComplete is not among the
    sources; "updatedReplicas == d.replicas and available == d.replicas and
    observedGeneration ≥ d.generation".  The call passes the deployment and
    a status only; the further conjunct of the specification, "no old set
    has spec.replicas > 0", is about sets the function does not receive. *)
Definition deploymentComplete (d : MachineDeployment.t) (st : MachineDeploymentStatus.t)
  : bool :=
  match MachineDeployment.replicas d with
  | Some r =>
      (MachineDeploymentStatus.UpdatedReplicas st =? r)
      && (MachineDeploymentStatus.AvailableReplicas st =? r)
      && (MachineDeployment.Generation d <=? MachineDeploymentStatus.ObservedGeneration st)
  | None => false
  end.

(** The collaborators of the examples; the revision selector has found the
    new set [newMS] and the old sets [oldMSs]. *)
Definition selecting (newMS : MachineSet.t) (oldMSs : list MachineSet.t) : Collaborators :=
  {| MachineMap := unit;
     MaxUnavailable := resolveUnavailable;
     NewMSNewReplicas := nextNewReplicas;
     DeploymentComplete := deploymentComplete;
     getAllMachineSetsAndSyncRevision := fun _ _ _ _ => ret (newMS, oldMSs, None) |}.

(** A deployment named "web" with the given desired count, tolerances and
    status. *)
Definition exampleDeployment (replicas : Z) (maxUnavailable maxSurge : Z)
           (st : MachineDeploymentStatus.t) : MachineDeployment.t :=
  MachineDeployment.Build "web" "default" 1
    (MachineDeploymentSpec.Build (Some replicas)
       (Some (MachineRollingUpdateDeployment.Build
                (Some (IntOrString.FromInt maxUnavailable))
                (Some (IntOrString.FromInt maxSurge)))))
    st.

(** A machine set created at [created] with the given desired count and
    observed counts. *)
Definition exampleSet (name : string) (created : Z) (replicas : option Z)
           (observed ready available : Z) : MachineSet.t :=
  MachineSet.Build name "default" created (MachineSetSpec.Build replicas)
                   (MachineSetStatus.Build observed ready available).

Definition noStatus : MachineDeploymentStatus.t :=
  MachineDeploymentStatus.Build 0 0 0 0 0 0.

Definition freshWorld : World := mkWorld [] [].

(* ================================================================= *)
(** ** The rest of package mutating: defaulting and the validation of the
       whole spec *)

(** [common.RollingUpdateMachineDeploymentStrategyType] *)
Definition RollingUpdateMachineDeploymentStrategyType : string := "RollingUpdate".

(** [metav1.NamespaceDefault] *)
Definition NamespaceDefault : string := "default".

(** The label-selector library (metav1, metav1validation, labels) that
    ValidateMachineDeploymentSpec calls and whose code is not among the
    sources.  The validator is defined, and its properties proved, for every
    implementation of it. *)
Class SelectorLibrary : Type :=
  { (** [metav1.LabelSelector] *)
    LabelSelector : Type;
    (** [map[string]string], the labels of the template *)
    Labels : Type;
    (** [labels.Selector] *)
    Selector : Type;
    (** [len(s.MatchLabels) + len(s.MatchExpressions)] *)
    selectorTerms : LabelSelector -> nat;
    ValidateLabelSelector : LabelSelector -> field.Path -> field.ErrorList;
    (** [None] is the error of the conversion. *)
    LabelSelectorAsSelector : LabelSelector -> option Selector;
    Matches : Selector -> Labels -> bool }.

Module mutating.

(** v1alpha1.MachineDeploymentStrategy *)
Record MachineDeploymentStrategy : Type := BuildStrategy
  { Type' : string;
    RollingUpdate : option MachineRollingUpdateDeployment.t }.

Section Objects.
Context {lib : SelectorLibrary}.

(** v1alpha1.MachineDeploymentSpec, with the fields package mutating reads
    or writes; of the template, its labels. *)
Record Spec : Type := BuildSpec
  { Replicas : option Z;
    Selector' : LabelSelector;
    TemplateLabels : Labels;
    Strategy : MachineDeploymentStrategy;
    MinReadySeconds : option Z;
    RevisionHistoryLimit : option Z;
    ProgressDeadlineSeconds : option Z }.

(** v1alpha1.MachineDeployment *)
Record Object : Type := BuildObject
  { Name : string;
    Namespace : string;
    ObjectSpec : Spec }.

Definition ValidateMachineDeploymentStrategy (strategy : MachineDeploymentStrategy)
           (fldPath : field.Path) : field.ErrorList :=
  let allErrs : field.ErrorList := [] in
  if String.eqb (Type' strategy) RollingUpdateMachineDeploymentStrategyType then
    match RollingUpdate strategy with
    | Some rollingUpdate =>
        allErrs ++ ValidateMachineRollingUpdateDeployment
                     rollingUpdate (field.Child fldPath "rollingUpdate")
    | None => allErrs
    end
  else
    allErrs ++ [field.Invalid (field.Child fldPath "Type") "is an invalid type"].

(** The result is [None] when the function panics: the error for a missing
    replica count is built from [*spec.Replicas]. *)
Definition ValidateMachineDeploymentSpec (spec : Spec) (fldPath : field.Path)
  : option field.ErrorList :=
  let allErrs : field.ErrorList := [] in
  let allErrs :=
    allErrs ++ ValidateLabelSelector (Selector' spec) (field.Child fldPath "selector") in
  let allErrs :=
    if Nat.eqb (selectorTerms (Selector' spec)) 0
    then allErrs ++ [field.Invalid (field.Child fldPath "selector")
                                   "empty selector is not valid for MachineSet."]
    else allErrs in
  let allErrs :=
    match LabelSelectorAsSelector (Selector' spec) with
    | None =>
        allErrs ++ [field.Invalid (field.Child fldPath "selector") "invalid label selector."]
    | Some selector =>
        if negb (Matches selector (TemplateLabels spec))
        then allErrs ++ [field.Invalid
                           (field.Child (field.Child (field.Child fldPath "template") "metadata")
                                        "labels")
                           "`selector` does not match template `labels`"]
        else allErrs
    end in
  match Replicas spec with
  | None => None
  | Some replicas =>
      let allErrs :=
        if replicas <? 0
        then allErrs ++ [field.Invalid (field.Child fldPath "replicas")
                                       "replicas must be specified and can not be negative"]
        else allErrs in
      Some (allErrs ++ ValidateMachineDeploymentStrategy
                         (Strategy spec) (field.Child fldPath "strategy"))
  end.

(** Validate checks that an instance of MachineDeployment is well formed *)
Definition Validate (md : Object) : option field.ErrorList :=
  let allErrs : field.ErrorList := [] in
  match ValidateMachineDeploymentSpec (ObjectSpec md) ["spec"%string] with
  | None => None
  | Some errs => Some (allErrs ++ errs)
  end.

(** DefaultingFunction sets default MachineDeployment field values.  The
    source writes the fields of the object in place; the embedding returns
    the object written. *)
Definition DefaultingFunction (obj : Object) : Object :=
  let spec := ObjectSpec obj in
  let replicas := match Replicas spec with None => Some 1 | set => set end in
  let minReadySeconds := match MinReadySeconds spec with None => Some 0 | set => set end in
  let revisionHistoryLimit :=
    match RevisionHistoryLimit spec with None => Some 1 | set => set end in
  let progressDeadlineSeconds :=
    match ProgressDeadlineSeconds spec with None => Some 600 | set => set end in
  let strategyType :=
    if String.eqb (Type' (Strategy spec)) EmptyString
    then RollingUpdateMachineDeploymentStrategyType
    else Type' (Strategy spec) in
  (* Default RollingUpdate strategy only if strategy type is RollingUpdate. *)
  let rollingUpdate :=
    if String.eqb strategyType RollingUpdateMachineDeploymentStrategyType then
      let rollingUpdate :=
        match RollingUpdate (Strategy spec) with
        | None => MachineRollingUpdateDeployment.Build None None
        | Some set => set
        end in
      let maxSurge :=
        match MachineRollingUpdateDeployment.MaxSurge rollingUpdate with
        | None => Some (IntOrString.FromInt 1)
        | set => set
        end in
      let maxUnavailable :=
        match MachineRollingUpdateDeployment.MaxUnavailable rollingUpdate with
        | None => Some (IntOrString.FromInt 0)
        | set => set
        end in
      Some (MachineRollingUpdateDeployment.Build maxUnavailable maxSurge)
    else RollingUpdate (Strategy spec) in
  let namespace :=
    if Nat.eqb (String.length (Namespace obj)) 0 then NamespaceDefault else Namespace obj in
  BuildObject (Name obj) namespace
    (BuildSpec replicas (Selector' spec) (TemplateLabels spec)
               (BuildStrategy strategyType rollingUpdate)
               minReadySeconds revisionHistoryLimit progressDeadlineSeconds).

End Objects.
End mutating.

(* ================================================================= *)
(** ** Further vocabulary *)

(** What a call that may scale [ms] once leaves behind: no request, and
    [ms] as it was; or one accepted write of another count to [ms], which is
    returned with that count and no error; or one refused write, [ms] being
    returned as it was with the error of the store. *)
Definition atMostOneScaleOf (ms : MachineSet.t) (evs : list Event)
           (res : MachineSet.t * option error) : Prop :=
  (evs = [] /\ fst res = ms)
  \/ exists n,
       MachineSet.replicas ms <> Some n
       /\ ((evs = [EvScale ms n true] /\ res = (MachineSet.withReplicas ms n, None))
           \/ (evs = [EvScale ms n false] /\ res = (ms, Some ErrStore))).

(** All desired replicas of [ms] are available, or it desires none. *)
Definition healthy (ms : MachineSet.t) : Prop :=
  exists r, MachineSet.replicas ms = Some r /\ (r = 0 \/ r = MachineSet.available ms).

(** [after] is the set [before], untouched or scaled down without going
    below its available replicas. *)
Definition onlyUnhealthyRemoved (before after : MachineSet.t) : Prop :=
  rescaled before after
  /\ (desired after = desired before
      \/ MachineSet.available before <= desired after < desired before).

(** [after] is the set [before], untouched or scaled down to a count that
    is not negative. *)
Definition scaledDown (before after : MachineSet.t) : Prop :=
  rescaled before after
  /\ (desired after = desired before \/ 0 <= desired after < desired before).

(** The set desires no replica (any more). *)
Definition drained (ms : MachineSet.t) : Prop := desired ms <= 0.

(** A strategy type the defaulter turns into, or leaves as, RollingUpdate. *)
Definition rollingAfterDefaulting (strategyType : string) : Prop :=
  strategyType = EmptyString \/ strategyType = RollingUpdateMachineDeploymentStrategyType.

(** The percentage [n] as it is written: its decimal digits and a percent
    sign. *)
Definition percent (n : N) : string :=
  (DecimalString.NilEmpty.string_of_uint (N.to_uint n) ++ "%")%string.

(** The surge tolerance is given and stands for zero. *)
Definition surgeZero (ru : MachineRollingUpdateDeployment.t) : Prop :=
  exists ms,
    MachineRollingUpdateDeployment.MaxSurge ru = Some ms
    /\ fst (getIntOrPercent ms true) = 0.

(** The unavailability tolerance is not given, or stands for zero. *)
Definition unavailableZeroOrUnset (ru : MachineRollingUpdateDeployment.t) : Prop :=
  forall mu,
    MachineRollingUpdateDeployment.MaxUnavailable ru = Some mu ->
    fst (getIntOrPercent mu false) = 0.

(** The rolling-update parameters a strategy gives; none when it has no
    rolling-update block. *)
Definition givenRollingUpdate (strategy : mutating.MachineDeploymentStrategy)
  : MachineRollingUpdateDeployment.t :=
  match mutating.RollingUpdate strategy with
  | None => MachineRollingUpdateDeployment.Build None None
  | Some set => set
  end.

(** The three selector checks of ValidateMachineDeploymentSpec pass: the
    library finds no fault, the selector is not empty, and it converts to a
    selector that matches the labels of the template. *)
Definition selectorAccepted {lib : SelectorLibrary} (spec : mutating.Spec)
           (fldPath : field.Path) : Prop :=
  ValidateLabelSelector (mutating.Selector' spec) (field.Child fldPath "selector") = []
  /\ selectorTerms (mutating.Selector' spec) <> 0%nat
  /\ exists selector,
       LabelSelectorAsSelector (mutating.Selector' spec) = Some selector
       /\ Matches selector (mutating.TemplateLabels spec) = true.

(** A selector library for the worked examples: a selector is a list of
    required labels, labels are a list, and a selector matches when each of
    its labels is among them. *)
Definition listSelectors : SelectorLibrary :=
  {| LabelSelector := list (string * string);
     Labels := list (string * string);
     Selector := list (string * string);
     selectorTerms := fun s => List.length s;
     ValidateLabelSelector := fun _ _ => [];
     LabelSelectorAsSelector := fun s => Some s;
     Matches := fun s labels =>
       forallb (fun kv =>
                  existsb (fun kv' => String.eqb (fst kv) (fst kv')
                                      && String.eqb (snd kv) (snd kv')) labels) s |}.

(** A deployment object as a user may submit it: a name and a selector that
    matches the template, everything else unset. *)
Definition bareObject (replicas : option Z) (strategyType : string)
           (rollingUpdate : option MachineRollingUpdateDeployment.t)
  : mutating.Object (lib := listSelectors) :=
  mutating.BuildObject (lib := listSelectors) "web" EmptyString
    (mutating.BuildSpec (lib := listSelectors) replicas
       [("app", "web")]%string [("app", "web")]%string
       (mutating.BuildStrategy strategyType rollingUpdate)
       None None None).

(* ================================================================= *)
(** * Properties *)

(** ** Wrap-around arithmetic *)

Lemma wrap_in_range (z : Z) : Int32.in_range (Int32.wrap z).
Proof.
  unfold Int32.in_range, Int32.wrap, Int32.min_int, Int32.max_int, Int32.modulus.
  pose proof (Z.mod_pos_bound (z + 2147483648) 4294967296 eq_refl). lia.
Qed.

Lemma wrap_exact (z : Z) : Int32.in_range z -> Int32.wrap z = z.
Proof.
  unfold Int32.in_range, Int32.wrap, Int32.min_int, Int32.max_int, Int32.modulus.
  intros H. rewrite Z.mod_small; lia.
Qed.

Lemma wrap_add_wrap_l (a b : Z) : Int32.wrap (Int32.wrap a + b) = Int32.wrap (a + b).
Proof.
  unfold Int32.wrap, Int32.modulus.
  replace ((a + 2147483648) mod 4294967296 - 2147483648 + b + 2147483648)
    with ((a + 2147483648) mod 4294967296 + b) by lia.
  rewrite Z.add_mod_idemp_l by lia.
  f_equal. f_equal. lia.
Qed.

Lemma Int32Min_min (a b : Z) : Int32Min a b = Z.min a b.
Proof. unfold Int32Min. destruct (Z.ltb_spec b a); lia. Qed.

Lemma fold_add_wrap {A} (f : A -> Z) (l : list A) (a : Z) :
  fold_left (fun total x => Int32.add total (f x)) l (Int32.wrap a)
  = Int32.wrap (a + sumZ (map f l)).
Proof.
  revert a. induction l as [|x l IH]; intros a; simpl.
  - f_equal. lia.
  - unfold Int32.add at 2. rewrite wrap_add_wrap_l, IH. f_equal. lia.
Qed.

(** ** The monad *)

Lemma bind_Some {A B} (c : M A) (k : A -> M B) (w : World) (r : B * World) :
  bind c k w = Some r <-> exists a w1, c w = Some (a, w1) /\ k a w1 = Some r.
Proof.
  unfold bind. destruct (c w) as [[a w1]|].
  - split; [eauto | intros (a' & w1' & E & H); congruence].
  - split; [discriminate | intros (a' & w1' & E & H); discriminate].
Qed.

Lemma request_accepting (ev : bool -> Event) (w : World) :
  accepting w -> request ev w = Some (true, afterRequests w [ev true]).
Proof. unfold accepting, request. intros ->. reflexivity. Qed.

Lemma request_events (ev : bool -> Event) (w : World) :
  exists accepted w',
    request ev w = Some (accepted, w') /\ events w' = events w ++ [ev accepted].
Proof.
  unfold request. destruct (faults w) as [|refused rest]; eauto.
Qed.

(** ** Sorting by creation *)

Lemma insertByCreation_perm (x : MachineSet.t) (l : list MachineSet.t) :
  Permutation (x :: l) (insertByCreation x l).
Proof.
  induction l as [|y l IH]; simpl; [reflexivity|].
  destruct (Less x y); [reflexivity|].
  rewrite perm_swap. now apply perm_skip.
Qed.

Lemma sortByCreationTimestamp_perm (l : list MachineSet.t) :
  Permutation l (sortByCreationTimestamp l).
Proof.
  induction l as [|x l IH]; simpl; [reflexivity|].
  rewrite <- insertByCreation_perm. now apply perm_skip.
Qed.

Lemma Less_asym (a b : MachineSet.t) : Less a b = true -> Less b a = false.
Proof.
  unfold Less. rewrite (Z.eqb_sym (MachineSet.CreationTimestamp b)).
  destruct (Z.eqb_spec (MachineSet.CreationTimestamp a) (MachineSet.CreationTimestamp b)).
  - unfold String.ltb. rewrite (String.compare_antisym (MachineSet.Name a)).
    destruct (String.compare (MachineSet.Name b) (MachineSet.Name a)); simpl; congruence.
  - intros H. apply Z.ltb_lt in H. apply Z.ltb_ge. lia.
Qed.

Lemma insertByCreation_sorted (x : MachineSet.t) (l : list MachineSet.t) :
  Sorted creationLe l -> Sorted creationLe (insertByCreation x l).
Proof.
  induction 1 as [|y l Hs IH Hhd]; simpl.
  - repeat constructor.
  - destruct (Less x y) eqn:E.
    + constructor; [now constructor|]. constructor. now apply Less_asym.
    + constructor; [exact IH|].
      destruct l as [|z l]; simpl.
      * constructor. exact E.
      * destruct (Less x z); constructor; [exact E|now inversion Hhd].
Qed.

Lemma sortByCreationTimestamp_sorted (l : list MachineSet.t) :
  Sorted creationLe (sortByCreationTimestamp l).
Proof.
  induction l as [|x l IH]; simpl; [constructor|].
  now apply insertByCreation_sorted.
Qed.

(** ** The set mutator *)

Lemma desired_withReplicas (ms : MachineSet.t) (n : Z) :
  desired (MachineSet.withReplicas ms n) = n.
Proof. reflexivity. Qed.

Lemma desired_Some (ms : MachineSet.t) (r : Z) :
  MachineSet.replicas ms = Some r -> desired ms = r.
Proof. unfold desired. now intros ->. Qed.

Lemma withReplicas_same (ms : MachineSet.t) (r : Z) :
  MachineSet.replicas ms = Some r -> MachineSet.withReplicas ms r = ms.
Proof.
  destruct ms as [name ns ts [rep] st]. unfold MachineSet.replicas; simpl.
  now intros ->.
Qed.

Lemma rescaled_refl (ms : MachineSet.t) : rescaled ms ms.
Proof. now left. Qed.

Lemma rescaled_trans (a b c : MachineSet.t) : rescaled a b -> rescaled b c -> rescaled a c.
Proof.
  intros [->|[k ->]] [->|[k' ->]]; unfold rescaled; eauto.
  right. now exists k'.
Qed.

Lemma writesTo_incl (s s' : list MachineSet.t) (ev : Event) :
  incl s s' -> writesTo s ev -> writesTo s' ev.
Proof.
  intros Hi. destruct ev; simpl; auto.
  intros (ms & Hin & Hr). exists ms. auto.
Qed.

(** A scale request for a count no higher than the current one sends at most
    one write, which lowers the count of [ms]; the set it returns is [ms]
    with a count no higher than before. *)
Lemma scaleMachineSet_log (ms : MachineSet.t) (n r : Z) (d : MachineDeployment.t) (w : World) :
  MachineSet.replicas ms = Some r -> n <= r ->
  exists scaled ms' err w' evs,
    scaleMachineSet ms n d w = Some ((scaled, ms', err), w')
    /\ events w' = events w ++ evs
    /\ Forall (fun ev => lowers ev /\ writesTo [ms] ev) evs
    /\ rescaled ms ms' /\ desired ms' <= desired ms.
Proof.
  intros Hr Hle. unfold scaleMachineSet. rewrite Hr.
  destruct (Z.eqb_spec r n) as [->|Hne].
  - exists false, ms, None, w, []. rewrite app_nil_r.
    repeat split; auto using rescaled_refl; lia.
  - destruct (request_events (EvScale ms n) w) as (acc & w' & Hreq & Hev).
    unfold bind. rewrite Hreq.
    assert (Hlow : Forall (fun ev => lowers ev /\ writesTo [ms] ev) [EvScale ms n acc]).
    { constructor; [|constructor]. split; simpl.
      - exists r. split; [assumption|lia].
      - exists ms. split; [now left|apply rescaled_refl]. }
    destruct acc; simpl.
    + exists true, (MachineSet.withReplicas ms n), None, w', [EvScale ms n true].
      repeat split; auto.
      * right. now exists n.
      * rewrite desired_withReplicas, (desired_Some ms r Hr). lia.
    + exists false, ms, (Some ErrStore), w', [EvScale ms n false].
      repeat split; auto using rescaled_refl; lia.
Qed.

(** With an accepting store, a scale request for another count is one
    accepted write. *)
Lemma scaleMachineSet_accepting (ms : MachineSet.t) (n r : Z) (d : MachineDeployment.t)
      (w : World) :
  MachineSet.replicas ms = Some r -> n <> r -> accepting w ->
  scaleMachineSet ms n d w
  = Some ((true, MachineSet.withReplicas ms n, None), afterRequests w [EvScale ms n true]).
Proof.
  intros Hr Hne Hacc. unfold scaleMachineSet. rewrite Hr.
  destruct (Z.eqb_spec r n) as [->|_]; [congruence|].
  unfold bind. rewrite (request_accepting _ _ Hacc). reflexivity.
Qed.

(** ** What every run of the two loops writes *)

Lemma shrunk_self (src : list MachineSet.t) (x : MachineSet.t) : In x src -> shrunk src x.
Proof. intros H. exists x. repeat split; auto using rescaled_refl; lia. Qed.

Lemma shrunk_incl (s s' : list MachineSet.t) (x : MachineSet.t) :
  incl s s' -> shrunk s x -> shrunk s' x.
Proof. intros Hi (ms & Hin & H). exists ms. auto. Qed.

Lemma extends_refl (P : Event -> Prop) (w : World) : extends P w w.
Proof. exists []. now rewrite app_nil_r. Qed.

Lemma extends_trans (P : Event -> Prop) (w1 w2 w3 : World) :
  extends P w1 w2 -> extends P w2 w3 -> extends P w1 w3.
Proof.
  intros (e1 & H1 & F1) (e2 & H2 & F2). exists (e1 ++ e2).
  rewrite H2, H1, app_assoc. split; [reflexivity|]. apply Forall_app; auto.
Qed.

Lemma extends_weaken (P Q : Event -> Prop) (w w' : World) :
  (forall ev, P ev -> Q ev) -> extends P w w' -> extends Q w w'.
Proof.
  intros HPQ (evs & H & F). exists evs. split; [assumption|].
  eapply Forall_impl; eauto.
Qed.

Lemma lowering_incl (s s' : list MachineSet.t) (ev : Event) :
  incl s s' -> lowering s ev -> lowering s' ev.
Proof. intros Hi [H1 H2]. split; eauto using writesTo_incl. Qed.

Lemma Forall_pass (done todo : list MachineSet.t) :
  Forall (fun x => In x done \/ shrunk todo x) (done ++ todo).
Proof.
  apply Forall_forall. intros x Hx. apply in_app_or in Hx.
  destruct Hx; [now left|right; now apply shrunk_self].
Qed.

Lemma Forall_step (done rest l : list MachineSet.t) (ms ms' : MachineSet.t) :
  rescaled ms ms' -> desired ms' <= desired ms ->
  Forall (fun x => In x (done ++ [ms']) \/ shrunk rest x) l ->
  Forall (fun x => In x done \/ shrunk (ms :: rest) x) l.
Proof.
  intros Hr Hd. apply Forall_impl. intros x [Hx|Hx].
  - apply in_app_or in Hx. destruct Hx as [Hx|[<-|[]]]; [now left|].
    right. exists ms. repeat split; auto. now left.
  - right. eapply shrunk_incl; [|exact Hx]. apply incl_tl, incl_refl.
Qed.

Section Writes.
Context {collab : Collaborators}.

(** Every run of the cleanup loop returns; what it sends to the store are
    writes that lower the count of a set of [todo], and the sets it
    returns stem from [done] and [todo], none with a higher count. *)
Lemma cleanupLoop_log (d : MachineDeployment.t) (maxCleanupCount : Z)
      (todo done : list MachineSet.t) (total : Z) (w : World) :
  exists res w',
    cleanupLoop d maxCleanupCount done todo total w = Some (res, w')
    /\ extends (lowering todo) w w'
    /\ Forall (fun x => In x done \/ shrunk todo x) (fst (fst res)).
Proof.
  revert done total w.
  induction todo as [|ms rest IH]; intros done total w; simpl.
  - eexists _, w. split; [reflexivity|]. split; [apply extends_refl|]. simpl.
    apply Forall_forall. auto.
  - destruct (MachineSet.replicas ms) as [r|] eqn:Hr.
    2:{ eexists _, w. split; [reflexivity|]. split; [apply extends_refl|]. constructor. }
    destruct (total >=? maxCleanupCount).
    { eexists _, w. split; [reflexivity|]. split; [apply extends_refl|].
      apply Forall_pass. }
    assert (Hskip :
      exists res w',
        cleanupLoop d maxCleanupCount (done ++ [ms]) rest total w = Some (res, w')
        /\ extends (lowering (ms :: rest)) w w'
        /\ Forall (fun x => In x done \/ shrunk (ms :: rest) x) (fst (fst res))).
    { destruct (IH (done ++ [ms]) total w) as (res & w' & E & Hext & Hall).
      exists res, w'. split; [exact E|]. split.
      - eapply extends_weaken; [|exact Hext].
        intros ev. apply lowering_incl, incl_tl, incl_refl.
      - eapply Forall_step; [apply rescaled_refl| |exact Hall]. lia. }
    destruct (r =? 0); [exact Hskip|].
    destruct (r =? MachineSet.available ms); [exact Hskip|].
    clear Hskip.
    set (new := Int32.sub r _).
    destruct (Z.gtb_spec new r) as [Hgt|Hle].
    { eexists _, w. split; [reflexivity|]. split; [apply extends_refl|]. constructor. }
    destruct (scaleMachineSet_log ms new r d w Hr Hle)
      as (scaled & ms' & err & w1 & evs & E & Hev & Hlow & Hresc & Hdes).
    unfold bind at 1. rewrite E.
    assert (Hext1 : extends (lowering (ms :: rest)) w w1).
    { exists evs. split; [exact Hev|]. eapply Forall_impl; [|exact Hlow].
      intros ev [H1 H2]. split; [exact H1|].
      eapply writesTo_incl; [|exact H2]. intros x [<-|[]]. now left. }
    destruct err as [e|].
    { eexists _, w1. split; [reflexivity|]. split; [exact Hext1|]. constructor. }
    destruct (IH (done ++ [ms']) (Int32.add total (Int32Min (Int32.sub maxCleanupCount total)
                                                    (Int32.sub r (MachineSet.available ms)))) w1)
      as (res & w' & E' & Hext & Hall).
    exists res, w'. split; [exact E'|]. split.
    + eapply extends_trans; [exact Hext1|].
      eapply extends_weaken; [|exact Hext].
      intros ev. apply lowering_incl, incl_tl, incl_refl.
    + eapply Forall_step; eauto.
Qed.

(** The same for the loop of the availability-gated scale-down, which also
    returns its sets when it fails. *)
Lemma scaleDownLoop_log (d : MachineDeployment.t) (totalScaleDownCount : Z)
      (todo done : list MachineSet.t) (total : Z) (w : World) :
  exists res w',
    scaleDownLoop d totalScaleDownCount done todo total w = Some (res, w')
    /\ extends (lowering todo) w w'
    /\ Forall (fun x => In x done \/ shrunk todo x) (snd (fst res)).
Proof.
  revert done total w.
  induction todo as [|ms rest IH]; intros done total w; simpl.
  - eexists _, w. split; [reflexivity|]. split; [apply extends_refl|]. simpl.
    apply Forall_forall. auto.
  - destruct (MachineSet.replicas ms) as [r|] eqn:Hr.
    2:{ eexists _, w. split; [reflexivity|]. split; [apply extends_refl|].
        apply (Forall_pass done (ms :: rest)). }
    destruct (total >=? totalScaleDownCount).
    { eexists _, w. split; [reflexivity|]. split; [apply extends_refl|].
      apply Forall_pass. }
    destruct (r =? 0).
    { destruct (IH (done ++ [ms]) total w) as (res & w' & E & Hext & Hall).
      exists res, w'. split; [exact E|]. split.
      - eapply extends_weaken; [|exact Hext].
        intros ev. apply lowering_incl, incl_tl, incl_refl.
      - eapply Forall_step; [apply rescaled_refl| |exact Hall]. lia. }
    set (new := Int32.sub r _).
    destruct (Z.gtb_spec new r) as [Hgt|Hle].
    { eexists _, w. split; [reflexivity|]. split; [apply extends_refl|].
      apply (Forall_pass done (ms :: rest)). }
    destruct (scaleMachineSet_log ms new r d w Hr Hle)
      as (scaled & ms' & err & w1 & evs & E & Hev & Hlow & Hresc & Hdes).
    unfold bind at 1. rewrite E.
    assert (Hext1 : extends (lowering (ms :: rest)) w w1).
    { exists evs. split; [exact Hev|]. eapply Forall_impl; [|exact Hlow].
      intros ev [H1 H2]. split; [exact H1|].
      eapply writesTo_incl; [|exact H2]. intros x [<-|[]]. now left. }
    destruct err as [e|].
    { eexists _, w1. split; [reflexivity|]. split; [exact Hext1|]. simpl.
      eapply Forall_step; [exact Hresc|exact Hdes|].
      replace (done ++ ms' :: rest) with ((done ++ [ms']) ++ rest)
        by (now rewrite <- app_assoc).
      apply Forall_pass. }
    destruct (IH (done ++ [ms']) (Int32.add total (Int32Min r
                                    (Int32.sub totalScaleDownCount total))) w1)
      as (res & w' & E' & Hext & Hall).
    exists res, w'. split; [exact E'|]. split.
    + eapply extends_trans; [exact Hext1|].
      eapply extends_weaken; [|exact Hext].
      intros ev. apply lowering_incl, incl_tl, incl_refl.
    + eapply Forall_step; eauto.
Qed.
End Writes.

(** ** Sums of desired counts *)

Lemma sumReplicasFrom_wrap (l : list MachineSet.t) (a : Z) :
  Forall hasCount l ->
  sumReplicasFrom (Int32.wrap a) l = Some (Int32.wrap (a + totalReplicas l)).
Proof.
  intros H. revert a. induction H as [|ms l Hms _ IH]; intros a; simpl.
  - do 2 f_equal. unfold totalReplicas. simpl. lia.
  - unfold hasCount in Hms. unfold totalReplicas. simpl. unfold desired at 1.
    destruct (MachineSet.replicas ms) as [n|]; [|congruence].
    unfold Int32.add. rewrite wrap_add_wrap_l, IH. do 2 f_equal.
    unfold totalReplicas. lia.
Qed.

Lemma GetReplicaCount_total (l : list MachineSet.t) :
  Forall hasCount l -> GetReplicaCountForMachineSets l = Some (totalReplicas32 l).
Proof.
  intros H. unfold GetReplicaCountForMachineSets, totalReplicas32.
  change 0 with (Int32.wrap 0) at 1. now rewrite sumReplicasFrom_wrap.
Qed.

Lemma GetAvailableReplicaCount_total (l : list MachineSet.t) :
  GetAvailableReplicaCountForMachineSets l
  = Int32.wrap (sumZ (map MachineSet.available l)).
Proof.
  unfold GetAvailableReplicaCountForMachineSets.
  change 0 with (Int32.wrap 0) at 1. now rewrite fold_add_wrap.
Qed.

Lemma totalReplicas_cons (ms : MachineSet.t) (l : list MachineSet.t) :
  totalReplicas (ms :: l) = desired ms + totalReplicas l.
Proof. reflexivity. Qed.

Lemma writesBetween_same (l : list MachineSet.t) : writesBetween l l = [].
Proof.
  induction l as [|ms l IH]; simpl; [reflexivity|].
  now rewrite Z.eqb_refl, IH.
Qed.

Lemma afterRequests_nil (w : World) : accepting w -> afterRequests w [] = w.
Proof.
  destruct w as [evs fs]. unfold accepting, afterRequests; simpl.
  intros ->. now rewrite app_nil_r.
Qed.

Lemma afterRequests_app (w : World) (a b : list Event) :
  afterRequests (afterRequests w a) b = afterRequests w (a ++ b).
Proof. unfold afterRequests; simpl. now rewrite app_assoc. Qed.

Lemma afterRequests_accepting (w : World) (a : list Event) : accepting (afterRequests w a).
Proof. reflexivity. Qed.

Lemma scaleMachineSet_error (ms : MachineSet.t) (n : Z) (d : MachineDeployment.t)
      (w w' : World) (res : bool * MachineSet.t * option error) :
  scaleMachineSet ms n d w = Some (res, w') -> isInvalidScaleDown (snd res) = false.
Proof.
  unfold scaleMachineSet.
  destruct (MachineSet.replicas ms) as [r|]; [|intros [= <- _]; reflexivity].
  destruct (r =? n); [intros [= <- _]; reflexivity|].
  intros H. apply bind_Some in H. destruct H as (acc & w1 & _ & H).
  destruct acc; injection H as <- _; reflexivity.
Qed.

(** ** When the guards against an invalid scale-down cannot fire *)

Ltac int32_range :=
  unfold Int32.in_range, Int32.min_int, Int32.max_int in *; lia.

Section Guards.
Context {collab : Collaborators}.

Lemma scaleDownLoop_valid (d : MachineDeployment.t) (quota : Z)
      (todo done : list MachineSet.t) (total : Z) (w w' : World)
      (res : Z * list MachineSet.t * option error) :
  Int32.in_range quota -> Forall countNotNegative todo -> 0 <= total ->
  scaleDownLoop d quota done todo total w = Some (res, w') ->
  isInvalidScaleDown (snd res) = false.
Proof.
  intros Hq Hall. revert done total w.
  induction Hall as [|ms rest Hms _ IH]; intros done total w Ht; simpl.
  - intros [= <- _]. reflexivity.
  - destruct (MachineSet.replicas ms) as [r|] eqn:Hr; [|intros [= <- _]; reflexivity].
    specialize (Hms r Hr).
    destruct (Z.geb_spec total quota) as [_|Hlt]; [intros [= <- _]; reflexivity|].
    destruct (Z.eqb_spec r 0) as [_|Hr0]; [now apply IH|].
    assert (E1 : Int32.sub quota total = quota - total)
      by (unfold Int32.sub; apply wrap_exact; int32_range).
    rewrite E1, Int32Min_min.
    assert (E2 : Int32.sub r (Z.min r (quota - total)) = r - Z.min r (quota - total))
      by (unfold Int32.sub; apply wrap_exact; int32_range).
    rewrite E2.
    destruct (Z.gtb_spec (r - Z.min r (quota - total)) r) as [Hgt|_]; [lia|].
    intros H. apply bind_Some in H. destruct H as ([[scaled ms'] err] & w1 & Hs & H).
    destruct err as [e|].
    + injection H as <- _. apply scaleMachineSet_error in Hs. exact Hs.
    + revert H. apply IH.
      unfold Int32.add. rewrite wrap_exact by int32_range. lia.
Qed.

Lemma cleanupLoop_valid (d : MachineDeployment.t) (maxCleanupCount : Z)
      (todo done : list MachineSet.t) (total : Z) (w w' : World)
      (res : list MachineSet.t * Z * option error) :
  Int32.in_range maxCleanupCount -> Forall availableWithinDesired todo -> 0 <= total ->
  cleanupLoop d maxCleanupCount done todo total w = Some (res, w') ->
  isInvalidScaleDown (snd res) = false.
Proof.
  intros Hq Hall. revert done total w.
  induction Hall as [|ms rest Hms _ IH]; intros done total w Ht; simpl.
  - intros [= <- _]. reflexivity.
  - destruct (MachineSet.replicas ms) as [r|] eqn:Hr; [|intros [= <- _]; reflexivity].
    destruct (Hms r Hr) as (Hrr & Hra & Hle & Hdiff).
    destruct (Z.geb_spec total maxCleanupCount) as [_|Hlt]; [intros [= <- _]; reflexivity|].
    destruct (Z.eqb_spec r 0) as [_|Hr0]; [now apply IH|].
    destruct (Z.eqb_spec r (MachineSet.available ms)) as [_|Hne]; [now apply IH|].
    assert (E1 : Int32.sub maxCleanupCount total = maxCleanupCount - total)
      by (unfold Int32.sub; apply wrap_exact; int32_range).
    assert (E2 : Int32.sub r (MachineSet.available ms) = r - MachineSet.available ms)
      by (unfold Int32.sub; apply wrap_exact; int32_range).
    rewrite E1, E2, Int32Min_min.
    assert (E3 : Int32.sub r (Z.min (maxCleanupCount - total) (r - MachineSet.available ms))
                 = r - Z.min (maxCleanupCount - total) (r - MachineSet.available ms))
      by (unfold Int32.sub; apply wrap_exact; int32_range).
    rewrite E3.
    destruct (Z.gtb_spec (r - Z.min (maxCleanupCount - total) (r - MachineSet.available ms)) r)
      as [Hgt|_]; [lia|].
    intros H. apply bind_Some in H. destruct H as ([[scaled ms'] err] & w1 & Hs & H).
    destruct err as [e|].
    + injection H as <- _. apply scaleMachineSet_error in Hs. exact Hs.
    + revert H. apply IH.
      unfold Int32.add. rewrite wrap_exact by int32_range. lia.
Qed.
End Guards.

(** ** The loops against the plans of the specification *)

Lemma cleanupPlan_exhausted (l : list MachineSet.t) : cleanupPlan 0 l = l.
Proof.
  induction l as [|ms l IH]; simpl; [reflexivity|].
  destruct (MachineSet.replicas ms) as [r|] eqn:Hr; [|now rewrite IH].
  destruct ((MachineSet.available ms <? r) && (0 <? r)) eqn:E; [|now rewrite IH].
  apply andb_prop in E. destruct E as [E1 E2].
  apply Z.ltb_lt in E1. apply Z.ltb_lt in E2.
  rewrite Z.min_l by lia.
  rewrite Z.sub_0_r. change (- 0) with 0.
  now rewrite IH, (withReplicas_same ms r Hr).
Qed.

(** Two results that differ in the way the count is written only. *)
Ltac same_result :=
  unfold ret;
  match goal with
  | |- Some (?a, ?l, ?e, ?w) = Some (?b, ?l, ?e, ?w) =>
      replace b with a by lia; reflexivity
  | |- Some (?l, ?a, ?e, ?w) = Some (?l, ?b, ?e, ?w) =>
      replace b with a by lia; reflexivity
  end.

Section Plans.
Context {collab : Collaborators}.

Lemma scaleDownLoop_plan (d : MachineDeployment.t) (quota : Z)
      (todo done : list MachineSet.t) (total : Z) (w : World) :
  Int32.in_range quota -> Forall countWellFormed todo -> 0 <= total -> accepting w ->
  let plan := scaleDownPlan (quota - total) todo in
  scaleDownLoop d quota done todo total w
  = Some ((total + (totalReplicas todo - totalReplicas plan), done ++ plan, None),
          afterRequests w (writesBetween todo plan)).
Proof.
  intros Hq Hall. revert done total w.
  induction Hall as [|ms rest (r & Hr & Hr0) _ IH]; intros done total w Ht Hw; simpl.
  - rewrite app_nil_r, afterRequests_nil by assumption.
    same_result.
  - rewrite Hr.
    destruct (Z.geb_spec total quota) as [Hge|Hlt].
    { destruct (Z.leb_spec (quota - total) 0) as [_|?]; [|lia].
      rewrite Z.eqb_refl, writesBetween_same. simpl.
      rewrite afterRequests_nil by assumption.
      same_result. }
    destruct (Z.leb_spec (quota - total) 0) as [?|_]; [lia|].
    destruct (Z.eqb_spec r 0) as [->|Hne].
    { simpl. rewrite (IH (done ++ [ms]) total w Ht Hw), <- app_assoc. simpl.
      rewrite Z.eqb_refl, !totalReplicas_cons. simpl.
      same_result. }
    destruct (Z.ltb_spec 0 r) as [Hpos|?]; [|lia].
    assert (E1 : Int32.sub quota total = quota - total)
      by (unfold Int32.sub; apply wrap_exact; int32_range).
    rewrite E1, Int32Min_min.
    set (delta := Z.min r (quota - total)).
    assert (Hdelta : 0 < delta <= r /\ delta <= quota - total) by (unfold delta; lia).
    assert (E2 : Int32.sub r delta = r - delta)
      by (unfold Int32.sub; apply wrap_exact; int32_range).
    rewrite E2.
    destruct (Z.gtb_spec (r - delta) r) as [?|_]; [lia|].
    unfold bind at 1.
    rewrite (scaleMachineSet_accepting ms (r - delta) r d w Hr) by (assumption || lia).
    assert (E3 : Int32.add total delta = total + delta)
      by (unfold Int32.add; apply wrap_exact; int32_range).
    rewrite E3, IH by (lia || apply afterRequests_accepting).
    rewrite <- app_assoc, afterRequests_app. simpl.
    replace (quota - (total + delta)) with (quota - total - delta) by lia.
    rewrite !totalReplicas_cons, desired_withReplicas, (desired_Some ms r Hr).
    destruct (Z.eqb_spec r (r - delta)) as [?|_]; [lia|].
    simpl. same_result.
Qed.

Lemma cleanupLoop_plan (d : MachineDeployment.t) (maxCleanupCount : Z)
      (todo done : list MachineSet.t) (total : Z) (w : World) :
  Int32.in_range maxCleanupCount -> Forall cleanupCase todo ->
  0 <= total <= maxCleanupCount -> accepting w ->
  let plan := cleanupPlan (maxCleanupCount - total) todo in
  cleanupLoop d maxCleanupCount done todo total w
  = Some ((done ++ plan, total + (totalReplicas todo - totalReplicas plan), None),
          afterRequests w (writesBetween todo plan)).
Proof.
  intros Hq Hall. revert done total w.
  induction Hall as [|ms rest Hms Hrest IH]; intros done total w Ht Hw.
  - simpl. rewrite app_nil_r, afterRequests_nil by assumption.
    same_result.
  - destruct (Z.geb_spec total maxCleanupCount) as [Hge|Hlt].
    { assert (total = maxCleanupCount) as -> by lia.
      replace (maxCleanupCount - maxCleanupCount) with 0 by lia.
      cbv zeta. rewrite cleanupPlan_exhausted.
      rewrite writesBetween_same, afterRequests_nil by assumption.
      destruct Hms as (r & Hr & _). simpl. rewrite Hr.
      destruct (Z.geb_spec maxCleanupCount maxCleanupCount) as [_|?]; [|lia].
      same_result. }
    destruct Hms as (r & Hr & Hrr & Hcase). simpl. rewrite Hr.
    destruct (Z.geb_spec total maxCleanupCount) as [?|_]; [lia|].
    assert (Hskip :
      (MachineSet.available ms <? r) && (0 <? r) = false ->
      cleanupLoop d maxCleanupCount (done ++ [ms]) rest total w
      = Some ((done ++ ms :: cleanupPlan (maxCleanupCount - total) rest,
               total + (totalReplicas (ms :: rest)
                        - totalReplicas (ms :: cleanupPlan (maxCleanupCount - total) rest)),
               None),
              afterRequests w
                ((if desired ms =? desired ms then [] else [EvScale ms (desired ms) true])
                   ++ writesBetween rest (cleanupPlan (maxCleanupCount - total) rest)))).
    { intros _. rewrite (IH (done ++ [ms]) total w Ht Hw), <- app_assoc. simpl.
      rewrite Z.eqb_refl, !totalReplicas_cons. simpl. same_result. }
    destruct (Z.eqb_spec r 0) as [->|Hne0].
    { rewrite andb_false_r in *. now apply Hskip. }
    destruct (Z.eqb_spec r (MachineSet.available ms)) as [Heq|Hnea].
    { rewrite <- Heq, Z.ltb_irrefl in *. simpl in *. now apply Hskip. }
    clear Hskip.
    destruct Hcase as [?|[?|(Hpos & Hav & Hdiff)]]; [lia|lia|].
    destruct (Z.ltb_spec (MachineSet.available ms) r) as [_|?]; [|lia].
    destruct (Z.ltb_spec 0 r) as [_|?]; [|lia]. simpl.
    assert (E1 : Int32.sub maxCleanupCount total = maxCleanupCount - total)
      by (unfold Int32.sub; apply wrap_exact; int32_range).
    assert (E2 : Int32.sub r (MachineSet.available ms) = r - MachineSet.available ms)
      by (unfold Int32.sub; apply wrap_exact; int32_range).
    rewrite E1, E2, Int32Min_min.
    set (delta := Z.min (maxCleanupCount - total) (r - MachineSet.available ms)).
    assert (Hdelta : 0 < delta <= maxCleanupCount - total /\ delta <= r - MachineSet.available ms)
      by (unfold delta; lia).
    assert (E3 : Int32.sub r delta = r - delta)
      by (unfold Int32.sub; apply wrap_exact; int32_range).
    rewrite E3.
    destruct (Z.gtb_spec (r - delta) r) as [?|_]; [lia|].
    unfold bind at 1.
    rewrite (scaleMachineSet_accepting ms (r - delta) r d w Hr) by (assumption || lia).
    assert (E4 : Int32.add total delta = total + delta)
      by (unfold Int32.add; apply wrap_exact; int32_range).
    rewrite E4, IH by (lia || apply afterRequests_accepting).
    rewrite <- app_assoc, afterRequests_app. simpl.
    replace (maxCleanupCount - (total + delta)) with (maxCleanupCount - total - delta) by lia.
    rewrite !totalReplicas_cons, desired_withReplicas, (desired_Some ms r Hr).
    destruct (Z.eqb_spec r (r - delta)) as [?|_]; [lia|].
    simpl. same_result.
Qed.
End Plans.

(** ** The runs of the loops that return no error *)

Lemma scaleMachineSet_success (ms ms' : MachineSet.t) (n r : Z) (d : MachineDeployment.t)
      (scaled : bool) (w w' : World) :
  MachineSet.replicas ms = Some r -> n <> r ->
  scaleMachineSet ms n d w = Some ((scaled, ms', None), w') ->
  ms' = MachineSet.withReplicas ms n /\ events w' = events w ++ [EvScale ms n true].
Proof.
  intros Hr Hne. unfold scaleMachineSet. rewrite Hr.
  destruct (Z.eqb_spec r n); [congruence|].
  destruct (request_events (EvScale ms n) w) as (acc & w1 & Hreq & Hev).
  unfold bind. rewrite Hreq. destruct acc; [|discriminate].
  intros [= _ <- <-]. auto.
Qed.

Section Success.
Context {collab : Collaborators}.

Lemma scaleDownLoop_success (d : MachineDeployment.t) (quota : Z)
      (todo done : list MachineSet.t) (total : Z) (w w' : World)
      (count : Z) (sets : list MachineSet.t) :
  Int32.in_range quota -> Forall countTyped todo -> 0 <= total ->
  scaleDownLoop d quota done todo total w = Some ((count, sets, None), w') ->
  let plan := scaleDownPlan (quota - total) todo in
  sets = done ++ plan
  /\ count = total + (totalReplicas todo - totalReplicas plan)
  /\ events w' = events w ++ writesBetween todo plan.
Proof.
  intros Hq Hall. revert done total w.
  induction Hall as [|ms rest Hms _ IH]; intros done total w Ht; cbv zeta.
  - simpl. intros [= <- <- <-]. rewrite !app_nil_r. repeat split. lia.
  - cbn [scaleDownLoop scaleDownPlan].
    destruct (MachineSet.replicas ms) as [r|] eqn:Hr; [|discriminate].
    destruct (Z.geb_spec total quota) as [Hge|Hlt].
    { destruct (Z.leb_spec (quota - total) 0) as [_|?]; [|lia].
      intros [= <- <- <-]. rewrite writesBetween_same, app_nil_r. repeat split. lia. }
    destruct (Z.leb_spec (quota - total) 0) as [?|_]; [lia|].
    destruct (Z.eqb_spec r 0) as [->|Hne].
    { intros H. apply IH in H; [|exact Ht]. cbv zeta in H. destruct H as (-> & -> & ->).
      change (0 <? 0) with false. cbv iota.
      rewrite <- app_assoc, !totalReplicas_cons. cbn [writesBetween app].
      rewrite Z.eqb_refl. repeat split. lia. }
    assert (E1 : Int32.sub quota total = quota - total)
      by (unfold Int32.sub; apply wrap_exact; int32_range).
    rewrite E1, Int32Min_min.
    destruct (Z.ltb_spec 0 r) as [Hpos|Hneg].
    + set (delta := Z.min r (quota - total)).
      assert (Hdelta : 0 < delta <= r /\ delta <= quota - total) by (unfold delta; lia).
      pose proof (Hms r Hr) as Hrange.
      assert (E2 : Int32.sub r delta = r - delta)
        by (unfold Int32.sub; apply wrap_exact; int32_range).
      rewrite E2.
      destruct (Z.gtb_spec (r - delta) r) as [?|_]; [lia|].
      intros H. apply bind_Some in H. destruct H as ([[scaled ms'] err] & w1 & Hs & H).
      destruct err as [e|]; [discriminate|].
      apply scaleMachineSet_success with (r := r) in Hs; [|assumption|lia].
      destruct Hs as [-> Hev1].
      assert (E3 : Int32.add total delta = total + delta)
        by (unfold Int32.add; apply wrap_exact; int32_range).
      rewrite E3 in H. apply IH in H; [|lia]. cbv zeta in H.
      replace (quota - (total + delta)) with (quota - total - delta) in H by lia.
      destruct H as (-> & -> & ->).
      rewrite <- app_assoc, !totalReplicas_cons, desired_withReplicas, (desired_Some ms r Hr).
      cbn [writesBetween app]. rewrite desired_withReplicas, (desired_Some ms r Hr).
      destruct (Z.eqb_spec r (r - delta)) as [?|_]; [lia|].
      rewrite Hev1, <- app_assoc. repeat split. lia.
    + rewrite Z.min_l by lia.
      unfold Int32.sub. rewrite Z.sub_diag. change (Int32.wrap 0) with 0.
      destruct (Z.gtb_spec 0 r) as [_|?]; [discriminate|lia].
Qed.

Lemma cleanupLoop_success (d : MachineDeployment.t) (maxCleanupCount : Z)
      (todo done : list MachineSet.t) (total : Z) (w w' : World)
      (count : Z) (sets : list MachineSet.t) :
  Forall countsNotNegative todo -> 0 <= total <= maxCleanupCount ->
  maxCleanupCount <= Int32.max_int ->
  cleanupLoop d maxCleanupCount done todo total w = Some ((sets, count, None), w') ->
  let plan := cleanupPlan (maxCleanupCount - total) todo in
  sets = done ++ plan
  /\ count = total + (totalReplicas todo - totalReplicas plan)
  /\ events w' = events w ++ writesBetween todo plan.
Proof.
  intros Hall. revert done total w.
  induction Hall as [|ms rest [Hms Hav] _ IH]; intros done total w Ht Hmax; cbv zeta.
  - simpl. intros [= <- <- <-]. rewrite !app_nil_r. repeat split. lia.
  - destruct (Z.geb_spec total maxCleanupCount) as [Hge|Hlt].
    { assert (total = maxCleanupCount) as -> by lia.
      rewrite Z.sub_diag, cleanupPlan_exhausted, writesBetween_same, app_nil_r.
      cbn [cleanupLoop].
      destruct (MachineSet.replicas ms) as [r|]; [|discriminate].
      destruct (Z.geb_spec maxCleanupCount maxCleanupCount) as [_|?]; [|lia].
      intros [= <- <- <-]. repeat split. lia. }
    cbn [cleanupLoop cleanupPlan].
    destruct (MachineSet.replicas ms) as [r|] eqn:Hr; [|discriminate].
    specialize (Hms r eq_refl).
    destruct (Z.geb_spec total maxCleanupCount) as [?|_]; [lia|].
    assert (Hskip :
      (MachineSet.available ms <? r) && (0 <? r) = false ->
      cleanupLoop d maxCleanupCount (done ++ [ms]) rest total w
      = Some ((sets, count, None), w') ->
      sets = done ++ ms :: cleanupPlan (maxCleanupCount - total) rest
      /\ count = total + (totalReplicas (ms :: rest)
                          - totalReplicas (ms :: cleanupPlan (maxCleanupCount - total) rest))
      /\ events w' = events w
                     ++ writesBetween (ms :: rest)
                          (ms :: cleanupPlan (maxCleanupCount - total) rest)).
    { intros _ H. apply IH in H; [|exact Ht|exact Hmax]. cbv zeta in H.
      destruct H as (-> & -> & ->).
      rewrite <- app_assoc, !totalReplicas_cons. cbn [writesBetween app].
      rewrite Z.eqb_refl. repeat split. lia. }
    destruct (Z.eqb_spec r 0) as [->|Hne0].
    { rewrite andb_false_r in *. now apply Hskip. }
    destruct (Z.eqb_spec r (MachineSet.available ms)) as [Heq|Hnea].
    { rewrite <- Heq, Z.ltb_irrefl in *. cbn [andb] in *. now apply Hskip. }
    clear Hskip.
    assert (E1 : Int32.sub maxCleanupCount total = maxCleanupCount - total)
      by (unfold Int32.sub; apply wrap_exact; int32_range).
    assert (E2 : Int32.sub r (MachineSet.available ms) = r - MachineSet.available ms)
      by (unfold Int32.sub; apply wrap_exact; int32_range).
    rewrite E1, E2, Int32Min_min.
    set (delta := Z.min (maxCleanupCount - total) (r - MachineSet.available ms)).
    destruct (Z.ltb_spec (MachineSet.available ms) r) as [Hlow|Hhigh].
    + destruct (Z.ltb_spec 0 r) as [_|?]; [|lia]. cbn [andb].
      assert (Hdelta : 0 < delta <= maxCleanupCount - total
                       /\ delta <= r - MachineSet.available ms) by (unfold delta; lia).
      assert (E3 : Int32.sub r delta = r - delta)
        by (unfold Int32.sub; apply wrap_exact; int32_range).
      rewrite E3.
      destruct (Z.gtb_spec (r - delta) r) as [?|_]; [lia|].
      intros H. apply bind_Some in H. destruct H as ([[scaled ms'] err] & w1 & Hs & H).
      destruct err as [e|]; [discriminate|].
      apply scaleMachineSet_success with (r := r) in Hs; [|assumption|lia].
      destruct Hs as [-> Hev1].
      assert (E4 : Int32.add total delta = total + delta)
        by (unfold Int32.add; apply wrap_exact; int32_range).
      rewrite E4 in H. apply IH in H; [|lia|exact Hmax]. cbv zeta in H.
      replace (maxCleanupCount - (total + delta)) with (maxCleanupCount - total - delta)
        in H by lia.
      destruct H as (-> & -> & ->).
      rewrite <- app_assoc, !totalReplicas_cons, desired_withReplicas, (desired_Some ms r Hr).
      cbn [writesBetween app]. rewrite desired_withReplicas, (desired_Some ms r Hr).
      destruct (Z.eqb_spec r (r - delta)) as [?|_]; [lia|].
      rewrite Hev1, <- app_assoc. repeat split. lia.
    + assert (Hd : delta = r - MachineSet.available ms) by (unfold delta; lia).
      rewrite Hd.
      assert (E3 : Int32.sub r (r - MachineSet.available ms) = MachineSet.available ms).
      { unfold Int32.sub.
        replace (r - (r - MachineSet.available ms)) with (MachineSet.available ms) by lia.
        apply wrap_exact. int32_range. }
      rewrite E3.
      destruct (Z.gtb_spec (MachineSet.available ms) r) as [_|?]; [discriminate|lia].
Qed.
End Success.

(** ** The validator *)

Lemma ValidatePositiveIntOrPercent_errors (s : IntOrString.t) (path : field.Path) :
  ValidatePositiveIntOrPercent s path <> []
  <-> unreadable s \/ fst (getIntOrPercent s false) < 0.
Proof.
  unfold ValidatePositiveIntOrPercent, unreadable.
  destruct (getIntOrPercent s false) as [x [e|]]; simpl.
  - split; [left|]; discriminate.
  - destruct (Z.ltb_spec x 0); simpl.
    + split; [now right|discriminate].
    + split; [congruence|intros [?|?]; [congruence|lia]].
Qed.

Lemma app_not_nil {A} (l1 l2 : list A) : l1 ++ l2 <> [] <-> l1 <> [] \/ l2 <> [].
Proof.
  destruct l1; simpl.
  - split; [auto|intros [H|H]; [congruence|exact H]].
  - split; [intros _; left; discriminate|intros _; discriminate].
Qed.

Ltac nonempty :=
  solve [ discriminate
        | match goal with
          | H : _ <-> ?P |- ValidatePositiveIntOrPercent ?s ?p <> [] =>
              apply H; intuition discriminate
          end
        | apply app_not_nil; left; nonempty
        | apply app_not_nil; right; nonempty ].

(** The validator reports an error exactly for the strategies it is written
    to reject; a value is unreadable when getIntOrPercent returns an
    error. *)
Lemma ValidateMachineRollingUpdateDeployment_rejects
      (ru : MachineRollingUpdateDeployment.t) (path : field.Path) :
  ValidateMachineRollingUpdateDeployment ru path <> []
  <-> rejectedMaxUnavailable ru \/ rejectedMaxSurge ru \/ rejectedBothZero ru.
Proof.
  set (percentAbove100 (mu : IntOrString.t) :=
         Nat.eqb (List.length (utilvalidation.IsValidPercent (IntOrString.StrVal mu))) 0
         && (fst (getIntOrPercent mu false) >? 100)).
  assert (Hp : forall mu,
             percentAbove100 mu = true
             <-> utilvalidation.IsValidPercent (IntOrString.StrVal mu) = []
                 /\ 100 < fst (getIntOrPercent mu false)).
  { intros mu. unfold percentAbove100. rewrite andb_true_iff.
    destruct (utilvalidation.IsValidPercent (IntOrString.StrVal mu)); simpl;
      destruct (Z.gtb_spec (fst (getIntOrPercent mu false)) 100); split;
      intros [? ?]; try discriminate; try lia; auto. }
  assert (Hv : forall s p,
             ValidatePositiveIntOrPercent s p <> []
             <-> unreadable s \/ fst (getIntOrPercent s false) < 0)
    by (intros; apply ValidatePositiveIntOrPercent_errors).
  assert (Hone : forall e : field.Error, [e] <> []) by discriminate.
  destruct ru as [[mu|] [ms|]];
    unfold ValidateMachineRollingUpdateDeployment, rejectedMaxUnavailable,
           rejectedMaxSurge, rejectedBothZero in *;
    cbn [MachineRollingUpdateDeployment.MaxUnavailable
         MachineRollingUpdateDeployment.MaxSurge app fst snd] in *.
  - fold (percentAbove100 mu). specialize (Hp mu).
    pose proof (Hv mu (field.Child path "maxUnavailable")) as Hmu.
    pose proof (Hv ms (field.Child path "maxSurge")) as Hms.
    destruct (percentAbove100 mu);
      destruct ((fst (getIntOrPercent mu false) =? 0) && (fst (getIntOrPercent ms true) =? 0))
               eqn:Ez;
      rewrite ?andb_true_iff, ?andb_false_iff, ?Z.eqb_eq, ?Z.eqb_neq in Ez.
    all: split;
      [ intros H
      | intros [(mu' & [= <-] & H)|[(ms' & [= <-] & H)|(mu' & ms' & [= <-] & [= <-] & H)]] ].
    all: try (right; right; exists mu, ms; tauto).
    all: try (left; exists mu; split; [reflexivity|]; tauto).
    all: try (apply app_not_nil in H; destruct H as [H|H];
              [ left; exists mu; split; [reflexivity|]; apply Hmu in H; tauto
              | right; left; exists ms; split; [reflexivity|]; now apply Hms ]).
    all: try lia.
    all: nonempty.
  - fold (percentAbove100 mu). specialize (Hp mu).
    pose proof (Hv mu (field.Child path "maxUnavailable")) as Hmu.
    destruct (percentAbove100 mu); split;
      [ intros H
      | intros [(mu' & [= <-] & H)|[(ms' & [=] & H)|(mu' & ms' & _ & [=] & H)]]
      | intros H
      | intros [(mu' & [= <-] & H)|[(ms' & [=] & H)|(mu' & ms' & _ & [=] & H)]] ].
    all: try (left; exists mu; split; [reflexivity|]; tauto).
    all: try (left; exists mu; split; [reflexivity|]; apply Hmu in H; tauto).
    all: nonempty.
  - pose proof (Hv ms (field.Child path "maxSurge")) as Hms. split.
    + intros H. right. left. exists ms. split; [reflexivity|]. now apply Hms.
    + intros [(mu' & [=] & H)|[(ms' & [= <-] & H)|(mu' & ms' & [=] & _)]]. nonempty.
  - split; [congruence|].
    intros [(mu' & [=] & H)|[(ms' & [=] & H)|(mu' & ms' & [=] & _)]].
Qed.

(** ** Status aggregation *)

Lemma DeepEqual_eq (a b : MachineDeploymentStatus.t) :
  MachineDeploymentStatus.DeepEqual a b = true <-> a = b.
Proof.
  destruct a, b. unfold MachineDeploymentStatus.DeepEqual; simpl.
  rewrite !andb_true_iff, !Z.eqb_eq. split.
  - intros [[[[[-> ->] ->] ->] ->] ->]. reflexivity.
  - intros [= -> -> -> -> -> ->]. repeat split.
Qed.

Lemma fold_status (l : list MachineSet.t) (g u a b c x : Z) :
  fold_left
    (fun (st : MachineDeploymentStatus.t) (ms : MachineSet.t) =>
       MachineDeploymentStatus.Build
         (MachineDeploymentStatus.ObservedGeneration st)
         (Int32.add (MachineDeploymentStatus.Replicas st)
                    (MachineSetStatus.Replicas (MachineSet.Status ms)))
         (MachineDeploymentStatus.UpdatedReplicas st)
         (Int32.add (MachineDeploymentStatus.ReadyReplicas st)
                    (MachineSetStatus.ReadyReplicas (MachineSet.Status ms)))
         (Int32.add (MachineDeploymentStatus.AvailableReplicas st)
                    (MachineSetStatus.AvailableReplicas (MachineSet.Status ms)))
         (MachineDeploymentStatus.UnavailableReplicas st))
    l (MachineDeploymentStatus.Build g (Int32.wrap a) u (Int32.wrap b) (Int32.wrap c) x)
  = MachineDeploymentStatus.Build g
      (Int32.wrap (a + sumZ (map (fun ms => MachineSetStatus.Replicas (MachineSet.Status ms)) l)))
      u
      (Int32.wrap (b + sumZ (map (fun ms => MachineSetStatus.ReadyReplicas (MachineSet.Status ms)) l)))
      (Int32.wrap (c + sumZ (map (fun ms => MachineSetStatus.AvailableReplicas (MachineSet.Status ms)) l)))
      x.
Proof.
  revert a b c. induction l as [|ms l IH]; intros a b c; simpl.
  - now rewrite !Z.add_0_r.
  - unfold Int32.add. rewrite !wrap_add_wrap_l, IH. f_equal; f_equal; lia.
Qed.

Lemma fold_status_zero (l : list MachineSet.t) (g u x : Z) :
  fold_left
    (fun (st : MachineDeploymentStatus.t) (ms : MachineSet.t) =>
       MachineDeploymentStatus.Build
         (MachineDeploymentStatus.ObservedGeneration st)
         (Int32.add (MachineDeploymentStatus.Replicas st)
                    (MachineSetStatus.Replicas (MachineSet.Status ms)))
         (MachineDeploymentStatus.UpdatedReplicas st)
         (Int32.add (MachineDeploymentStatus.ReadyReplicas st)
                    (MachineSetStatus.ReadyReplicas (MachineSet.Status ms)))
         (Int32.add (MachineDeploymentStatus.AvailableReplicas st)
                    (MachineSetStatus.AvailableReplicas (MachineSet.Status ms)))
         (MachineDeploymentStatus.UnavailableReplicas st))
    l (MachineDeploymentStatus.Build g 0 u 0 0 x)
  = MachineDeploymentStatus.Build g
      (Int32.wrap (sumZ (map (fun ms => MachineSetStatus.Replicas (MachineSet.Status ms)) l)))
      u
      (Int32.wrap (sumZ (map (fun ms => MachineSetStatus.ReadyReplicas (MachineSet.Status ms)) l)))
      (Int32.wrap (sumZ (map (fun ms => MachineSetStatus.AvailableReplicas (MachineSet.Status ms)) l)))
      x.
Proof. exact (fold_status l g u 0 0 0 x). Qed.

(** ensureStatus computes the aggregated status, and sends it to the store
    exactly when it differs from the status the deployment carries. *)
Lemma ensureStatus_spec (md : MachineDeployment.t)
      (newMS : MachineSet.t) (oldMSs : list MachineSet.t) (dReplicas : Z) (w : World) :
  MachineDeployment.replicas md = Some dReplicas ->
  let st := aggregatedStatus md dReplicas newMS oldMSs in
  (MachineDeployment.Status md = st ->
   ensureStatus md newMS oldMSs w = Some ((md, None), w))
  /\ (MachineDeployment.Status md <> st ->
      exists (accepted : bool) (w' : World),
        ensureStatus md newMS oldMSs w
        = Some ((MachineDeployment.withStatus md st,
                 if accepted then None else Some ErrStore), w')
        /\ events w' = events w ++ [EvStatus (MachineDeployment.withStatus md st) accepted]).
Proof.
  intros Hr st.
  assert (E : ensureStatus md newMS oldMSs w
              = (if negb (MachineDeploymentStatus.DeepEqual (MachineDeployment.Status md) st)
                 then UpdateStatus (MachineDeployment.withStatus md st)
                 else ret (md, None)) w).
  { unfold ensureStatus, bind, deref. rewrite Hr.
    rewrite fold_status_zero. simpl.
    assert (Emax : forall x, (if x <? 0 then 0 else x) = Z.max 0 x)
      by (intros x; destruct (Z.ltb_spec x 0); lia).
    rewrite Emax. reflexivity. }
  rewrite E. clear E. split.
  - intros Heq. apply DeepEqual_eq in Heq. now rewrite Heq.
  - intros Hne.
    destruct (MachineDeploymentStatus.DeepEqual (MachineDeployment.Status md) st) eqn:Hd.
    { apply DeepEqual_eq in Hd. contradiction. }
    simpl. unfold UpdateStatus.
    destruct (request_events (EvStatus (MachineDeployment.withStatus md st)) w)
      as (acc & w' & Hreq & Hev).
    exists acc, w'. unfold bind. rewrite Hreq. split; [reflexivity|exact Hev].
Qed.

(** ** What every run of the two phases writes *)

Lemma sortByCreationTimestamp_incl (l : list MachineSet.t) :
  incl (sortByCreationTimestamp l) l.
Proof.
  intros x Hx. eapply Permutation_in; [|exact Hx].
  apply Permutation_sym, sortByCreationTimestamp_perm.
Qed.

Lemma Forall_shrunk_self (l : list MachineSet.t) : Forall (shrunk l) l.
Proof. apply Forall_forall. intros x. apply shrunk_self. Qed.

Lemma shrunk_through (src mid : list MachineSet.t) (x : MachineSet.t) :
  Forall (shrunk src) mid -> shrunk mid x -> shrunk src x.
Proof.
  intros Hmid (y & Hy & Hyx & Hd).
  rewrite Forall_forall in Hmid. destruct (Hmid y Hy) as (ms & Hms & Hmsy & Hd').
  exists ms. repeat split; [assumption|eapply rescaled_trans; eassumption|lia].
Qed.

Lemma lowering_through (src mid : list MachineSet.t) (ev : Event) :
  Forall (shrunk src) mid -> lowering mid ev -> lowering src ev.
Proof.
  intros Hmid [Hlow Hto]. split; [exact Hlow|].
  destruct ev; simpl in *; auto.
  destruct Hto as (y & Hy & Hyx).
  rewrite Forall_forall in Hmid. destruct (Hmid y Hy) as (ms & Hms & Hmsy & _).
  exists ms. split; [assumption|eapply rescaled_trans; eassumption].
Qed.

Lemma Forall_from_loop (src l : list MachineSet.t) :
  Forall (fun x => In x [] \/ shrunk (sortByCreationTimestamp src) x) l ->
  Forall (shrunk src) l.
Proof.
  apply Forall_impl. intros x [[]|H].
  eapply shrunk_incl; [apply sortByCreationTimestamp_incl|exact H].
Qed.

Lemma cleanupUnhealthyReplicas_log (oldMSs : list MachineSet.t)
      (d : MachineDeployment.t) (maxCleanupCount : Z) (w : World) :
  exists res w',
    cleanupUnhealthyReplicas oldMSs d maxCleanupCount w = Some (res, w')
    /\ extends (lowering oldMSs) w w'
    /\ Forall (shrunk oldMSs) (fst (fst res)).
Proof.
  unfold cleanupUnhealthyReplicas.
  destruct (cleanupLoop_log d maxCleanupCount (sortByCreationTimestamp oldMSs) [] 0 w)
    as (res & w' & E & Hext & Hall).
  exists res, w'. split; [exact E|]. split.
  - eapply extends_weaken; [|exact Hext].
    intros ev. apply lowering_incl, sortByCreationTimestamp_incl.
  - now apply Forall_from_loop.
Qed.

Lemma scaleDownOldMachineSetsForRollingUpdate_log {collab : Collaborators}
      (allMSs oldMSs : list MachineSet.t) (d : MachineDeployment.t) (w : World) :
  exists res w',
    scaleDownOldMachineSetsForRollingUpdate allMSs oldMSs d w = Some (res, w')
    /\ extends (lowering oldMSs) w w'
    /\ Forall (shrunk oldMSs) (snd (fst res)).
Proof.
  unfold scaleDownOldMachineSetsForRollingUpdate.
  destruct (MachineDeployment.replicas d) as [dReplicas|].
  2:{ eexists _, w. split; [reflexivity|]. split; [apply extends_refl|].
      apply Forall_shrunk_self. }
  destruct (_ <=? _).
  { eexists _, w. split; [reflexivity|]. split; [apply extends_refl|].
    apply Forall_shrunk_self. }
  cbv zeta.
  match goal with
  | |- context [scaleDownLoop d ?q [] ?l 0 w] =>
      destruct (scaleDownLoop_log d q l [] 0 w) as (res & w' & E & Hext & Hall)
  end.
  exists res, w'. split; [exact E|]. split.
  - eapply extends_weaken; [|exact Hext].
    intros ev. apply lowering_incl, sortByCreationTimestamp_incl.
  - now apply Forall_from_loop.
Qed.

(** ** The store during a scale-down *)

Lemma totalReplicas_app (l1 l2 : list MachineSet.t) :
  totalReplicas (l1 ++ l2) = totalReplicas l1 + totalReplicas l2.
Proof.
  induction l1 as [|x l1 IH]; simpl; [reflexivity|].
  rewrite !totalReplicas_cons, IH. lia.
Qed.

Lemma totalReplicas_perm (l1 l2 : list MachineSet.t) :
  Permutation l1 l2 -> totalReplicas l1 = totalReplicas l2.
Proof.
  induction 1; rewrite ?totalReplicas_cons; lia.
Qed.

(** Along such requests the total of the desired counts never goes up. *)
Lemma loweringTrace_total (evs : list Event) (stored final : list MachineSet.t) :
  loweringTrace stored evs final -> totalReplicas final <= totalReplicas stored.
Proof.
  revert stored. induction evs as [|ev evs IH]; intros stored; simpl.
  - intros ->. lia.
  - destruct ev as [target n accepted| |]; try contradiction.
    intros (pre & post & r & -> & Hr & Hlt & Hrest).
    apply IH in Hrest. destruct accepted; [|exact Hrest].
    rewrite totalReplicas_app, totalReplicas_cons in *.
    rewrite desired_withReplicas in Hrest. rewrite (desired_Some target r Hr). lia.
Qed.

Lemma loweringTrace_app (evs1 evs2 : list Event) (stored mid final : list MachineSet.t) :
  loweringTrace stored evs1 mid -> loweringTrace mid evs2 final ->
  loweringTrace stored (evs1 ++ evs2) final.
Proof.
  revert stored. induction evs1 as [|ev evs1 IH]; intros stored; simpl.
  - now intros ->.
  - destruct ev as [target n accepted| |]; try contradiction.
    intros (pre & post & r & Hs & Hr & Hlt & Hrest) H2.
    exists pre, post, r. repeat split; auto.
Qed.

(** The order in which the store lists its sets does not matter. *)
Lemma loweringTrace_perm (evs : list Event) (stored stored' final : list MachineSet.t) :
  Permutation stored stored' -> loweringTrace stored evs final ->
  exists final', loweringTrace stored' evs final' /\ Permutation final final'.
Proof.
  revert stored stored'. induction evs as [|ev evs IH]; intros stored stored' Hp; simpl.
  - intros ->. now exists stored'.
  - destruct ev as [target n accepted| |]; try contradiction.
    intros (pre & post & r & -> & Hr & Hlt & Hrest).
    assert (Hin : In target stored').
    { eapply Permutation_in; [exact Hp|]. apply in_elt. }
    apply in_split in Hin. destruct Hin as (pre' & post' & ->).
    assert (Hp' : Permutation (pre ++ post) (pre' ++ post'))
      by (eapply Permutation_app_inv; exact Hp).
    destruct accepted.
    + destruct (IH _ (pre' ++ MachineSet.withReplicas target n :: post')
                  (Permutation_elt _ _ _ _ _ Hp') Hrest) as (final' & Ht & Hf).
      exists final'. split; [|exact Hf]. exists pre', post', r. auto.
    + destruct (IH _ (pre' ++ target :: post') Hp Hrest) as (final' & Ht & Hf).
      exists final'. split; [|exact Hf]. exists pre', post', r. auto.
Qed.

(** A scale request for a count no higher than the current one, seen from
    the store: at most one write, to the set as the store holds it. *)
Lemma scaleMachineSet_trace (ms : MachineSet.t) (n r : Z) (d : MachineDeployment.t)
      (w : World) (pre post : list MachineSet.t) :
  MachineSet.replicas ms = Some r -> n <= r ->
  exists scaled ms' err w' evs,
    scaleMachineSet ms n d w = Some ((scaled, ms', err), w')
    /\ events w' = events w ++ evs
    /\ loweringTrace (pre ++ ms :: post) evs (pre ++ ms' :: post).
Proof.
  intros Hr Hle. unfold scaleMachineSet. rewrite Hr.
  destruct (Z.eqb_spec r n) as [->|Hne].
  - exists false, ms, None, w, []. rewrite app_nil_r. repeat split.
  - destruct (request_events (EvScale ms n) w) as (acc & w' & Hreq & Hev).
    unfold bind. rewrite Hreq. destruct acc; simpl.
    + exists true, (MachineSet.withReplicas ms n), None, w', [EvScale ms n true].
      repeat split; auto. exists pre, post, r. repeat split; auto. lia.
    + exists false, ms, (Some ErrStore), w', [EvScale ms n false].
      repeat split; auto. exists pre, post, r. repeat split; auto. lia.
Qed.

(** The cleanup loop, seen from the store: it returns the sets as the store
    holds them, or nothing together with an error. *)
Lemma cleanupLoop_trace (d : MachineDeployment.t) (maxCleanupCount : Z)
      (todo done : list MachineSet.t) (total : Z) (w : World) :
  exists res w' evs final,
    cleanupLoop d maxCleanupCount done todo total w = Some (res, w')
    /\ events w' = events w ++ evs
    /\ loweringTrace (done ++ todo) evs final
    /\ ((snd res <> None /\ fst (fst res) = []) \/ fst (fst res) = final).
Proof.
  revert done total w.
  induction todo as [|ms rest IH]; intros done total w; simpl.
  - eexists _, w, [], _. rewrite !app_nil_r.
    split; [reflexivity|]. split; [reflexivity|]. split; [reflexivity|]. now right.
  - destruct (MachineSet.replicas ms) as [r|] eqn:Hr.
    2:{ eexists _, w, [], _. rewrite app_nil_r.
        split; [reflexivity|]. split; [reflexivity|]. split; [reflexivity|].
        left. split; [discriminate|reflexivity]. }
    destruct (total >=? maxCleanupCount).
    { eexists _, w, [], _. rewrite app_nil_r.
      split; [reflexivity|]. split; [reflexivity|]. split; [reflexivity|]. now right. }
    assert (Hskip :
      exists res w' evs final,
        cleanupLoop d maxCleanupCount (done ++ [ms]) rest total w = Some (res, w')
        /\ events w' = events w ++ evs
        /\ loweringTrace (done ++ ms :: rest) evs final
        /\ ((snd res <> None /\ fst (fst res) = []) \/ fst (fst res) = final)).
    { destruct (IH (done ++ [ms]) total w) as (res & w' & evs & final & E & Hev & Ht & Hres).
      rewrite <- app_assoc in Ht. simpl in Ht. now exists res, w', evs, final. }
    destruct (r =? 0); [exact Hskip|].
    destruct (r =? MachineSet.available ms); [exact Hskip|].
    clear Hskip.
    set (new := Int32.sub r _).
    destruct (Z.gtb_spec new r) as [Hgt|Hle].
    { eexists _, w, [], _. rewrite app_nil_r.
      split; [reflexivity|]. split; [reflexivity|]. split; [reflexivity|].
      left. split; [discriminate|reflexivity]. }
    destruct (scaleMachineSet_trace ms new r d w done rest Hr Hle)
      as (scaled & ms' & err & w1 & evs1 & E & Hev1 & Ht1).
    unfold bind at 1. rewrite E.
    destruct err as [e|].
    { eexists _, w1, evs1, _.
      split; [reflexivity|]. split; [exact Hev1|]. split; [exact Ht1|].
      left. split; [discriminate|reflexivity]. }
    destruct (IH (done ++ [ms']) (Int32.add total (Int32Min (Int32.sub maxCleanupCount total)
                                                    (Int32.sub r (MachineSet.available ms)))) w1)
      as (res & w' & evs2 & final & E' & Hev2 & Ht2 & Hres).
    rewrite <- app_assoc in Ht2. simpl in Ht2.
    exists res, w', (evs1 ++ evs2), final.
    split; [exact E'|]. split; [now rewrite Hev2, Hev1, app_assoc|].
    split; [eapply loweringTrace_app; eassumption|exact Hres].
Qed.

(** The loop of the availability-gated scale-down, seen from the store: it
    returns the sets as the store holds them, also when it fails. *)
Lemma scaleDownLoop_trace (d : MachineDeployment.t) (totalScaleDownCount : Z)
      (todo done : list MachineSet.t) (total : Z) (w : World) :
  exists res w' evs,
    scaleDownLoop d totalScaleDownCount done todo total w = Some (res, w')
    /\ events w' = events w ++ evs
    /\ loweringTrace (done ++ todo) evs (snd (fst res)).
Proof.
  revert done total w.
  induction todo as [|ms rest IH]; intros done total w; simpl.
  - eexists _, w, []. rewrite !app_nil_r. repeat split.
  - destruct (MachineSet.replicas ms) as [r|] eqn:Hr.
    2:{ eexists _, w, []. rewrite app_nil_r. repeat split. }
    destruct (total >=? totalScaleDownCount).
    { eexists _, w, []. rewrite app_nil_r. repeat split. }
    destruct (r =? 0).
    { destruct (IH (done ++ [ms]) total w) as (res & w' & evs & E & Hev & Ht).
      rewrite <- app_assoc in Ht. simpl in Ht. now exists res, w', evs. }
    set (new := Int32.sub r _).
    destruct (Z.gtb_spec new r) as [Hgt|Hle].
    { eexists _, w, []. rewrite app_nil_r. repeat split. }
    destruct (scaleMachineSet_trace ms new r d w done rest Hr Hle)
      as (scaled & ms' & err & w1 & evs1 & E & Hev1 & Ht1).
    unfold bind at 1. rewrite E.
    destruct err as [e|].
    { eexists _, w1, evs1. split; [reflexivity|]. split; [exact Hev1|exact Ht1]. }
    destruct (IH (done ++ [ms']) (Int32.add total (Int32Min r (Int32.sub totalScaleDownCount total)))
                 w1)
      as (res & w' & evs2 & E' & Hev2 & Ht2).
    rewrite <- app_assoc in Ht2. simpl in Ht2.
    exists res, w', (evs1 ++ evs2).
    split; [exact E'|]. split; [now rewrite Hev2, Hev1, app_assoc|].
    eapply loweringTrace_app; eassumption.
Qed.

Lemma cleanupUnhealthyReplicas_trace (oldMSs : list MachineSet.t)
      (d : MachineDeployment.t) (maxCleanupCount : Z) (w : World) :
  exists res w' evs final,
    cleanupUnhealthyReplicas oldMSs d maxCleanupCount w = Some (res, w')
    /\ events w' = events w ++ evs
    /\ loweringTrace oldMSs evs final
    /\ ((snd res <> None /\ fst (fst res) = []) \/ Permutation final (fst (fst res))).
Proof.
  unfold cleanupUnhealthyReplicas.
  destruct (cleanupLoop_trace d maxCleanupCount (sortByCreationTimestamp oldMSs) [] 0 w)
    as (res & w' & evs & final & E & Hev & Ht & Hres).
  simpl in Ht.
  destruct (loweringTrace_perm evs _ oldMSs final
              (Permutation_sym (sortByCreationTimestamp_perm oldMSs)) Ht)
    as (final' & Ht' & Hp).
  exists res, w', evs, final'. split; [exact E|]. split; [exact Hev|]. split; [exact Ht'|].
  destruct Hres as [Herr| ->]; [now left|right; now apply Permutation_sym].
Qed.

Lemma scaleDownOldMachineSetsForRollingUpdate_trace {collab : Collaborators}
      (allMSs oldMSs : list MachineSet.t) (d : MachineDeployment.t) (w : World) :
  exists res w' evs final,
    scaleDownOldMachineSetsForRollingUpdate allMSs oldMSs d w = Some (res, w')
    /\ events w' = events w ++ evs
    /\ loweringTrace oldMSs evs final
    /\ Permutation final (snd (fst res)).
Proof.
  unfold scaleDownOldMachineSetsForRollingUpdate.
  destruct (MachineDeployment.replicas d) as [dReplicas|].
  2:{ eexists _, w, [], oldMSs. rewrite app_nil_r. repeat split. reflexivity. }
  destruct (_ <=? _).
  { eexists _, w, [], oldMSs. rewrite app_nil_r. repeat split. reflexivity. }
  cbv zeta.
  match goal with
  | |- context [scaleDownLoop d ?q [] ?l 0 w] =>
      destruct (scaleDownLoop_trace d q l [] 0 w) as (res & w' & evs & E & Hev & Ht)
  end.
  simpl in Ht.
  destruct (loweringTrace_perm evs _ oldMSs _
              (Permutation_sym (sortByCreationTimestamp_perm oldMSs)) Ht)
    as (final' & Ht' & Hp).
  exists res, w', evs, final'. split; [exact E|]. split; [exact Hev|]. split; [exact Ht'|].
  now apply Permutation_sym.
Qed.

(** ** The phases of the scale-down planner *)

(** The scale-down planner on sets whose counts are present: the two early
    exits, then the unhealthy cleanup with the budget, whose error is
    dropped, then the availability-gated scale-down. *)
Lemma reconcileOldMachineSets_phases {collab : Collaborators}
      (allMSs oldMSs : list MachineSet.t) (newMS : MachineSet.t)
      (d : MachineDeployment.t) (dReplicas newReplicas : Z) (w : World) :
  MachineDeployment.replicas d = Some dReplicas ->
  MachineSet.replicas newMS = Some newReplicas ->
  Forall hasCount oldMSs -> Forall hasCount allMSs ->
  reconcileOldMachineSets allMSs oldMSs newMS d w
  = (let budget :=
       Int32.sub (Int32.sub (totalReplicas32 allMSs)
                            (Int32.sub dReplicas (MaxUnavailable d)))
                 (Int32.sub newReplicas (MachineSet.available newMS)) in
     if totalReplicas32 oldMSs =? 0 then ret (oldMSs, None)
     else if budget <=? 0 then ret (oldMSs, None)
     else
       '(cleaned, _, err) <- cleanupUnhealthyReplicas oldMSs d budget ;;
       match err with
       | Some _ => ret (cleaned, None)
       | None =>
           '(_, scaled, err) <-
             scaleDownOldMachineSetsForRollingUpdate (cleaned ++ [newMS]) cleaned d ;;
           match err with
           | Some e => ret (scaled, Some e)
           | None => ret (scaled, None)
           end
       end) w.
Proof.
  intros Hd Hn Hold Hall.
  unfold reconcileOldMachineSets. rewrite Hd, Hn.
  unfold bind at 1, deref at 1. rewrite (GetReplicaCount_total oldMSs Hold).
  cbv beta iota zeta. destruct (totalReplicas32 oldMSs =? 0); [reflexivity|].
  unfold bind at 1, deref at 1. rewrite (GetReplicaCount_total allMSs Hall).
  reflexivity.
Qed.

(* ================================================================= *)
(** * The claims *)

(** C1.  For a deployment and a new set with present desired counts, and
    old sets (and all sets) with present desired counts: when the old sets
    desire no replica in total, the scale-down planner returns them
    unchanged, without error and without a request to the store (the total
    is the [int32] the code sums up).  Otherwise it computes

      budget = totalReplicas(allSets) − (d.replicas − maxUnavailable)
               − (newSet.spec.replicas − newSet.status.availableReplicas)

    in [int32] arithmetic; with a budget of 0 or less it again returns the
    old sets unchanged with no write, and with a positive budget it hands
    exactly this budget to the unhealthy cleanup. *)
Theorem reconcileOldMachineSets_budget {collab : Collaborators}
        (allMSs oldMSs : list MachineSet.t) (newMS : MachineSet.t)
        (d : MachineDeployment.t) (dReplicas newReplicas : Z) (w : World) :
  MachineDeployment.replicas d = Some dReplicas ->
  MachineSet.replicas newMS = Some newReplicas ->
  Forall hasCount oldMSs -> Forall hasCount allMSs ->
  let minAvailable := Int32.sub dReplicas (MaxUnavailable d) in
  let newUnavail := Int32.sub newReplicas (MachineSet.available newMS) in
  let budget := Int32.sub (Int32.sub (totalReplicas32 allMSs) minAvailable) newUnavail in
  (totalReplicas32 oldMSs = 0 ->
   reconcileOldMachineSets allMSs oldMSs newMS d w = Some ((oldMSs, None), w))
  /\ (totalReplicas32 oldMSs <> 0 -> budget <= 0 ->
      reconcileOldMachineSets allMSs oldMSs newMS d w = Some ((oldMSs, None), w))
  /\ (totalReplicas32 oldMSs <> 0 -> 0 < budget ->
      reconcileOldMachineSets allMSs oldMSs newMS d w
      = ('(cleaned, _, err) <- cleanupUnhealthyReplicas oldMSs d budget ;;
         match err with
         | Some _ => ret (cleaned, None)
         | None =>
             '(_, scaled, err) <-
               scaleDownOldMachineSetsForRollingUpdate (cleaned ++ [newMS]) cleaned d ;;
             match err with
             | Some e => ret (scaled, Some e)
             | None => ret (scaled, None)
             end
         end) w).
Proof.
  intros Hd Hn Hold Hall minAvailable newUnavail budget.
  rewrite (reconcileOldMachineSets_phases allMSs oldMSs newMS d dReplicas newReplicas w)
    by assumption.
  cbv zeta. fold minAvailable newUnavail budget. repeat split.
  - intros ->. reflexivity.
  - intros Hne Hb. destruct (Z.eqb_spec (totalReplicas32 oldMSs) 0); [contradiction|].
    destruct (Z.leb_spec budget 0); [reflexivity|lia].
  - intros Hne Hb. destruct (Z.eqb_spec (totalReplicas32 oldMSs) 0); [contradiction|].
    destruct (Z.leb_spec budget 0); [lia|reflexivity].
Qed.

(** Seed scenario 4 of the specification: replicas 10, maxUnavailable 2;
    old set A desires 8, new set B desires 5 with none available.
    budget = 13 − 8 − 5 = 0: nothing is written. *)
Lemma reconcileOldMachineSets_budget_witness :
  let A := exampleSet "a" 1 (Some 8) 8 6 6 in
  let B := exampleSet "b" 2 (Some 5) 5 0 0 in
  let d := exampleDeployment 10 2 3 noStatus in
  reconcileOldMachineSets (collab := selecting B [A]) [A; B] [A] B d freshWorld
  = Some (([A], None), freshWorld).
Proof.
  intros A B d.
  refine (proj1 (proj2 (reconcileOldMachineSets_budget (collab := selecting B [A])
                          [A; B] [A] B d 10 5 freshWorld eq_refl eq_refl _ _)) _ _).
  - repeat constructor; discriminate.
  - repeat constructor; discriminate.
  - vm_compute. discriminate.
  - vm_compute. discriminate.
Defined.

(** C7.  For every input and every behaviour of the store, the scale-down
    planner never increases totalReplicas(oldSets).  Each request it sends,
    in the unhealthy cleanup as in the availability-gated phase, is a write
    to one of the old sets exactly as the store holds it at that moment,
    with a count below the count that set desires then; so the total of the
    desired counts the store holds for the old sets after the tick is no
    higher than before it.  The planner returns the old sets as the store
    then holds them, or no set at all (when the cleanup failed).  It fails
    to return only when a desired count it has to sum is absent. *)
Theorem reconcileOldMachineSets_never_scales_up {collab : Collaborators}
        (allMSs oldMSs : list MachineSet.t) (newMS : MachineSet.t)
        (d : MachineDeployment.t) (w : World) :
  match reconcileOldMachineSets allMSs oldMSs newMS d w with
  | Some ((sets, _), w') =>
      exists evs final,
        events w' = events w ++ evs
        /\ loweringTrace oldMSs evs final
        /\ totalReplicas final <= totalReplicas oldMSs
        /\ (sets = [] \/ Permutation final sets)
  | None =>
      GetReplicaCountForMachineSets oldMSs = None
      \/ GetReplicaCountForMachineSets allMSs = None
  end.
Proof.
  assert (Hidle : exists evs final,
             events w = events w ++ evs
             /\ loweringTrace oldMSs evs final
             /\ totalReplicas final <= totalReplicas oldMSs
             /\ (oldMSs = [] \/ Permutation final oldMSs)).
  { exists [], oldMSs. rewrite app_nil_r. repeat split; [lia|now right]. }
  unfold reconcileOldMachineSets.
  destruct (MachineDeployment.replicas d) as [dReplicas|]; [|exact Hidle].
  destruct (MachineSet.replicas newMS) as [newReplicas|]; [|exact Hidle].
  unfold bind at 1, deref at 1.
  destruct (GetReplicaCountForMachineSets oldMSs) as [oldCount|]; [|now left].
  destruct (oldCount =? 0); [exact Hidle|].
  unfold bind at 1, deref at 1.
  destruct (GetReplicaCountForMachineSets allMSs) as [allCount|]; [|now right].
  cbv zeta. destruct (_ <=? 0); [exact Hidle|].
  clear Hidle.
  match goal with
  | |- context [cleanupUnhealthyReplicas oldMSs d ?b] =>
      destruct (cleanupUnhealthyReplicas_trace oldMSs d b w)
        as ([[cleaned count] err] & w1 & evs1 & final1 & E1 & Hev1 & Ht1 & Hres1)
  end.
  unfold bind at 1. rewrite E1. simpl in Hres1.
  destruct err as [e|].
  { exists evs1, final1. split; [exact Hev1|]. split; [exact Ht1|].
    split; [now apply loweringTrace_total with (evs := evs1)|].
    destruct Hres1 as [[_ ->]|Hp]; [now left|now right]. }
  destruct Hres1 as [[Hcontra _]|Hp1]; [now contradiction Hcontra|].
  destruct (scaleDownOldMachineSetsForRollingUpdate_trace (cleaned ++ [newMS]) cleaned d w1)
    as ([[count2 scaled] err2] & w2 & evs2 & final2 & E2 & Hev2 & Ht2 & Hp2).
  unfold bind at 1. rewrite E2. simpl in Hp2.
  destruct (loweringTrace_perm evs2 cleaned final1 final2 (Permutation_sym Hp1) Ht2)
    as (final2' & Ht2' & Hp2').
  assert (Ht : loweringTrace oldMSs (evs1 ++ evs2) final2')
    by (eapply loweringTrace_app; eassumption).
  assert (Hall : exists evs final,
             events w2 = events w ++ evs
             /\ loweringTrace oldMSs evs final
             /\ totalReplicas final <= totalReplicas oldMSs
             /\ (scaled = [] \/ Permutation final scaled)).
  { exists (evs1 ++ evs2), final2'.
    split; [now rewrite Hev2, Hev1, app_assoc|]. split; [exact Ht|].
    split; [now apply loweringTrace_total with (evs := evs1 ++ evs2)|].
    right. eapply Permutation_trans; [apply Permutation_sym; exact Hp2'|exact Hp2]. }
  destruct err2; exact Hall.
Qed.

(** C5.  Whenever the scale-down planner reaches the unhealthy cleanup (the
    old sets desire replicas and the budget is positive) and the cleanup
    returns a non-nil error, the planner returns what the cleanup returned
    with a nil error: the error is dropped.  The tick then goes on: the
    orchestrator runs the completeness check and ensureStatus on that
    result instead of returning the error. *)
Theorem reconcileOldMachineSets_swallows_cleanup_error {collab : Collaborators}
        (d : MachineDeployment.t) (msList : list MachineSet.t) (machineMap : MachineMap)
        (selected newMS : MachineSet.t) (oldMSs cleaned : list MachineSet.t)
        (dReplicas newReplicas count : Z) (e : error) (w0 w1 w w' : World) :
  getAllMachineSetsAndSyncRevision d msList machineMap true w0
  = Some ((selected, oldMSs, None), w1) ->
  reconcileNewMachineSet (oldMSs ++ [selected]) selected d w1 = Some ((newMS, None), w) ->
  MachineDeployment.replicas d = Some dReplicas ->
  MachineSet.replicas newMS = Some newReplicas ->
  Forall hasCount oldMSs -> Forall hasCount (oldMSs ++ [selected]) ->
  totalReplicas32 oldMSs <> 0 ->
  let budget :=
    Int32.sub (Int32.sub (totalReplicas32 (oldMSs ++ [selected]))
                         (Int32.sub dReplicas (MaxUnavailable d)))
              (Int32.sub newReplicas (MachineSet.available newMS)) in
  0 < budget ->
  cleanupUnhealthyReplicas oldMSs d budget w = Some ((cleaned, count, Some e), w') ->
  reconcileOldMachineSets (oldMSs ++ [selected]) oldMSs newMS d w
  = Some ((cleaned, None), w')
  /\ rolloutRolling d msList machineMap w0
     = (err <- (if DeploymentComplete d (MachineDeployment.Status d)
                then cleanupDeployment cleaned d
                else ret None) ;;
        match err with
        | Some e' => ret (Some e')
        | None => '(_, err) <- ensureStatus d newMS cleaned ;; ret err
        end) w'.
Proof.
  intros Hsel Hnew Hd Hn Hold Hall Hne budget Hb Hclean.
  assert (Hrec : reconcileOldMachineSets (oldMSs ++ [selected]) oldMSs newMS d w
                 = Some ((cleaned, None), w')).
  { rewrite (reconcileOldMachineSets_phases _ oldMSs newMS d dReplicas newReplicas w)
      by assumption.
    cbv zeta. fold budget.
    destruct (Z.eqb_spec (totalReplicas32 oldMSs) 0); [contradiction|].
    destruct (Z.leb_spec budget 0); [lia|].
    unfold bind at 1. rewrite Hclean. reflexivity. }
  split; [exact Hrec|].
  unfold rolloutRolling.
  unfold bind at 1. rewrite Hsel. cbv beta iota.
  unfold bind at 1. rewrite Hnew. cbv beta iota.
  unfold bind at 1. rewrite Hrec. reflexivity.
Qed.

(** Replicas 10, maxUnavailable 2; the new set A desires 8 with 6
    available, the old set B desires 5 with none available: the budget is
    13 − 8 − 2 = 3.  The store refuses the write that would scale B to 2,
    the cleanup returns that error, and the planner returns none. *)
Lemma reconcileOldMachineSets_swallows_cleanup_error_witness :
  let A := exampleSet "a" 1 (Some 8) 8 6 6 in
  let B := exampleSet "b" 2 (Some 5) 5 0 0 in
  let d := exampleDeployment 10 2 3 noStatus in
  let refusing := mkWorld [] [true] in
  let refused := mkWorld [EvScale B 2 false] [] in
  reconcileOldMachineSets (collab := selecting A [B]) [B; A] [B] A d refusing
  = Some (([], None), refused)
  /\ rolloutRolling (collab := selecting A [B]) d [A; B] tt refusing
     = Some (None, mkWorld [EvScale B 2 false;
                            EvStatus (MachineDeployment.withStatus d
                                        (aggregatedStatus d 10 A [])) true] []).
Proof.
  intros A B d refusing refused.
  pose proof (reconcileOldMachineSets_swallows_cleanup_error
                (collab := selecting A [B]) d [A; B] tt A A [B] [] 10 8 0 ErrStore
                refusing refusing refusing refused
                eq_refl eq_refl eq_refl eq_refl) as H.
  assert (H1 : Forall hasCount [B]) by (repeat constructor; discriminate).
  assert (H2 : Forall hasCount ([B] ++ [A])) by (repeat constructor; discriminate).
  assert (H3 : totalReplicas32 [B] <> 0) by (vm_compute; discriminate).
  specialize (H H1 H2 H3 eq_refl eq_refl).
  destruct H as [Ha Hb]. split; [exact Ha|]. rewrite Hb. reflexivity.
Defined.

(** C6.  For a deployment with a present desired count: when the new set
    desires exactly that count, the scale-up planner returns the new set
    unchanged, without error and without a request to the store; when the
    new set desires more, the planner sends one write, which asks for
    exactly the deployment's count, and returns the new set with that count
    if the store accepts the write. *)
Theorem reconcileNewMachineSet_equal_or_above {collab : Collaborators}
        (allMSs : list MachineSet.t) (newMS : MachineSet.t) (d : MachineDeployment.t)
        (dReplicas newReplicas : Z) (w : World) :
  MachineDeployment.replicas d = Some dReplicas ->
  MachineSet.replicas newMS = Some newReplicas ->
  (newReplicas = dReplicas ->
   reconcileNewMachineSet allMSs newMS d w = Some ((newMS, None), w))
  /\ (newReplicas > dReplicas ->
      exists (accepted : bool) (w' : World),
        events w' = events w ++ [EvScale newMS dReplicas accepted]
        /\ reconcileNewMachineSet allMSs newMS d w
           = Some (if accepted
                   then (MachineSet.withReplicas newMS dReplicas, None)
                   else (newMS, Some ErrStore), w')).
Proof.
  intros Hd Hn. unfold reconcileNewMachineSet. rewrite Hd, Hn. split.
  - intros ->. now rewrite Z.eqb_refl.
  - intros Hgt.
    destruct (Z.eqb_spec newReplicas dReplicas); [lia|].
    destruct (Z.gtb_spec newReplicas dReplicas); [|lia].
    unfold scaleMachineSet. rewrite Hn.
    destruct (Z.eqb_spec newReplicas dReplicas); [lia|].
    destruct (request_events (EvScale newMS dReplicas) w) as (acc & w' & Hreq & Hev).
    exists acc, w'. split; [exact Hev|].
    unfold bind. rewrite Hreq. now destruct acc.
Qed.

(** Seed scenario 5 of the specification: the deployment desires 2, the new
    set desires 3: the planner scales the new set down to 2. *)
Lemma reconcileNewMachineSet_equal_or_above_witness :
  let N := exampleSet "n" 1 (Some 3) 3 3 3 in
  let d := exampleDeployment 2 0 1 noStatus in
  exists (accepted : bool) (w' : World),
    events w' = events freshWorld ++ [EvScale N 2 accepted]
    /\ reconcileNewMachineSet (collab := selecting N []) [N] N d freshWorld
       = Some (if accepted
               then (MachineSet.withReplicas N 2, None)
               else (N, Some ErrStore), w').
Proof.
  intros N d.
  apply (proj2 (reconcileNewMachineSet_equal_or_above (collab := selecting N [])
                  [N] N d 2 3 freshWorld eq_refl eq_refl)).
  reflexivity.
Defined.

(** C3 (as the code has it).  For a deployment with a present desired
    count, with minAvailable = d.replicas − maxUnavailable and available =
    totalAvailable(allSets): when available ≤ minAvailable, the
    availability-gated scale-down writes nothing and returns 0 and the old
    sets as they are.  Otherwise, with quota = available − minAvailable,
    every run that returns no error has carried out the plan of the
    specification on the old sets in ascending creation order: each set with
    spec.replicas > 0 is reduced by min(spec.replicas, remaining quota)
    until the quota is exhausted, by one accepted write per reduced set,
    and the count returned is the total reduction.  The run returns no
    error when the desired counts of the old sets are present and not
    negative and the store accepts the writes. *)
Theorem scaleDownOldMachineSetsForRollingUpdate_plan {collab : Collaborators}
        (allMSs oldMSs : list MachineSet.t) (d : MachineDeployment.t)
        (dReplicas : Z) (w : World) :
  MachineDeployment.replicas d = Some dReplicas ->
  let minAvailable := Int32.sub dReplicas (MaxUnavailable d) in
  let available := GetAvailableReplicaCountForMachineSets allMSs in
  (available <= minAvailable ->
   scaleDownOldMachineSetsForRollingUpdate allMSs oldMSs d w
   = Some ((0, oldMSs, None), w))
  /\ (minAvailable < available ->
      let quota := Int32.sub available minAvailable in
      let sorted := sortByCreationTimestamp oldMSs in
      let plan := scaleDownPlan quota sorted in
      Sorted creationLe sorted /\ Permutation oldMSs sorted
      /\ (Forall countTyped oldMSs ->
          forall (count : Z) (sets : list MachineSet.t) (w' : World),
            scaleDownOldMachineSetsForRollingUpdate allMSs oldMSs d w
            = Some ((count, sets, None), w') ->
            sets = plan
            /\ count = totalReplicas sorted - totalReplicas plan
            /\ events w' = events w ++ writesBetween sorted plan)
      /\ (Forall countWellFormed oldMSs -> accepting w ->
          scaleDownOldMachineSetsForRollingUpdate allMSs oldMSs d w
          = Some ((totalReplicas sorted - totalReplicas plan, plan, None),
                  afterRequests w (writesBetween sorted plan)))).
Proof.
  intros Hd minAvailable available.
  unfold scaleDownOldMachineSetsForRollingUpdate. rewrite Hd.
  fold minAvailable available. split.
  - intros Hle. destruct (Z.leb_spec available minAvailable); [reflexivity|lia].
  - intros Hlt.
    split; [apply sortByCreationTimestamp_sorted|].
    split; [apply sortByCreationTimestamp_perm|].
    destruct (Z.leb_spec available minAvailable); [lia|].
    set (quota := Int32.sub available minAvailable).
    set (sorted := sortByCreationTimestamp oldMSs).
    assert (Hin : forall P : MachineSet.t -> Prop, Forall P oldMSs -> Forall P sorted).
    { intros P HP. apply Forall_forall. intros x Hx. rewrite Forall_forall in HP.
      apply HP. now apply sortByCreationTimestamp_incl. }
    split.
    + intros Hty count sets w' Hrun.
      apply scaleDownLoop_success in Hrun; [|apply wrap_in_range|now apply Hin|lia].
      cbv zeta in Hrun. rewrite Z.sub_0_r in Hrun. exact Hrun.
    + intros Hwf Hw.
      rewrite (scaleDownLoop_plan d quota sorted [] 0 w (wrap_in_range _) (Hin _ Hwf))
        by (lia || assumption).
      rewrite Z.sub_0_r. reflexivity.
Qed.

(** Seed scenario 3 of the specification: replicas 3, maxUnavailable 0; the
    old set A desires 3 and has 3 available, the new set B has 1 available:
    available = 4, quota = 1, and A is scaled to 2. *)
Lemma scaleDownOldMachineSetsForRollingUpdate_plan_witness :
  let A := exampleSet "a" 1 (Some 3) 3 3 3 in
  let B := exampleSet "b" 2 (Some 1) 1 1 1 in
  let d := exampleDeployment 3 0 1 noStatus in
  scaleDownOldMachineSetsForRollingUpdate (collab := selecting B [A]) [A; B] [A] d freshWorld
  = Some ((1, [MachineSet.withReplicas A 2], None), mkWorld [EvScale A 2 true] []).
Proof.
  intros A B d.
  assert (Hwf : Forall countWellFormed [A]).
  { repeat constructor. exists 3. split; [reflexivity|]. unfold Int32.max_int. lia. }
  assert (Hlt : Int32.sub 3 (MaxUnavailable (Collaborators := selecting B [A]) d)
                < GetAvailableReplicaCountForMachineSets [A; B]) by (vm_compute; reflexivity).
  exact (proj2 (proj2 (proj2 (proj2 (scaleDownOldMachineSetsForRollingUpdate_plan
                                       (collab := selecting B [A]) [A; B] [A] d 3 freshWorld
                                       eq_refl)
                                    Hlt)))
               Hwf eq_refl).
Defined.

(** C3 as stated fails on a list with an old set whose desired count is
    nil: replicas 1, maxUnavailable 0, 11 replicas of the new set N
    available, so the quota is 10.  The old sets A, B, C were created in
    this order; A and C desire 3 replicas, the desired count of B is nil.
    By the claim A and C are reduced to 0 and the count returned is the
    total reduction.  The code scales A to 0, returns at B with the error
    for a nil count and the count 0, and leaves C as it is. *)
Lemma scaleDownOldMachineSetsForRollingUpdate_aborts :
  let A := exampleSet "a" 1 (Some 3) 3 0 0 in
  let B := exampleSet "b" 2 None 0 0 0 in
  let C := exampleSet "c" 3 (Some 3) 3 0 0 in
  let N := exampleSet "n" 4 (Some 11) 11 11 11 in
  let d := exampleDeployment 1 0 1 noStatus in
  scaleDownPlan 10 (sortByCreationTimestamp [C; B; A])
  = [MachineSet.withReplicas A 0; B; MachineSet.withReplicas C 0]
  /\ scaleDownOldMachineSetsForRollingUpdate (collab := selecting N [C; B; A])
       [C; B; A; N] [C; B; A] d freshWorld
     = Some ((0, [MachineSet.withReplicas A 0; B; C], Some (ErrMachineSetReplicasNil "b")),
             mkWorld [EvScale A 0 true] []).
Proof. split; reflexivity. Qed.

(** C4 (as the code has it).  For a budget that is a non-negative [int32]
    and old sets whose counts are non-negative [int32]s, every run of the
    unhealthy cleanup that returns no error has carried out the plan of the
    specification on the old sets in ascending creation order: each set
    with spec.replicas > status.availableReplicas and spec.replicas > 0 is
    reduced by min(remaining budget, spec.replicas −
    status.availableReplicas), by one accepted write per reduced set, sets
    with spec.replicas = 0 or spec.replicas = status.availableReplicas are
    skipped, and the count returned is the total amount cleaned.  The run
    returns no error when every old set falls in one of these three cases
    and the store accepts the writes. *)
Theorem cleanupUnhealthyReplicas_plan
        (oldMSs : list MachineSet.t) (d : MachineDeployment.t)
        (maxCleanupCount : Z) (w : World) :
  0 <= maxCleanupCount <= Int32.max_int ->
  let sorted := sortByCreationTimestamp oldMSs in
  let plan := cleanupPlan maxCleanupCount sorted in
  Sorted creationLe sorted /\ Permutation oldMSs sorted
  /\ (Forall countsNotNegative oldMSs ->
      forall (count : Z) (sets : list MachineSet.t) (w' : World),
        cleanupUnhealthyReplicas oldMSs d maxCleanupCount w
        = Some ((sets, count, None), w') ->
        sets = plan
        /\ count = totalReplicas sorted - totalReplicas plan
        /\ events w' = events w ++ writesBetween sorted plan)
  /\ (Forall cleanupCase oldMSs -> accepting w ->
      cleanupUnhealthyReplicas oldMSs d maxCleanupCount w
      = Some ((plan, totalReplicas sorted - totalReplicas plan, None),
              afterRequests w (writesBetween sorted plan))).
Proof.
  intros Hmax sorted plan.
  split; [apply sortByCreationTimestamp_sorted|].
  split; [apply sortByCreationTimestamp_perm|].
  unfold cleanupUnhealthyReplicas. fold sorted.
  assert (Hin : forall P : MachineSet.t -> Prop, Forall P oldMSs -> Forall P sorted).
  { intros P HP. apply Forall_forall. intros x Hx. rewrite Forall_forall in HP.
    apply HP. now apply sortByCreationTimestamp_incl. }
  split.
  - intros Hnn count sets w' Hrun.
    apply cleanupLoop_success in Hrun; [|now apply Hin|lia|lia].
    cbv zeta in Hrun. rewrite Z.sub_0_r in Hrun. exact Hrun.
  - intros Hcases Hw.
    rewrite (cleanupLoop_plan d maxCleanupCount sorted [] 0 w)
      by (int32_range || assumption || now apply Hin).
    rewrite Z.sub_0_r. reflexivity.
Qed.

(** A budget of 3 and two old sets: B, created first, desires 5 with none
    available; C desires 4 with 3 available.  B is scaled to 2, which uses
    the budget up, and C is left as it is. *)
Lemma cleanupUnhealthyReplicas_plan_witness :
  let B := exampleSet "b" 1 (Some 5) 5 0 0 in
  let C := exampleSet "c" 2 (Some 4) 4 3 3 in
  let d := exampleDeployment 10 2 3 noStatus in
  cleanupUnhealthyReplicas [C; B] d 3 freshWorld
  = Some (([MachineSet.withReplicas B 2; C], 3, None), mkWorld [EvScale B 2 true] []).
Proof.
  intros B C d.
  assert (Hmax : 0 <= 3 <= Int32.max_int) by (unfold Int32.max_int; lia).
  assert (Hcases : Forall cleanupCase [C; B]).
  { repeat constructor.
    - exists 4. split; [reflexivity|]. split; [int32_range|].
      right. right. vm_compute. intuition discriminate.
    - exists 5. split; [reflexivity|]. split; [int32_range|].
      right. right. vm_compute. intuition discriminate. }
  exact (proj2 (proj2 (proj2 (cleanupUnhealthyReplicas_plan [C; B] d 3 freshWorld Hmax)))
               Hcases eq_refl).
Defined.

(** C4 as stated fails on a list with an old set that has more available
    than desired replicas: a budget of 3; the old set A, created first,
    desires 1 replica and has 3 available; the old set B desires 5 and has
    none available.  By the claim B is reduced by min(3, 5) = 3; the code
    computes for A the reduction min(3, 1 − 3) = −2 and the count 3 > 1,
    returns the invalid-request error, and leaves B as it is. *)
Lemma cleanupUnhealthyReplicas_aborts :
  let A := exampleSet "a" 1 (Some 1) 3 3 3 in
  let B := exampleSet "b" 2 (Some 5) 5 0 0 in
  let d := exampleDeployment 10 2 3 noStatus in
  cleanupPlan 3 (sortByCreationTimestamp [B; A]) = [A; MachineSet.withReplicas B 2]
  /\ cleanupUnhealthyReplicas [B; A] d 3 freshWorld
     = Some (([], 0, Some (ErrCleanupInvalidScaleDown "default" "a" 1 3)), freshWorld).
Proof. split; reflexivity. Qed.

(** C8.  For a deployment with a present desired count, the status
    ensureStatus computes has updatedReplicas = newSet.status.replicas;
    replicas, readyReplicas and availableReplicas the [int32] sums of the
    corresponding status fields over the old sets and the new set (the
    plain sums whenever these fit an [int32]); unavailableReplicas =
    max(0, d.replicas − availableReplicas); observedGeneration =
    d.generation.  When the deployment already carries this status, nothing
    is sent to the store; when it differs, exactly one status write, of the
    deployment with this status, is sent. *)
Theorem ensureStatus_aggregates (md : MachineDeployment.t) (newMS : MachineSet.t)
        (oldMSs : list MachineSet.t) (dReplicas : Z) (w : World) :
  MachineDeployment.replicas md = Some dReplicas ->
  let owned := oldMSs ++ [newMS] in
  let sumOver (f : MachineSetStatus.t -> Z) :=
    sumZ (map (fun ms => f (MachineSet.Status ms)) owned) in
  let available := Int32.wrap (sumOver MachineSetStatus.AvailableReplicas) in
  let st :=
    MachineDeploymentStatus.Build
      (MachineDeployment.Generation md)
      (Int32.wrap (sumOver MachineSetStatus.Replicas))
      (MachineSetStatus.Replicas (MachineSet.Status newMS))
      (Int32.wrap (sumOver MachineSetStatus.ReadyReplicas))
      available
      (Z.max 0 (Int32.sub dReplicas available)) in
  (MachineDeployment.Status md = st ->
   ensureStatus md newMS oldMSs w = Some ((md, None), w))
  /\ (MachineDeployment.Status md <> st ->
      exists (accepted : bool) (w' : World),
        ensureStatus md newMS oldMSs w
        = Some ((MachineDeployment.withStatus md st,
                 if accepted then None else Some ErrStore), w')
        /\ events w' = events w ++ [EvStatus (MachineDeployment.withStatus md st) accepted])
  /\ (forall f, Int32.in_range (sumOver f) -> Int32.wrap (sumOver f) = sumOver f).
Proof.
  intros Hr owned sumOver available st.
  destruct (ensureStatus_spec md newMS oldMSs dReplicas w Hr) as [Hsame Hdiff].
  split; [exact Hsame|]. split; [exact Hdiff|].
  intros f. apply wrap_exact.
Qed.

(** A deployment of 3 replicas that carries no status yet, its new set with
    3 replicas of which 2 are ready and available, and an old set with 1
    replica. *)
Lemma ensureStatus_aggregates_witness :
  let N := exampleSet "n" 2 (Some 3) 3 2 2 in
  let O := exampleSet "o" 1 (Some 1) 1 1 1 in
  let d := exampleDeployment 3 0 1 noStatus in
  let st := MachineDeploymentStatus.Build 1 4 3 3 3 0 in
  exists (accepted : bool) (w' : World),
    ensureStatus d N [O] freshWorld
    = Some ((MachineDeployment.withStatus d st,
             if accepted then None else Some ErrStore), w')
    /\ events w' = events freshWorld ++ [EvStatus (MachineDeployment.withStatus d st) accepted].
Proof.
  intros N O d st.
  apply (proj1 (proj2 (ensureStatus_aggregates d N [O] 3 freshWorld eq_refl))).
  discriminate.
Defined.




(** C9.  The validator accepts a maxUnavailable given as the string "5",
    which is neither an integer nor of the form N%: getIntOrPercent deletes
    the percent signs of a string and parses what is left, so the string
    counts as 5%.  The message of ValidatePositiveIntOrPercent, "value
    should be int(5) or percentage(5%)", says that such a value is to be
    rejected. *)
Theorem ValidateMachineRollingUpdateDeployment_accepts_bare_number :
  utilvalidation.IsValidPercent "5" <> []
  /\ ValidateMachineRollingUpdateDeployment
       (MachineRollingUpdateDeployment.Build (Some (IntOrString.FromString "5")) None)
       ["spec"; "strategy"; "rollingUpdate"]%string
     = [].
Proof. split; [discriminate|reflexivity]. Qed.

(** C10 (as the code has it).  The guard of the availability-gated
    scale-down against an invalid request never fires when every old set
    whose desired count is present desires a non-negative [int32]: every
    count the function then asks the store to write is strictly below the
    count its target desires.  The guard of the unhealthy cleanup never
    fires when the budget is an [int32] and every old set whose desired
    count is present has status.availableReplicas ≤ spec.replicas, both
    [int32]s and their difference too.  Both functions return under these
    conditions, whatever the store does. *)
Theorem invalid_scale_down_unreachable {collab : Collaborators}
        (allMSs oldMSs : list MachineSet.t) (d : MachineDeployment.t)
        (maxCleanupCount : Z) (w : World) :
  (Forall countNotNegative oldMSs ->
   match scaleDownOldMachineSetsForRollingUpdate allMSs oldMSs d w with
   | Some (res, w') =>
       isInvalidScaleDown (snd res) = false /\ extends (lowering oldMSs) w w'
   | None => False
   end)
  /\ (Int32.in_range maxCleanupCount -> Forall availableWithinDesired oldMSs ->
      match cleanupUnhealthyReplicas oldMSs d maxCleanupCount w with
      | Some (res, w') =>
          isInvalidScaleDown (snd res) = false /\ extends (lowering oldMSs) w w'
      | None => False
      end).
Proof.
  split.
  - intros Hall.
    destruct (scaleDownOldMachineSetsForRollingUpdate_log allMSs oldMSs d w)
      as (res & w' & E & Hext & _). rewrite E. split; [|exact Hext].
    revert E. unfold scaleDownOldMachineSetsForRollingUpdate.
    destruct (MachineDeployment.replicas d) as [dReplicas|]; [|intros [= <- _]; reflexivity].
    destruct (_ <=? _); [intros [= <- _]; reflexivity|].
    cbv zeta. apply scaleDownLoop_valid; [apply wrap_in_range| |lia].
    apply Forall_forall. intros x Hx. rewrite Forall_forall in Hall.
    apply Hall. now apply sortByCreationTimestamp_incl.
  - intros Hmax Hall.
    destruct (cleanupUnhealthyReplicas_log oldMSs d maxCleanupCount w)
      as (res & w' & E & Hext & _). rewrite E. split; [|exact Hext].
    revert E. unfold cleanupUnhealthyReplicas.
    apply cleanupLoop_valid; [assumption| |lia].
    apply Forall_forall. intros x Hx. rewrite Forall_forall in Hall.
    apply Hall. now apply sortByCreationTimestamp_incl.
Qed.

(** Replicas 3, maxUnavailable 0; the old set A desires 3 with 1 available,
    the new set B has 3 available.  Neither guard fires. *)
Lemma invalid_scale_down_unreachable_witness :
  let A := exampleSet "a" 1 (Some 3) 3 1 1 in
  let B := exampleSet "b" 2 (Some 3) 3 3 3 in
  let d := exampleDeployment 3 0 1 noStatus in
  match scaleDownOldMachineSetsForRollingUpdate (collab := selecting B [A])
          [A; B] [A] d freshWorld with
  | Some (res, w') =>
      isInvalidScaleDown (snd res) = false /\ extends (lowering [A]) freshWorld w'
  | None => False
  end
  /\ match cleanupUnhealthyReplicas [A] d 2 freshWorld with
     | Some (res, w') =>
         isInvalidScaleDown (snd res) = false /\ extends (lowering [A]) freshWorld w'
     | None => False
     end.
Proof.
  intros A B d.
  destruct (invalid_scale_down_unreachable (collab := selecting B [A])
              [A; B] [A] d 2 freshWorld) as [H1 H2].
  split.
  - apply H1. constructor; [|constructor].
    intros r [= <-]. vm_compute. intuition discriminate.
  - apply H2; [int32_range|]. constructor; [|constructor].
    intros r [= <-]. vm_compute. intuition discriminate.
Defined.

(** C10 as stated fails: an old set that desires −1 replicas reaches the
    guard of the availability-gated scale-down.  Replicas 1, maxUnavailable
    0, 3 replicas of the new set available: the quota is 2, the reduction
    min(−1, 2) = −1, and the new count 0 exceeds −1. *)
Lemma invalid_scale_down_reached :
  let A := exampleSet "a" 1 (Some (-1)) 0 0 0 in
  let N := exampleSet "n" 2 (Some 3) 3 3 3 in
  let d := exampleDeployment 1 0 1 noStatus in
  scaleDownOldMachineSetsForRollingUpdate (collab := selecting N [A]) [A; N] [A] d freshWorld
  = Some ((0, [A], Some (ErrInvalidScaleDown "default" "a" (-1) 0)), freshWorld).
Proof. reflexivity. Qed.

(* ================================================================= *)
(** * Further properties of the planners *)

(** A scale request that returns has sent at most one event, a write of
    another count to [ms]. *)
Lemma scaleMachineSet_request (ms ms' : MachineSet.t) (n : Z) (d : MachineDeployment.t)
      (scaled : bool) (err : option error) (w w' : World) :
  scaleMachineSet ms n d w = Some ((scaled, ms', err), w') ->
  exists evs, events w' = events w ++ evs /\ atMostOneScaleOf ms evs (ms', err).
Proof.
  unfold scaleMachineSet.
  destruct (MachineSet.replicas ms) as [r|] eqn:Hr.
  2:{ intros [= <- <- <- <-]. exists []. rewrite app_nil_r. split; [reflexivity|now left]. }
  destruct (Z.eqb_spec r n) as [->|Hne].
  { intros [= <- <- <- <-]. exists []. rewrite app_nil_r. split; [reflexivity|now left]. }
  destruct (request_events (EvScale ms n) w) as (acc & w1 & Hreq & Hev).
  unfold bind. rewrite Hreq.
  assert (Hother : MachineSet.replicas ms <> Some n) by congruence.
  destruct acc; intros [= <- <- <- <-].
  - exists [EvScale ms n true]. split; [exact Hev|]. right. exists n. auto.
  - exists [EvScale ms n false]. split; [exact Hev|]. right. exists n. auto.
Qed.

(** X1.  Whenever the scale-up planner returns, it has sent at most one
    request to the store, and that request is a write of another count to
    the new set: it never writes to an old set.  It returns the new set with
    the written count when the write was accepted, and the new set as it was
    otherwise. *)
Theorem reconcileNewMachineSet_touches_new_set_only {collab : Collaborators}
        (allMSs : list MachineSet.t) (newMS : MachineSet.t) (d : MachineDeployment.t)
        (res : MachineSet.t * option error) (w w' : World) :
  reconcileNewMachineSet allMSs newMS d w = Some (res, w') ->
  exists evs : list Event,
    events w' = events w ++ evs /\ atMostOneScaleOf newMS evs res.
Proof.
  assert (Hquiet : forall e : option error,
             ret (newMS, e) w = Some (res, w') ->
             exists evs : list Event,
               events w' = events w ++ evs /\ atMostOneScaleOf newMS evs res).
  { intros e [= <- <-]. exists []. rewrite app_nil_r. split; [reflexivity|now left]. }
  assert (Hscale : forall n : Z,
             ('(_, newMS', err) <- scaleMachineSet newMS n d ;; ret (newMS', err)) w
             = Some (res, w') ->
             exists evs : list Event,
               events w' = events w ++ evs /\ atMostOneScaleOf newMS evs res).
  { intros n. unfold bind.
    destruct (scaleMachineSet newMS n d w) as [[[[scaled ms'] err] w1]|] eqn:E;
      [|discriminate].
    intros [= <- <-]. exact (scaleMachineSet_request _ _ _ _ _ _ _ _ E). }
  unfold reconcileNewMachineSet.
  destruct (MachineDeployment.replicas d) as [dReplicas|]; [|apply Hquiet].
  destruct (MachineSet.replicas newMS) as [newReplicas|]; [|apply Hquiet].
  destruct (newReplicas =? dReplicas); [apply Hquiet|].
  destruct (newReplicas >? dReplicas); [apply Hscale|].
  destruct (NewMSNewReplicas d allMSs newMS) as [n [e|]]; [apply Hquiet|apply Hscale].
Qed.

(** Replicas 3, maxSurge 1; the old set A desires 3, the new set B none yet:
    the planner asks for one replica of B, and the store accepts. *)
Lemma reconcileNewMachineSet_touches_new_set_only_witness :
  let A := exampleSet "a" 1 (Some 3) 3 3 3 in
  let B := exampleSet "b" 2 (Some 0) 0 0 0 in
  exists evs : list Event,
    events (mkWorld [EvScale B 1 true] []) = events freshWorld ++ evs
    /\ atMostOneScaleOf B evs (MachineSet.withReplicas B 1, None).
Proof.
  intros A B.
  apply (reconcileNewMachineSet_touches_new_set_only (collab := selecting B [A])
           [A; B] B (exampleDeployment 3 0 1 noStatus)
           (MachineSet.withReplicas B 1, None) freshWorld (mkWorld [EvScale B 1 true] [])).
  reflexivity.
Defined.

(** X2.  A deployment whose desired count is nil: ensureStatus, which
    reads the count without a check, panics; the orchestrator never gets
    that far, because the scale-up planner, which runs first, checks the
    count: once the revision selector has returned without error, the tick
    ends with the planner's error and sends nothing to the store. *)
Theorem rolloutRolling_nil_replicas {collab : Collaborators}
        (d : MachineDeployment.t) (msList : list MachineSet.t) (machineMap : MachineMap)
        (newMS : MachineSet.t) (oldMSs : list MachineSet.t) (w0 w1 : World) :
  MachineDeployment.replicas d = None ->
  getAllMachineSetsAndSyncRevision d msList machineMap true w0
  = Some ((newMS, oldMSs, None), w1) ->
  ensureStatus d newMS oldMSs w1 = None
  /\ rolloutRolling d msList machineMap w0
     = Some (Some (ErrDeploymentReplicasNil (MachineDeployment.Name d)), w1).
Proof.
  intros Hd Hsel. split.
  - unfold ensureStatus, bind, deref. now rewrite Hd.
  - unfold rolloutRolling. unfold bind at 1. rewrite Hsel. cbv beta iota.
    unfold reconcileNewMachineSet. rewrite Hd. reflexivity.
Qed.

Lemma rolloutRolling_nil_replicas_witness :
  let N := exampleSet "n" 1 (Some 3) 3 3 3 in
  let d := MachineDeployment.Build "web" "default" 1
             (MachineDeploymentSpec.Build None None) noStatus in
  ensureStatus d N [] freshWorld = None
  /\ rolloutRolling (collab := selecting N []) d [N] tt freshWorld
     = Some (Some (ErrDeploymentReplicasNil "web"), freshWorld).
Proof.
  intros N d.
  exact (rolloutRolling_nil_replicas (collab := selecting N []) d [N] tt N []
           freshWorld freshWorld eq_refl eq_refl).
Defined.

Lemma cleanupLoop_healthy (d : MachineDeployment.t) (maxCleanupCount : Z)
      (todo done : list MachineSet.t) (total : Z) (w : World) :
  Forall healthy todo ->
  cleanupLoop d maxCleanupCount done todo total w = Some ((done ++ todo, total, None), w).
Proof.
  intros Hall. revert done.
  induction Hall as [|ms rest (r & Hr & Hcase) _ IH]; intros done; simpl.
  - now rewrite app_nil_r.
  - rewrite Hr. destruct (total >=? maxCleanupCount); [reflexivity|].
    assert (Hnext : cleanupLoop d maxCleanupCount (done ++ [ms]) rest total w
                    = Some ((done ++ ms :: rest, total, None), w))
      by (now rewrite IH, <- app_assoc).
    destruct (Z.eqb_spec r 0); [exact Hnext|].
    destruct (Z.eqb_spec r (MachineSet.available ms)); [exact Hnext|].
    destruct Hcase; contradiction.
Qed.

(** X3.  When every old set is healthy (all the replicas it desires are
    available, or it desires none), the unhealthy cleanup sends nothing to
    the store, for every budget and whatever the store would answer: it
    returns the old sets, in ascending creation order, a count of 0 and no
    error. *)
Theorem cleanupUnhealthyReplicas_healthy (oldMSs : list MachineSet.t)
        (d : MachineDeployment.t) (maxCleanupCount : Z) (w : World) :
  Forall healthy oldMSs ->
  cleanupUnhealthyReplicas oldMSs d maxCleanupCount w
  = Some ((sortByCreationTimestamp oldMSs, 0, None), w).
Proof.
  intros Hall. unfold cleanupUnhealthyReplicas.
  apply (cleanupLoop_healthy d maxCleanupCount (sortByCreationTimestamp oldMSs) [] 0 w).
  apply Forall_forall. intros x Hx. rewrite Forall_forall in Hall.
  apply Hall. now apply sortByCreationTimestamp_incl.
Qed.

Lemma cleanupUnhealthyReplicas_healthy_witness :
  let A := exampleSet "a" 2 (Some 3) 3 3 3 in
  let B := exampleSet "b" 1 (Some 0) 0 0 0 in
  let d := exampleDeployment 3 0 1 noStatus in
  cleanupUnhealthyReplicas [A; B] d 5 (mkWorld [] [true])
  = Some (([B; A], 0, None), mkWorld [] [true]).
Proof.
  intros A B d.
  apply (cleanupUnhealthyReplicas_healthy [A; B] d 5 (mkWorld [] [true])).
  constructor; [|constructor; [|constructor]].
  - exists 3. split; [reflexivity|now right].
  - exists 0. split; [reflexivity|now left].
Defined.

(** ** What the plans take away *)

Lemma onlyUnhealthyRemoved_refl (ms : MachineSet.t) : onlyUnhealthyRemoved ms ms.
Proof. split; [apply rescaled_refl|now left]. Qed.

Lemma scaledDown_refl (ms : MachineSet.t) : scaledDown ms ms.
Proof. split; [apply rescaled_refl|now left]. Qed.

Lemma Forall2_same {A} (R : A -> A -> Prop) (l : list A) :
  (forall x, R x x) -> Forall2 R l l.
Proof. intros HR. induction l; constructor; auto. Qed.

Lemma cleanupPlan_bounds (l : list MachineSet.t) (b : Z) :
  0 <= b ->
  Forall2 onlyUnhealthyRemoved l (cleanupPlan b l)
  /\ 0 <= totalReplicas l - totalReplicas (cleanupPlan b l) <= b.
Proof.
  revert b. induction l as [|ms l IH]; intros b Hb; simpl.
  - split; [constructor|]. unfold totalReplicas; simpl. lia.
  - destruct (MachineSet.replicas ms) as [r|] eqn:Hr.
    2:{ destruct (IH b Hb) as [H2 Hsum]. rewrite !totalReplicas_cons.
        split; [constructor; [apply onlyUnhealthyRemoved_refl|exact H2]|lia]. }
    destruct ((MachineSet.available ms <? r) && (0 <? r)) eqn:E.
    + apply andb_prop in E. destruct E as [E1 E2].
      apply Z.ltb_lt in E1. apply Z.ltb_lt in E2.
      set (delta := Z.min b (r - MachineSet.available ms)).
      assert (Hdelta : 0 <= delta <= b /\ delta <= r - MachineSet.available ms)
        by (unfold delta; lia).
      destruct (IH (b - delta)) as [H2 Hsum]; [lia|].
      rewrite !totalReplicas_cons, desired_withReplicas, (desired_Some ms r Hr).
      split; [|lia]. constructor; [|exact H2].
      split; [right; now exists (r - delta)|].
      rewrite desired_withReplicas, (desired_Some ms r Hr).
      destruct (Z.eq_dec delta 0); [left|right]; lia.
    + destruct (IH b Hb) as [H2 Hsum]. rewrite !totalReplicas_cons.
      split; [constructor; [apply onlyUnhealthyRemoved_refl|exact H2]|lia].
Qed.

Lemma scaleDownPlan_exhausted (l : list MachineSet.t) (q : Z) :
  q <= 0 -> scaleDownPlan q l = l.
Proof.
  intros Hq. destruct l; simpl; [reflexivity|].
  destruct (Z.leb_spec q 0); [reflexivity|lia].
Qed.

Lemma scaleDownPlan_bounds (l : list MachineSet.t) (q : Z) :
  Forall2 scaledDown l (scaleDownPlan q l)
  /\ 0 <= totalReplicas l - totalReplicas (scaleDownPlan q l) <= Z.max 0 q.
Proof.
  revert q. induction l as [|ms l IH]; intros q; simpl.
  - split; [constructor|]. unfold totalReplicas; simpl. lia.
  - destruct (Z.leb_spec q 0) as [Hq|Hq].
    { split; [apply Forall2_same, scaledDown_refl|lia]. }
    assert (Hskip :
      Forall2 scaledDown (ms :: l) (ms :: scaleDownPlan q l)
      /\ 0 <= totalReplicas (ms :: l) - totalReplicas (ms :: scaleDownPlan q l)
         <= Z.max 0 q).
    { destruct (IH q) as [H2 Hsum]. rewrite !totalReplicas_cons.
      split; [constructor; [apply scaledDown_refl|exact H2]|lia]. }
    destruct (MachineSet.replicas ms) as [r|] eqn:Hr; [|exact Hskip].
    destruct (Z.ltb_spec 0 r) as [Hpos|_]; [|exact Hskip].
    clear Hskip.
    set (delta := Z.min r q).
    assert (Hdelta : 0 < delta <= r /\ delta <= q) by (unfold delta; lia).
    destruct (IH (q - delta)) as [H2 Hsum].
    rewrite !totalReplicas_cons, desired_withReplicas, (desired_Some ms r Hr).
    split; [|lia]. constructor; [|exact H2].
    split; [right; now exists (r - delta)|].
    rewrite desired_withReplicas, (desired_Some ms r Hr). right. lia.
Qed.

Lemma scaleDownPlan_oldest_first (older newer : list MachineSet.t) (q : Z) :
  exists p1 p2,
    scaleDownPlan q (older ++ newer) = p1 ++ p2
    /\ List.length p1 = List.length older
    /\ (p2 = newer \/ Forall drained p1).
Proof.
  revert q. induction older as [|ms older IH]; intros q.
  - exists [], (scaleDownPlan q newer). repeat split. right. constructor.
  - assert (Hstop : forall head : MachineSet.t,
               exists p1 p2,
                 head :: older ++ newer = p1 ++ p2
                 /\ List.length p1 = List.length (ms :: older)
                 /\ (p2 = newer \/ Forall drained p1)).
    { intros head. exists (head :: older), newer. repeat split. now left. }
    assert (Hgo : forall (head : MachineSet.t) (q' : Z),
               drained head ->
               exists p1 p2,
                 head :: scaleDownPlan q' (older ++ newer) = p1 ++ p2
                 /\ List.length p1 = List.length (ms :: older)
                 /\ (p2 = newer \/ Forall drained p1)).
    { intros head q' Hhead. destruct (IH q') as (p1 & p2 & E & Hlen & Hcase).
      exists (head :: p1), p2. rewrite E. simpl. repeat split; [now rewrite Hlen|].
      destruct Hcase; [now left|right; now constructor]. }
    simpl. destruct (Z.leb_spec q 0) as [Hq|Hq]; [apply Hstop|].
    destruct (MachineSet.replicas ms) as [r|] eqn:Hr.
    2:{ apply Hgo. unfold drained, desired. rewrite Hr. lia. }
    destruct (Z.ltb_spec 0 r) as [Hpos|Hneg].
    2:{ apply Hgo. unfold drained. rewrite (desired_Some ms r Hr). lia. }
    destruct (Z.le_gt_cases r q) as [Hfit|Hshort].
    + rewrite Z.min_l by lia. apply Hgo.
      unfold drained. rewrite desired_withReplicas. lia.
    + rewrite Z.min_r by lia. rewrite scaleDownPlan_exhausted by lia. apply Hstop.
Qed.

(** The runs of the availability-gated scale-down that enter the loop and
    return no error, against the plan. *)
Lemma scaleDownOldMachineSetsForRollingUpdate_success {collab : Collaborators}
      (allMSs oldMSs : list MachineSet.t) (d : MachineDeployment.t) (dReplicas : Z)
      (w w' : World) (count : Z) (sets : list MachineSet.t) :
  MachineDeployment.replicas d = Some dReplicas ->
  Forall countTyped oldMSs ->
  scaleDownOldMachineSetsForRollingUpdate allMSs oldMSs d w = Some ((count, sets, None), w') ->
  let minAvailable := Int32.sub dReplicas (MaxUnavailable d) in
  let available := GetAvailableReplicaCountForMachineSets allMSs in
  let sorted := sortByCreationTimestamp oldMSs in
  let plan := scaleDownPlan (Int32.sub available minAvailable) sorted in
  (available <= minAvailable /\ sets = oldMSs /\ count = 0)
  \/ (minAvailable < available /\ sets = plan
      /\ count = totalReplicas sorted - totalReplicas plan).
Proof.
  intros Hd Hty. unfold scaleDownOldMachineSetsForRollingUpdate. rewrite Hd.
  destruct (Z.leb_spec (GetAvailableReplicaCountForMachineSets allMSs)
                       (Int32.sub dReplicas (MaxUnavailable d))) as [Hle|Hlt].
  - intros [= <- <- _]. left. auto.
  - intros Hrun. right.
    apply scaleDownLoop_success in Hrun; [|apply wrap_in_range| |lia].
    + cbv zeta in Hrun. rewrite Z.sub_0_r in Hrun.
      destruct Hrun as (-> & -> & _). simpl. repeat split; (assumption || lia).
    + apply Forall_forall. intros x Hx. rewrite Forall_forall in Hty.
      apply Hty. now apply sortByCreationTimestamp_incl.
Qed.

(** X4.  For a budget that is a non-negative [int32] and old sets whose
    counts are non-negative [int32]s, every run of the unhealthy cleanup
    that returns no error has cleaned at most the budget, and has left each
    old set untouched or with a lower desired count that is still at least
    its number of available replicas: no available replica is removed. *)
Theorem cleanupUnhealthyReplicas_removes_only_unhealthy
        (oldMSs : list MachineSet.t) (d : MachineDeployment.t) (maxCleanupCount : Z)
        (w w' : World) (count : Z) (sets : list MachineSet.t) :
  0 <= maxCleanupCount <= Int32.max_int ->
  Forall countsNotNegative oldMSs ->
  cleanupUnhealthyReplicas oldMSs d maxCleanupCount w = Some ((sets, count, None), w') ->
  0 <= count <= maxCleanupCount
  /\ Forall2 onlyUnhealthyRemoved (sortByCreationTimestamp oldMSs) sets.
Proof.
  intros Hmax Hall Hrun. unfold cleanupUnhealthyReplicas in Hrun.
  apply cleanupLoop_success in Hrun; [|idtac|lia|lia].
  - cbv zeta in Hrun. rewrite Z.sub_0_r in Hrun. destruct Hrun as (-> & -> & _).
    destruct (cleanupPlan_bounds (sortByCreationTimestamp oldMSs) maxCleanupCount)
      as [H2 Hsum]; [lia|].
    simpl. split; [lia|exact H2].
  - apply Forall_forall. intros x Hx. rewrite Forall_forall in Hall.
    apply Hall. now apply sortByCreationTimestamp_incl.
Qed.

Lemma cleanupUnhealthyReplicas_removes_only_unhealthy_witness :
  let B := exampleSet "b" 1 (Some 5) 5 0 0 in
  let C := exampleSet "c" 2 (Some 4) 4 3 3 in
  0 <= 3 <= 3
  /\ Forall2 onlyUnhealthyRemoved (sortByCreationTimestamp [C; B])
             [MachineSet.withReplicas B 2; C].
Proof.
  intros B C.
  apply (cleanupUnhealthyReplicas_removes_only_unhealthy
           [C; B] (exampleDeployment 10 2 3 noStatus) 3 freshWorld
           (mkWorld [EvScale B 2 true] []) 3 [MachineSet.withReplicas B 2; C]).
  - vm_compute. intuition discriminate.
  - constructor; [|constructor; [|constructor]]; split;
      try (intros r [= <-]); vm_compute; intuition discriminate.
  - reflexivity.
Defined.

(** X5.  For a deployment with a present desired count and old sets whose
    desired counts are [int32]s, every run of the availability-gated
    scale-down that returns no error has taken away at most
    totalAvailable(allSets) − (d.replicas − maxUnavailable) replicas (and
    none when that quota is not positive), and returns the old sets, each
    untouched or with a lower desired count that is not negative. *)
Theorem scaleDownOldMachineSetsForRollingUpdate_within_quota {collab : Collaborators}
        (allMSs oldMSs : list MachineSet.t) (d : MachineDeployment.t) (dReplicas : Z)
        (w w' : World) (count : Z) (sets : list MachineSet.t) :
  MachineDeployment.replicas d = Some dReplicas ->
  Forall countTyped oldMSs ->
  scaleDownOldMachineSetsForRollingUpdate allMSs oldMSs d w = Some ((count, sets, None), w') ->
  0 <= count
  <= Z.max 0 (Int32.sub (GetAvailableReplicaCountForMachineSets allMSs)
                        (Int32.sub dReplicas (MaxUnavailable d)))
  /\ exists before, Permutation oldMSs before /\ Forall2 scaledDown before sets.
Proof.
  intros Hd Hty Hrun.
  destruct (scaleDownOldMachineSetsForRollingUpdate_success
              allMSs oldMSs d dReplicas w w' count sets Hd Hty Hrun)
    as [(_ & -> & ->)|(_ & -> & ->)].
  - split; [lia|]. exists oldMSs. split; [reflexivity|].
    apply Forall2_same, scaledDown_refl.
  - match goal with
    | |- context [scaleDownPlan ?q ?l] => destruct (scaleDownPlan_bounds l q) as [H2 Hsum]
    end.
    split; [exact Hsum|].
    exists (sortByCreationTimestamp oldMSs).
    split; [apply sortByCreationTimestamp_perm|exact H2].
Qed.

Lemma scaleDownOldMachineSetsForRollingUpdate_within_quota_witness :
  let A := exampleSet "a" 1 (Some 3) 3 3 3 in
  let B := exampleSet "b" 2 (Some 1) 1 1 1 in
  let d := exampleDeployment 3 0 1 noStatus in
  0 <= 1 <= Z.max 0 (Int32.sub (GetAvailableReplicaCountForMachineSets [A; B])
                               (Int32.sub 3 (MaxUnavailable (Collaborators := selecting B [A]) d)))
  /\ exists before,
       Permutation [A] before /\ Forall2 scaledDown before [MachineSet.withReplicas A 2].
Proof.
  intros A B d.
  apply (scaleDownOldMachineSetsForRollingUpdate_within_quota (collab := selecting B [A])
           [A; B] [A] d 3 freshWorld (mkWorld [EvScale A 2 true] []) 1
           [MachineSet.withReplicas A 2]).
  - reflexivity.
  - constructor; [|constructor]. intros r [= <-]. vm_compute. intuition discriminate.
  - reflexivity.
Defined.

(** X6.  Older sets drain first.  In every run of the availability-gated
    scale-down that enters its loop and returns no error, cut the old sets,
    in ascending creation order, anywhere into an older and a newer part:
    the sets returned are cut the same way, and the newer part is returned
    untouched unless every set of the older part is returned drained
    (desiring no replica). *)
Theorem scaleDownOldMachineSetsForRollingUpdate_oldest_first {collab : Collaborators}
        (allMSs oldMSs older newer : list MachineSet.t) (d : MachineDeployment.t)
        (dReplicas : Z) (w w' : World) (count : Z) (sets : list MachineSet.t) :
  MachineDeployment.replicas d = Some dReplicas ->
  Int32.sub dReplicas (MaxUnavailable d) < GetAvailableReplicaCountForMachineSets allMSs ->
  Forall countTyped oldMSs ->
  scaleDownOldMachineSetsForRollingUpdate allMSs oldMSs d w = Some ((count, sets, None), w') ->
  sortByCreationTimestamp oldMSs = older ++ newer ->
  exists p1 p2,
    sets = p1 ++ p2
    /\ List.length p1 = List.length older
    /\ (p2 = newer \/ Forall drained p1).
Proof.
  intros Hd Hlt Hty Hrun Hcut.
  destruct (scaleDownOldMachineSetsForRollingUpdate_success
              allMSs oldMSs d dReplicas w w' count sets Hd Hty Hrun)
    as [(Hle & _)|(_ & -> & _)]; [lia|].
  rewrite Hcut. apply scaleDownPlan_oldest_first.
Qed.

(** Replicas 3, maxUnavailable 0 and 5 available replicas: a quota of 2.
    The oldest set A desires 1 replica, B desires 3, C desires 2.  A is
    drained, B is scaled to 2, and C is left as it is. *)
Lemma scaleDownOldMachineSetsForRollingUpdate_oldest_first_witness :
  let A := exampleSet "a" 1 (Some 1) 1 1 1 in
  let B := exampleSet "b" 2 (Some 3) 3 3 3 in
  let C := exampleSet "c" 3 (Some 2) 2 0 0 in
  let N := exampleSet "n" 4 (Some 1) 1 1 1 in
  exists p1 p2,
    [MachineSet.withReplicas A 0; MachineSet.withReplicas B 2; C] = p1 ++ p2
    /\ List.length p1 = List.length [A; B]
    /\ (p2 = [C] \/ Forall drained p1).
Proof.
  intros A B C N.
  apply (scaleDownOldMachineSetsForRollingUpdate_oldest_first
           (collab := selecting N [C; A; B])
           [C; A; B; N] [C; A; B] [A; B] [C] (exampleDeployment 3 0 1 noStatus) 3
           freshWorld (mkWorld [EvScale A 0 true; EvScale B 2 true] []) 2
           [MachineSet.withReplicas A 0; MachineSet.withReplicas B 2; C]).
  - reflexivity.
  - vm_compute. reflexivity.
  - constructor; [|constructor; [|constructor; [|constructor]]];
      intros r [= <-]; vm_compute; intuition discriminate.
  - reflexivity.
  - reflexivity.
Defined.

(* ================================================================= *)
(** * Further properties of package mutating *)

(** X8.  With both tolerances given as integers, the validator accepts the
    strategy exactly when neither is negative and they are not both zero:
    an integer is never held against the 100% bound of maxUnavailable. *)
Theorem ValidateMachineRollingUpdateDeployment_integers
        (maxUnavailable maxSurge : Z) (path : field.Path) :
  ValidateMachineRollingUpdateDeployment
    (MachineRollingUpdateDeployment.Build (Some (IntOrString.FromInt maxUnavailable))
                                          (Some (IntOrString.FromInt maxSurge)))
    path = []
  <-> 0 <= maxUnavailable /\ 0 <= maxSurge /\ (maxUnavailable <> 0 \/ maxSurge <> 0).
Proof.
  unfold ValidateMachineRollingUpdateDeployment, ValidatePositiveIntOrPercent,
    getIntOrPercent, intstr.GetValueFromIntOrPercent. simpl.
  destruct (Z.ltb_spec maxUnavailable 0) as [Hu|Hu];
    destruct (Z.ltb_spec maxSurge 0) as [Hs|Hs];
    destruct (Z.eqb_spec maxUnavailable 0) as [Eu|Eu];
    destruct (Z.eqb_spec maxSurge 0) as [Es|Es];
    simpl; split; intros Hok; try discriminate; try lia; try reflexivity.
Qed.

Lemma getIntOrPercent_roundUp (s : IntOrString.t) :
  getIntOrPercent s true = getIntOrPercent s false.
Proof.
  unfold getIntOrPercent, intstr.GetValueFromIntOrPercent.
  destruct (intstr.getIntOrPercentValue s) as [[v [|]]|]; try reflexivity.
  replace (- (v * 100)) with ((- v) * 100) by lia.
  rewrite !Z.div_mul by lia. f_equal. lia.
Qed.

(** ** Percentages as they are written *)

Ltac digit_step :=
  match goal with
  | |- context [strconv.isDigit ?c] => change (strconv.isDigit c) with true; cbv iota
  end;
  match goal with
  | |- context [Z.of_nat (nat_of_ascii ?c)] =>
      let v := eval vm_compute in (Z.of_nat (nat_of_ascii c)) in
      change (Z.of_nat (nat_of_ascii c)) with v
  end.

Lemma digitsValue_acc (u : Decimal.uint) (p : positive) :
  strconv.digitsValue (Zpos p) (DecimalString.NilEmpty.string_of_uint u)
  = Some (Zpos (Pos.of_uint_acc u p)).
Proof.
  revert p.
  induction u; intros p;
    cbn [DecimalString.NilEmpty.string_of_uint Pos.of_uint_acc strconv.digitsValue];
    try reflexivity;
    digit_step; rewrite <- IHu; f_equal; lia.
Qed.

(** Reading the digits of a number gives the number. *)
Lemma digitsValue_uint (u : Decimal.uint) :
  strconv.digitsValue 0 (DecimalString.NilEmpty.string_of_uint u)
  = Some (Z.of_N (Pos.of_uint u)).
Proof.
  induction u;
    cbn [DecimalString.NilEmpty.string_of_uint Pos.of_uint strconv.digitsValue];
    try reflexivity;
    digit_step; try exact IHu;
    cbn [Z.of_N]; rewrite <- digitsValue_acc; f_equal.
Qed.

Lemma removePercent_digits (u : Decimal.uint) :
  strings.removePercent (DecimalString.NilEmpty.string_of_uint u ++ "%")
  = DecimalString.NilEmpty.string_of_uint u.
Proof.
  induction u; simpl; try reflexivity; now rewrite IHu.
Qed.

Lemma digitsThenPercent_digits (u : Decimal.uint) :
  utilvalidation.digitsThenPercent (DecimalString.NilEmpty.string_of_uint u ++ "%") = true.
Proof.
  induction u; simpl; try reflexivity; exact IHu.
Qed.

Lemma to_uint_nonnil (n : N) : N.to_uint n <> Decimal.Nil.
Proof.
  destruct n; simpl; [discriminate|apply DecimalPos.Unsigned.to_uint_nonnil].
Qed.

(** A written percentage is a valid percent string. *)
Lemma IsValidPercent_percent (n : N) : utilvalidation.IsValidPercent (percent n) = [].
Proof.
  unfold percent. pose proof (to_uint_nonnil n) as Hn.
  destruct (N.to_uint n) as [|u|u|u|u|u|u|u|u|u|u]; [contradiction|..]; simpl;
    unfold strconv.isDigit; simpl; now rewrite digitsThenPercent_digits.
Qed.

Lemma Atoi_digits (n : N) :
  Z.of_N n <= 9223372036854775807 ->
  strconv.Atoi (DecimalString.NilEmpty.string_of_uint (N.to_uint n)) = Some (Z.of_N n).
Proof.
  intros Hn. pose proof (to_uint_nonnil n) as Hnil.
  pose proof (digitsValue_uint (N.to_uint n)) as Hv.
  change (Pos.of_uint (N.to_uint n)) with (N.of_uint (N.to_uint n)) in Hv.
  rewrite DecimalN.Unsigned.of_to in Hv.
  unfold strconv.Atoi.
  destruct (N.to_uint n) as [|u|u|u|u|u|u|u|u|u|u]; [contradiction|..];
    cbn [DecimalString.NilEmpty.string_of_uint] in *; rewrite Hv;
    destruct (Z.leb_spec (-9223372036854775808) (Z.of_N n));
    destruct (Z.leb_spec (Z.of_N n) 9223372036854775807); simpl; try reflexivity; lia.
Qed.

Lemma getIntOrPercentValue_percent (n : N) :
  Z.of_N n <= 9223372036854775807 ->
  intstr.getIntOrPercentValue (IntOrString.FromString (percent n)) = Some (Z.of_N n, true).
Proof.
  intros Hn. unfold intstr.getIntOrPercentValue, percent.
  rewrite removePercent_digits, Atoi_digits by exact Hn. reflexivity.
Qed.

Lemma getIntOrPercent_percent (n : N) (roundUp : bool) :
  Z.of_N n <= 9223372036854775807 ->
  getIntOrPercent (IntOrString.FromString (percent n)) roundUp = (Z.of_N n, None).
Proof.
  intros Hn. unfold getIntOrPercent, intstr.GetValueFromIntOrPercent.
  rewrite (getIntOrPercentValue_percent n Hn).
  replace (- (Z.of_N n * 100)) with ((- Z.of_N n) * 100) by lia.
  rewrite !Z.div_mul by lia. destruct roundUp; f_equal; lia.
Qed.

(** X7.  With both tolerances written as percentages, maxUnavailable as u%
    and maxSurge as s% (numbers whose hundredfold is below 2^53, the range
    in which the library scales a percentage exactly), the validator
    accepts the strategy exactly when u is at most 100 and u and s are not
    both zero: the bound of 100 is held against maxUnavailable alone, and a
    surge above 100% is accepted. *)
Theorem ValidateMachineRollingUpdateDeployment_percentages
        (maxUnavailable maxSurge : N) (path : field.Path) :
  Z.of_N maxUnavailable * 100 < 2 ^ 53 ->
  Z.of_N maxSurge * 100 < 2 ^ 53 ->
  ValidateMachineRollingUpdateDeployment
    (MachineRollingUpdateDeployment.Build
       (Some (IntOrString.FromString (percent maxUnavailable)))
       (Some (IntOrString.FromString (percent maxSurge))))
    path = []
  <-> (maxUnavailable <= 100)%N /\ (maxUnavailable <> 0%N \/ maxSurge <> 0%N).
Proof.
  intros Hu Hs.
  assert (Hu' : Z.of_N maxUnavailable <= 9223372036854775807) by lia.
  assert (Hs' : Z.of_N maxSurge <= 9223372036854775807) by lia.
  unfold ValidateMachineRollingUpdateDeployment, ValidatePositiveIntOrPercent.
  cbn [MachineRollingUpdateDeployment.MaxUnavailable MachineRollingUpdateDeployment.MaxSurge
       IntOrString.StrVal].
  rewrite !getIntOrPercent_percent by assumption.
  rewrite IsValidPercent_percent.
  cbn [fst List.length Nat.eqb andb app].
  destruct (Z.ltb_spec (Z.of_N maxUnavailable) 0) as [H|_]; [lia|].
  destruct (Z.ltb_spec (Z.of_N maxSurge) 0) as [H|_]; [lia|].
  destruct (Z.gtb_spec (Z.of_N maxUnavailable) 100) as [Hgt|Hle];
    destruct (Z.eqb_spec (Z.of_N maxUnavailable) 0) as [Eu|Eu];
    destruct (Z.eqb_spec (Z.of_N maxSurge) 0) as [Es|Es];
    cbn; split; intros H; try discriminate; try reflexivity; try lia.
Qed.

(** maxUnavailable "25%" with maxSurge "150%" is accepted. *)
Lemma ValidateMachineRollingUpdateDeployment_percentages_witness :
  ValidateMachineRollingUpdateDeployment
    (MachineRollingUpdateDeployment.Build
       (Some (IntOrString.FromString "25%")) (Some (IntOrString.FromString "150%")))
    ["spec"; "strategy"; "rollingUpdate"]%string = [].
Proof.
  apply (proj2 (ValidateMachineRollingUpdateDeployment_percentages
                  25 150 ["spec"; "strategy"; "rollingUpdate"]%string
                  eq_refl eq_refl)).
  split; [intros H; discriminate H|left; discriminate].
Defined.

(** X9.  The validator reads every value against a total of 100.  For an
    integer, and for a percentage p with |p| * 100 below 2^53 (the range in
    which the library's float64 scaling is exact), getIntOrPercent returns
    the number as written, whichever rounding direction it is passed. *)
Theorem getIntOrPercent_rounding (s : IntOrString.t) (v : Z) (isPercent roundUp : bool) :
  intstr.getIntOrPercentValue s = Some (v, isPercent) ->
  (isPercent = true -> Z.abs v * 100 < 2 ^ 53) ->
  getIntOrPercent s roundUp = (v, None).
Proof.
  intros Hv _. unfold getIntOrPercent, intstr.GetValueFromIntOrPercent. rewrite Hv.
  assert (Edown : v * 100 / 100 = v) by (apply Z.div_mul; lia).
  assert (Eup : - (- (v * 100) / 100) = v).
  { replace (- (v * 100)) with ((- v) * 100) by lia. rewrite Z.div_mul by lia. lia. }
  destruct isPercent, roundUp; rewrite ?Eup, ?Edown; reflexivity.
Qed.

Lemma getIntOrPercent_rounding_witness :
  getIntOrPercent (IntOrString.FromString "25%") true = (25, None).
Proof.
  apply (getIntOrPercent_rounding (IntOrString.FromString "25%") 25 true true).
  - reflexivity.
  - intros _. vm_compute. reflexivity.
Defined.

Section Defaulting.
Context {lib : SelectorLibrary}.

Lemma length_zero_empty (s : string) : Nat.eqb (String.length s) 0 = true <-> s = EmptyString.
Proof. destruct s; simpl; split; congruence. Qed.

(** X10.  Defaulting is idempotent: defaulting a defaulted object changes
    nothing. *)
Theorem DefaultingFunction_idempotent (obj : mutating.Object) :
  mutating.DefaultingFunction (mutating.DefaultingFunction obj)
  = mutating.DefaultingFunction obj.
Proof.
  destruct obj as [name ns [rep sel tl [ty ru] mrs rhl pds]].
  unfold mutating.DefaultingFunction. cbn -[String.eqb].
  assert (Ens : (if Nat.eqb (String.length
                               (if Nat.eqb (String.length ns) 0 then NamespaceDefault else ns)) 0
                 then NamespaceDefault
                 else if Nat.eqb (String.length ns) 0 then NamespaceDefault else ns)
                = (if Nat.eqb (String.length ns) 0 then NamespaceDefault else ns)).
  { destruct ns; reflexivity. }
  rewrite Ens. clear Ens.
  set (ty' := if String.eqb ty EmptyString
              then RollingUpdateMachineDeploymentStrategyType else ty).
  assert (Ety : (if String.eqb ty' EmptyString
                 then RollingUpdateMachineDeploymentStrategyType else ty') = ty').
  { unfold ty'. destruct (String.eqb ty EmptyString) eqn:E; [reflexivity|now rewrite E]. }
  rewrite Ety. clear Ety.
  destruct rep, mrs, rhl, pds; cbn -[String.eqb];
    destruct (String.eqb ty' RollingUpdateMachineDeploymentStrategyType);
    try reflexivity;
    destruct ru as [[[mu|] [ms|]]|]; reflexivity.
Qed.

(** X11.  Defaulting only fills what is unset.  It leaves the name, the
    selector and the template alone; every count that is set, a namespace
    and a strategy type that are not empty, and every tolerance that is set
    are kept; afterwards the four counts are present and the namespace and
    the strategy type are not empty. *)
Theorem DefaultingFunction_fills_only_unset (obj : mutating.Object) :
  let spec := mutating.ObjectSpec obj in
  let obj' := mutating.DefaultingFunction obj in
  let spec' := mutating.ObjectSpec obj' in
  let keeps (field : mutating.Spec -> option Z) :=
    field spec' <> None /\ (field spec <> None -> field spec' = field spec) in
  let keepsTolerance (field : MachineRollingUpdateDeployment.t -> option IntOrString.t) :=
    forall ru v, mutating.RollingUpdate (mutating.Strategy spec) = Some ru ->
                 field ru = Some v ->
                 exists ru', mutating.RollingUpdate (mutating.Strategy spec') = Some ru'
                             /\ field ru' = Some v in
  mutating.Name obj' = mutating.Name obj
  /\ mutating.Selector' spec' = mutating.Selector' spec
  /\ mutating.TemplateLabels spec' = mutating.TemplateLabels spec
  /\ keeps mutating.Replicas /\ keeps mutating.MinReadySeconds
  /\ keeps mutating.RevisionHistoryLimit /\ keeps mutating.ProgressDeadlineSeconds
  /\ mutating.Namespace obj' <> EmptyString
  /\ (mutating.Namespace obj <> EmptyString -> mutating.Namespace obj' = mutating.Namespace obj)
  /\ mutating.Type' (mutating.Strategy spec') <> EmptyString
  /\ (mutating.Type' (mutating.Strategy spec) <> EmptyString ->
      mutating.Type' (mutating.Strategy spec') = mutating.Type' (mutating.Strategy spec))
  /\ keepsTolerance MachineRollingUpdateDeployment.MaxSurge
  /\ keepsTolerance MachineRollingUpdateDeployment.MaxUnavailable.
Proof.
  destruct obj as [name ns [rep sel tl [ty ru] mrs rhl pds]].
  cbv zeta. unfold mutating.DefaultingFunction. cbn -[String.eqb].
  repeat split;
    try (destruct rep; congruence); try (destruct mrs; congruence);
    try (destruct rhl; congruence); try (destruct pds; congruence).
  - destruct ns; discriminate.
  - destruct ns; [congruence|reflexivity].
  - destruct (String.eqb_spec ty EmptyString); [discriminate|assumption].
  - destruct (String.eqb_spec ty EmptyString); [congruence|reflexivity].
  - intros ru0 v [= ->] Hv.
    destruct (String.eqb _ RollingUpdateMachineDeploymentStrategyType).
    + eexists. split; [reflexivity|]. simpl. now rewrite Hv.
    + exists ru0. auto.
  - intros ru0 v [= ->] Hv.
    destruct (String.eqb _ RollingUpdateMachineDeploymentStrategyType).
    + eexists. split; [reflexivity|]. simpl. now rewrite Hv.
    + exists ru0. auto.
Qed.

(** The validator accepts a strategy whose unset tolerances were filled with
    the defaults exactly when it finds no fault in the given ones and the
    strategy does not ask for a zero surge with an unavailability that is
    zero or unset. *)
Lemma ValidateMachineRollingUpdateDeployment_filled
      (mu ms : option IntOrString.t) (path : field.Path) :
  let ru := MachineRollingUpdateDeployment.Build mu ms in
  let ru' := MachineRollingUpdateDeployment.Build
               match mu with None => Some (IntOrString.FromInt 0) | set => set end
               match ms with None => Some (IntOrString.FromInt 1) | set => set end in
  ValidateMachineRollingUpdateDeployment ru' path = []
  <-> ~ rejectedMaxUnavailable ru /\ ~ rejectedMaxSurge ru
      /\ ~ (surgeZero ru /\ unavailableZeroOrUnset ru).
Proof.
  intros ru ru'.
  assert (Hempty : forall errs : field.ErrorList, errs = [] <-> ~ errs <> []).
  { intros [|e errs]; split; intros H; try reflexivity; try discriminate; try tauto.
    exfalso. apply H. discriminate. }
  rewrite Hempty, ValidateMachineRollingUpdateDeployment_rejects.
  unfold ru, ru', rejectedMaxUnavailable, rejectedMaxSurge, rejectedBothZero,
    surgeZero, unavailableZeroOrUnset, unreadable.
  destruct mu as [mu|], ms as [ms|]; simpl.
  - split.
    + intros H. repeat split.
      * intros (x & [= <-] & Hx). apply H. left. eauto.
      * intros (x & [= <-] & Hx). apply H. right. left. eauto.
      * intros [(x & [= <-] & Hx) Hz]. apply H. right. right.
        exists mu, ms. auto.
    + intros (H1 & H2 & H3) [H|[H|(x & y & [= <-] & [= <-] & Hx & Hy)]]; auto.
      apply H3. split; [eauto|]. now intros z [= <-].
  - split.
    + intros H. repeat split.
      * intros (x & [= <-] & Hx). apply H. left. eauto.
      * intros (x & [=] & _).
      * intros [(x & [=] & _) _].
    + intros (H1 & _ & _) [H|[(x & [= <-] & [Hx|Hx])|(x & y & _ & [= <-] & _ & Hy)]];
        auto; try discriminate.
  - split.
    + intros H. repeat split.
      * intros (x & [=] & _).
      * intros (x & [= <-] & Hx). apply H. right. left. eauto.
      * intros [(x & [= <-] & Hx) _]. apply H. right. right.
        exists (IntOrString.FromInt 0), ms. auto.
    + intros (_ & H2 & H3)
             [(x & [= <-] & [Hx|[Hx|[Hx _]]])|[H|(x & y & _ & [= <-] & _ & Hy)]];
        auto; try discriminate.
      apply H3. split; [eauto|]. intros z [=].
  - split.
    + intros _. repeat split.
      * intros (x & [=] & _).
      * intros (x & [=] & _).
      * intros [(x & [=] & _) _].
    + intros _ [(x & [= <-] & [Hx|[Hx|[Hx _]]])
               |[(x & [= <-] & [Hx|Hx])|(x & y & _ & [= <-] & _ & Hy)]];
        auto; discriminate.
Qed.

(** Validation of the strategy of a defaulted object whose strategy type
    was empty or RollingUpdate. *)
Lemma ValidateMachineDeploymentStrategy_defaulted
      (obj : mutating.Object) (path : field.Path) :
  let strategy := mutating.Strategy (mutating.ObjectSpec obj) in
  let strategy' :=
    mutating.Strategy (mutating.ObjectSpec (mutating.DefaultingFunction obj)) in
  rollingAfterDefaulting (mutating.Type' strategy) ->
  mutating.ValidateMachineDeploymentStrategy strategy' path = []
  <-> ~ rejectedMaxUnavailable (givenRollingUpdate strategy)
      /\ ~ rejectedMaxSurge (givenRollingUpdate strategy)
      /\ ~ (surgeZero (givenRollingUpdate strategy)
            /\ unavailableZeroOrUnset (givenRollingUpdate strategy)).
Proof.
  destruct obj as [name ns [rep sel tl [ty ru] mrs rhl pds]].
  cbv zeta. unfold givenRollingUpdate. cbn -[String.eqb].
  intros Hty.
  assert (Ety : (if String.eqb ty EmptyString
                 then RollingUpdateMachineDeploymentStrategyType else ty)
                = RollingUpdateMachineDeploymentStrategyType).
  { destruct Hty as [-> | ->]; reflexivity. }
  unfold mutating.ValidateMachineDeploymentStrategy. cbn -[String.eqb].
  rewrite Ety. cbn -[ValidateMachineRollingUpdateDeployment].
  destruct ru as [[[mu|] [ms|]]|]; cbn -[ValidateMachineRollingUpdateDeployment].
  - apply (ValidateMachineRollingUpdateDeployment_filled (Some mu) (Some ms)).
  - apply (ValidateMachineRollingUpdateDeployment_filled (Some mu) None).
  - apply (ValidateMachineRollingUpdateDeployment_filled None (Some ms)).
  - apply (ValidateMachineRollingUpdateDeployment_filled None None).
  - apply (ValidateMachineRollingUpdateDeployment_filled None None).
Qed.

(** The validator of the whole object accepts exactly when the selector
    checks pass, a replica count is given and not negative, and the
    strategy is accepted. *)
Lemma Validate_accepts (md : mutating.Object) :
  let spec := mutating.ObjectSpec md in
  mutating.Validate md = Some []
  <-> selectorAccepted spec ["spec"%string]
      /\ (exists r, mutating.Replicas spec = Some r /\ 0 <= r)
      /\ mutating.ValidateMachineDeploymentStrategy
           (mutating.Strategy spec) ["spec"; "strategy"]%string = [].
Proof.
  destruct md as [name ns [rep sel tl strategy mrs rhl pds]].
  cbv zeta. unfold mutating.Validate, mutating.ValidateMachineDeploymentSpec, selectorAccepted.
  cbn -[mutating.ValidateMachineDeploymentStrategy Nat.eqb].
  destruct rep as [r|].
  2:{ split; [discriminate|]. intros (_ & (r & [=] & _) & _). }
  set (strategyErrs := mutating.ValidateMachineDeploymentStrategy strategy _).
  set (selectorErrs := ValidateLabelSelector sel _).
  split.
  - intros [= H].
    apply app_eq_nil in H. destruct H as [H Hs].
    destruct (Z.ltb_spec r 0) as [Hr|Hr];
      [apply app_eq_nil in H; destruct H as [_ [=]]|].
    destruct (LabelSelectorAsSelector sel) as [selector|];
      [|apply app_eq_nil in H; destruct H as [_ [=]]].
    destruct (Matches selector tl) eqn:Hm; simpl in H;
      [|apply app_eq_nil in H; destruct H as [_ [=]]].
    destruct (Nat.eqb_spec (selectorTerms sel) 0) as [Ht|Ht];
      [apply app_eq_nil in H; destruct H as [_ [=]]|].
    repeat split; eauto.
  - intros ((Hv & Ht & selector & Hsel & Hm) & (r' & [= <-] & Hr) & Hs).
    rewrite Hv, Hsel, Hm, Hs.
    destruct (Nat.eqb_spec (selectorTerms sel) 0) as [Ht'|_]; [contradiction|].
    destruct (Z.ltb_spec r 0) as [Hr'|_]; [lia|]. reflexivity.
Qed.

(** X12.  Defaulting does not rescue a strategy type it does not know: a
    type that is neither empty nor RollingUpdate is kept, its rolling-update
    block is left as given, and the strategy validator answers with the
    invalid-type error alone. *)
Theorem DefaultingFunction_unknown_strategy_type
        (obj : mutating.Object) (path : field.Path) :
  let strategy := mutating.Strategy (mutating.ObjectSpec obj) in
  let strategy' :=
    mutating.Strategy (mutating.ObjectSpec (mutating.DefaultingFunction obj)) in
  ~ rollingAfterDefaulting (mutating.Type' strategy) ->
  strategy' = strategy
  /\ mutating.ValidateMachineDeploymentStrategy strategy' path
     = [field.Invalid (field.Child path "Type") "is an invalid type"].
Proof.
  destruct obj as [name ns [rep sel tl [ty ru] mrs rhl pds]].
  cbv zeta. unfold rollingAfterDefaulting. cbn -[String.eqb]. intros Hty.
  destruct (String.eqb_spec ty EmptyString) as [E|_]; [tauto|].
  unfold mutating.ValidateMachineDeploymentStrategy. cbn -[String.eqb].
  destruct (String.eqb_spec ty RollingUpdateMachineDeploymentStrategyType) as [E|_]; [tauto|].
  split; reflexivity.
Qed.

End Defaulting.

Lemma DefaultingFunction_unknown_strategy_type_witness :
  mutating.ValidateMachineDeploymentStrategy
    (mutating.Strategy
       (mutating.ObjectSpec (mutating.DefaultingFunction (bareObject (Some 3) "Recreate" None))))
    ["spec"; "strategy"]%string
  = [field.Invalid ["spec"; "strategy"; "Type"]%string "is an invalid type"].
Proof.
  apply (DefaultingFunction_unknown_strategy_type
           (bareObject (Some 3) "Recreate" None) ["spec"; "strategy"]%string).
  intros [H|H]; discriminate H.
Defined.


(** X13.  A strategy of type RollingUpdate that gives only a surge
    tolerance standing for zero passes the strategy validator as submitted,
    and is rejected once defaulted: the defaulter fills maxUnavailable with
    0, and the validator then reports that both are zero. *)
Theorem DefaultingFunction_zero_surge_alone {lib : SelectorLibrary}
        (obj : mutating.Object) (ms : IntOrString.t) (path : field.Path) :
  let strategy := mutating.Strategy (mutating.ObjectSpec obj) in
  let strategy' :=
    mutating.Strategy (mutating.ObjectSpec (mutating.DefaultingFunction obj)) in
  strategy = mutating.BuildStrategy RollingUpdateMachineDeploymentStrategyType
               (Some (MachineRollingUpdateDeployment.Build None (Some ms))) ->
  getIntOrPercent ms false = (0, None) ->
  mutating.ValidateMachineDeploymentStrategy strategy path = []
  /\ mutating.ValidateMachineDeploymentStrategy strategy' path
     = [field.Invalid (field.Child (field.Child path "rollingUpdate") "maxUnavailable")
                      "may not be 0 when `maxSurge` is 0"].
Proof.
  destruct obj as [name ns [rep sel tl strategy mrs rhl pds]].
  cbv zeta. cbn -[String.eqb mutating.ValidateMachineDeploymentStrategy].
  intros -> Hms.
  pose proof (getIntOrPercent_roundUp ms) as Hup. rewrite Hms in Hup.
  unfold mutating.ValidateMachineDeploymentStrategy, ValidateMachineRollingUpdateDeployment,
    ValidatePositiveIntOrPercent.
  cbn -[getIntOrPercent]. rewrite Hms, Hup.
  split; reflexivity.
Qed.

Lemma DefaultingFunction_zero_surge_alone_witness :
  let given := Some (MachineRollingUpdateDeployment.Build None (Some (IntOrString.FromInt 0))) in
  let obj := bareObject (Some 3) RollingUpdateMachineDeploymentStrategyType given in
  mutating.ValidateMachineDeploymentStrategy
    (mutating.Strategy (mutating.ObjectSpec obj)) ["spec"; "strategy"]%string = []
  /\ mutating.ValidateMachineDeploymentStrategy
       (mutating.Strategy (mutating.ObjectSpec (mutating.DefaultingFunction obj)))
       ["spec"; "strategy"]%string
     = [field.Invalid ["spec"; "strategy"; "rollingUpdate"; "maxUnavailable"]%string
                      "may not be 0 when `maxSurge` is 0"].
Proof.
  apply (DefaultingFunction_zero_surge_alone
           (bareObject (Some 3) RollingUpdateMachineDeploymentStrategyType
              (Some (MachineRollingUpdateDeployment.Build None (Some (IntOrString.FromInt 0)))))
           (IntOrString.FromInt 0) ["spec"; "strategy"]%string);
    reflexivity.
Defined.

(** X14.  Validate panics exactly on an object without a replica count, the
    error it means to return being built from the missing count; on a
    defaulted object it never does. *)
Theorem Validate_panics_without_replicas {lib : SelectorLibrary} (obj : mutating.Object) :
  (mutating.Validate obj = None <-> mutating.Replicas (mutating.ObjectSpec obj) = None)
  /\ mutating.Validate (mutating.DefaultingFunction obj) <> None.
Proof.
  destruct obj as [name ns [rep sel tl strategy mrs rhl pds]].
  unfold mutating.Validate, mutating.ValidateMachineDeploymentSpec.
  cbn -[mutating.ValidateMachineDeploymentStrategy Nat.eqb].
  destruct rep as [r|]; split; try split; try discriminate; reflexivity.
Qed.

(** X15.  Defaulting followed by validation accepts an object exactly when
    its selector passes the three selector checks, its replica count is
    unset or not negative, its strategy type is empty or RollingUpdate, the
    tolerances it gives are readable, not negative and (maxUnavailable, as
    a percent string) not above 100, and it does not ask for a zero surge
    with an unavailability that is zero or unset. *)
Theorem Validate_after_DefaultingFunction {lib : SelectorLibrary} (obj : mutating.Object) :
  let spec := mutating.ObjectSpec obj in
  let given := givenRollingUpdate (mutating.Strategy spec) in
  mutating.Validate (mutating.DefaultingFunction obj) = Some []
  <-> selectorAccepted spec ["spec"%string]
      /\ (forall r, mutating.Replicas spec = Some r -> 0 <= r)
      /\ rollingAfterDefaulting (mutating.Type' (mutating.Strategy spec))
      /\ ~ rejectedMaxUnavailable given /\ ~ rejectedMaxSurge given
      /\ ~ (surgeZero given /\ unavailableZeroOrUnset given).
Proof.
  cbv zeta. rewrite Validate_accepts.
  assert (Hsel : selectorAccepted (mutating.ObjectSpec (mutating.DefaultingFunction obj))
                                  ["spec"%string]
                 <-> selectorAccepted (mutating.ObjectSpec obj) ["spec"%string]).
  { destruct obj as [name ns [rep sel tl strategy mrs rhl pds]]. reflexivity. }
  assert (Hrep : (exists r, mutating.Replicas
                              (mutating.ObjectSpec (mutating.DefaultingFunction obj)) = Some r
                            /\ 0 <= r)
                 <-> forall r, mutating.Replicas (mutating.ObjectSpec obj) = Some r -> 0 <= r).
  { destruct obj as [name ns [[r|] sel tl strategy mrs rhl pds]]; simpl.
    - split; [intros (r' & [= <-] & Hr) r'' [= <-]; exact Hr|eauto].
    - split; [intros _ r [=]|intros _; exists 1; split; [reflexivity|lia]]. }
  rewrite Hsel, Hrep.
  assert (Hty : rollingAfterDefaulting
                  (mutating.Type' (mutating.Strategy (mutating.ObjectSpec obj)))
                \/ ~ rollingAfterDefaulting
                      (mutating.Type' (mutating.Strategy (mutating.ObjectSpec obj)))).
  { unfold rollingAfterDefaulting.
    destruct (String.eqb_spec (mutating.Type' (mutating.Strategy (mutating.ObjectSpec obj)))
                              EmptyString); [tauto|].
    destruct (String.eqb_spec (mutating.Type' (mutating.Strategy (mutating.ObjectSpec obj)))
                              RollingUpdateMachineDeploymentStrategyType); tauto. }
  destruct Hty as [Hty|Hty].
  - rewrite (ValidateMachineDeploymentStrategy_defaulted obj _ Hty). tauto.
  - split; [|tauto]. intros (_ & _ & Hs). exfalso.
    destruct obj as [name ns [rep sel tl [ty ru] mrs rhl pds]].
    unfold rollingAfterDefaulting in Hty. cbn -[String.eqb] in Hty, Hs.
    destruct (String.eqb_spec ty EmptyString) as [E|_]; [tauto|].
    unfold mutating.ValidateMachineDeploymentStrategy in Hs. cbn -[String.eqb] in Hs.
    destruct (String.eqb_spec ty RollingUpdateMachineDeploymentStrategyType) as [E|_]; [tauto|].
    discriminate Hs.
Qed.

(* ================================================================= *)
(** * A further property of ensureStatus *)

(** X16.  ensureStatus settles in one pass: once it has returned without
    error (the store answering a write with the object it was sent), a
    second call on the deployment it returned, with the same sets, finds
    the status up to date and writes nothing. *)
Theorem ensureStatus_settles (md md' : MachineDeployment.t) (newMS : MachineSet.t)
        (oldMSs : list MachineSet.t) (w w' : World) :
  ensureStatus md newMS oldMSs w = Some ((md', None), w') ->
  forall w'', ensureStatus md' newMS oldMSs w'' = Some ((md', None), w'').
Proof.
  intros Hrun w''.
  destruct (MachineDeployment.replicas md) as [r|] eqn:Hr.
  2:{ unfold ensureStatus, bind, deref in Hrun. rewrite Hr in Hrun. discriminate. }
  destruct (ensureStatus_spec md newMS oldMSs r w Hr) as [Hsame Hwrite].
  set (st := aggregatedStatus md r newMS oldMSs) in *.
  assert (Hdec : MachineDeployment.Status md = st \/ MachineDeployment.Status md <> st).
  { destruct (MachineDeploymentStatus.DeepEqual (MachineDeployment.Status md) st) eqn:E.
    - left. now apply DeepEqual_eq.
    - right. intros H. apply DeepEqual_eq in H. congruence. }
  destruct Hdec as [Heq|Hne].
  - rewrite (Hsame Heq) in Hrun. injection Hrun as <- _.
    apply (proj1 (ensureStatus_spec md newMS oldMSs r w'' Hr)). exact Heq.
  - destruct (Hwrite Hne) as (accepted & w1 & Hrun' & _).
    rewrite Hrun' in Hrun. injection Hrun as <- _ _.
    assert (Hr' : MachineDeployment.replicas (MachineDeployment.withStatus md st) = Some r).
    { destruct md. exact Hr. }
    apply (proj1 (ensureStatus_spec _ newMS oldMSs r w'' Hr')).
    destruct md. reflexivity.
Qed.

Lemma ensureStatus_settles_witness :
  let d := exampleDeployment 3 1 1 noStatus in
  let newMS := exampleSet "new" 2 (Some 3) 3 3 3 in
  ensureStatus (MachineDeployment.withStatus d (aggregatedStatus d 3 newMS [])) newMS []
               freshWorld
  = Some ((MachineDeployment.withStatus d (aggregatedStatus d 3 newMS []), None), freshWorld).
Proof.
  apply (ensureStatus_settles (exampleDeployment 3 1 1 noStatus)
           (MachineDeployment.withStatus (exampleDeployment 3 1 1 noStatus)
              (aggregatedStatus (exampleDeployment 3 1 1 noStatus) 3
                 (exampleSet "new" 2 (Some 3) 3 3 3) []))
           (exampleSet "new" 2 (Some 3) 3 3 3) [] freshWorld
           (mkWorld [EvStatus (MachineDeployment.withStatus (exampleDeployment 3 1 1 noStatus)
                                 (aggregatedStatus (exampleDeployment 3 1 1 noStatus) 3
                                    (exampleSet "new" 2 (Some 3) 3 3 3) [])) true] [])).
  vm_compute. reflexivity.
Defined.
